(** * BunnyCart: the Workers AI chat adapter and the product workflow

    A shallow embedding of
    - [convertToWorkersAIChatMessages] (convert-to-workersai-chat-messages.ts),
    - [mapWorkersAIUsage] (map-workersai-usage.ts),
    - [getMappedStream] (streaming.ts),
    - [WorkersAIChatLanguageModel.doGenerate] / [doStream]
      (workersai-chat-language-model.ts),
    - [ProductRecommendationWorkflow.run] (workflows/product-recommendation.ts),
    followed by the properties of the specification that concern them. *)

From Stdlib Require Import ZArith QArith Ascii.
From Stdlib Require Import Strings.Byte.
From stdpp Require Import list strings pretty sorting.

Set Warnings "-register-all".

(** ** JavaScript values used by the code *)

(** The line feed used as separator by [content.map(...).join("\n")]. *)
Definition LF : string := String (ascii_of_nat 10) EmptyString.

(** Truthiness of a variable of type [string | null | undefined]: [null],
    [undefined] and the empty string are falsy. *)
Definition truthy (s : option string) : bool :=
  match s with
  | Some (String _ _) => true
  | _ => false
  end.

(** [s?.length] used as a condition: true for a non-empty string. *)
Definition nonEmpty (s : option string) : bool := truthy s.

(** How [Array.prototype.join] prints an element: [undefined] and [null]
    become the empty string. *)
Definition joinItem (o : option string) : string := default "" o.

Fixpoint join (sep : string) (l : list (option string)) : string :=
  match l with
  | [] => ""
  | x :: rest =>
      match rest with
      | [] => joinItem x
      | _ :: _ => joinItem x +:+ sep +:+ join sep rest
      end
  end.

(** JSON documents; numbers are restricted to integers. *)
Inductive json : Type :=
| JNull
| JBool (b : bool)
| JNum (n : Z)
| JStr (s : string)
| JArr (items : list json)
| JObj (fields : list (string * json)).

(** The host's [JSON] object.  [JSON_parse] returns [None] where
    [JSON.parse] throws a [SyntaxError]. *)
Class JsonHost := {
  JSON_stringify : json → string;
  JSON_parse : string → option json;
}.

(** The outcome of a call that may [throw new Error(msg)]. *)
Inductive Result (A : Type) : Type :=
| Ok (a : A)
| Throw (msg : string).
Arguments Ok {A} a.
Arguments Throw {A} msg.

Definition bindR {A B} (r : Result A) (k : A → Result B) : Result B :=
  match r with
  | Ok a => k a
  | Throw msg => Throw msg
  end.

Notation "x ←? r ; k" := (bindR r (λ x, k))
  (at level 100, r at next level, k at level 200, right associativity).

Definition isOk {A} (r : Result A) : bool :=
  match r with Ok _ => true | Throw _ => false end.

Definition okValue {A} (r : Result A) : option A :=
  match r with Ok a => Some a | Throw _ => None end.

(** ** The canonical prompt (LanguageModelV2Prompt) *)

Inductive FileData : Type :=
| DataBytes (bytes : list byte)     (* a Uint8Array *)
| DataBase64 (text : string)        (* a base64 string *)
| DataUrl (href : string).          (* a URL object *)

Record ToolResult := {
  tr_toolCallId : string;
  tr_toolName : string;
  tr_output : json;
}.

(** A content part.  [POther] stands for any part whose [type] tag is none
    of the five the converter's switches name. *)
Inductive Part : Type :=
| PText (text : string)
| PReasoning (text : string)
| PFile (data : FileData) (mediaType : string) (providerOptions : option json)
| PToolCall (toolCallId toolName : string) (input : json)
| PToolResult (result : ToolResult)
| POther (type : string).

Definition part_type (p : Part) : string :=
  match p with
  | PText _ => "text"
  | PReasoning _ => "reasoning"
  | PFile _ _ _ => "file"
  | PToolCall _ _ _ => "tool-call"
  | PToolResult _ => "tool-result"
  | POther type => type
  end.

(** A turn [{ role, content }].  [TOther] stands for any role that is none
    of the four the converter's switch names. *)
Inductive Turn : Type :=
| TSystem (content : string)
| TUser (content : list Part)
| TAssistant (content : list Part)
| TTool (content : list ToolResult)
| TOther (role : string).

(** ** The backend's messages (WorkersAIChatPrompt) *)

Inductive Role : Type := RSystem | RUser | RAssistant | RTool.

Record ToolFunction := {
  fn_arguments : string;
  fn_name : string;
}.

(** [{ function, id, type: "function" }] *)
Record BackendToolCall := {
  tc_function : ToolFunction;
  tc_id : string;
}.

Record ChatMessage := {
  msg_role : Role;
  msg_content : string;
  msg_name : option string;
  msg_tool_call_id : option string;
  msg_tool_calls : option (list BackendToolCall);
}.

Record Image := {
  img_image : list byte;
  img_mimeType : option string;
  img_providerOptions : option json;
}.

Record Converted := {
  images : list Image;
  messages : list ChatMessage;
}.

(** ** convertToWorkersAIChatMessages *)

Section Converter.
Context {JH : JsonHost}.

(** The id template [`functions.${name}:${index}`]. *)
Definition functionsId (name : string) (index : nat) : string :=
  "functions." +:+ name +:+ ":" +:+ pretty index.

Definition systemMessage (content : string) : ChatMessage :=
  {| msg_role := RSystem; msg_content := content; msg_name := None;
     msg_tool_call_id := None; msg_tool_calls := None |}.

(** The callback given to [content.map] in the user case: the rendered
    string ([None] for [undefined]) and what it pushes on [images]. *)
Definition userPart (part : Part) : option string * list Image :=
  match part with
  | PText text => (Some text, [])
  | PFile data mediaType providerOptions =>
      (Some "",
       match data with
       | DataBytes bytes =>
           [ {| img_image := bytes; img_mimeType := Some mediaType;
                img_providerOptions := providerOptions |} ]
       | _ => []
       end)
  | _ => (None, [])
  end.

Definition userMessage (content : list Part) : ChatMessage :=
  {| msg_role := RUser;
     msg_content := join LF (fst <$> (userPart <$> content));
     msg_name := None; msg_tool_call_id := None; msg_tool_calls := None |}.

Definition userImages (content : list Part) : list Image :=
  concat (snd <$> (userPart <$> content)).

(** The two locals of the assistant case. *)
Record AssistantAcc := {
  acc_text : string;
  acc_toolCalls : list BackendToolCall;
}.

Definition assistantPart (acc : AssistantAcc) (part : Part) : Result AssistantAcc :=
  match part with
  | PText text | PReasoning text =>
      Ok {| acc_text := acc_text acc +:+ text; acc_toolCalls := acc_toolCalls acc |}
  | PToolCall toolCallId toolName input =>
      Ok {| acc_text :=
              JSON_stringify (JObj [("name", JStr toolName); ("parameters", input)]);
            acc_toolCalls :=
              acc_toolCalls acc ++
              [ {| tc_function := {| fn_arguments := JSON_stringify input;
                                     fn_name := toolName |};
                   tc_id := toolCallId |} ] |}
  | _ => Throw ("Unsupported part type: " +:+ part_type part)
  end.

Fixpoint assistantParts (acc : AssistantAcc) (content : list Part) : Result AssistantAcc :=
  match content with
  | [] => Ok acc
  | part :: rest => acc' ←? assistantPart acc part; assistantParts acc' rest
  end.

Definition renumber (index : nat) (tc : BackendToolCall) : BackendToolCall :=
  {| tc_function := {| fn_arguments := fn_arguments (tc_function tc);
                       fn_name := fn_name (tc_function tc) |};
     tc_id := functionsId (fn_name (tc_function tc)) index |}.

Definition assistantMessage (content : list Part) : Result ChatMessage :=
  acc ←? assistantParts {| acc_text := ""; acc_toolCalls := [] |} content;
  Ok {| msg_role := RAssistant;
        msg_content := acc_text acc;
        msg_name := None; msg_tool_call_id := None;
        msg_tool_calls :=
          if (0 <? length (acc_toolCalls acc))%nat
          then Some (imap renumber (acc_toolCalls acc))
          else None |}.

Definition toolMessage (index : nat) (toolResponse : ToolResult) : ChatMessage :=
  {| msg_role := RTool;
     msg_content := JSON_stringify (tr_output toolResponse);
     msg_name := Some (tr_toolName toolResponse);
     msg_tool_call_id := Some (functionsId (tr_toolName toolResponse) index);
     msg_tool_calls := None |}.

(** One iteration of [for (const { role, content } of prompt)] on the two
    arrays under construction. *)
Definition convertTurn (out : Converted) (turn : Turn) : Result Converted :=
  match turn with
  | TSystem content =>
      Ok {| images := images out;
            messages := messages out ++ [systemMessage content] |}
  | TUser content =>
      Ok {| images := images out ++ userImages content;
            messages := messages out ++ [userMessage content] |}
  | TAssistant content =>
      m ←? assistantMessage content;
      Ok {| images := images out; messages := messages out ++ [m] |}
  | TTool content =>
      Ok {| images := images out;
            messages := messages out ++ imap toolMessage content |}
  | TOther role => Throw ("Unsupported role: " +:+ role)
  end.

Fixpoint convertTurns (out : Converted) (prompt : list Turn) : Result Converted :=
  match prompt with
  | [] => Ok out
  | turn :: rest => out' ←? convertTurn out turn; convertTurns out' rest
  end.

Definition convertToWorkersAIChatMessages (prompt : list Turn) : Result Converted :=
  convertTurns {| images := []; messages := [] |} prompt.

End Converter.

(** ** Token usage: mapWorkersAIUsage *)

(** [usage: { prompt_tokens, completion_tokens }]; token counts are
    integers, on which the addition of JavaScript numbers is exact. *)
Record BackendUsage := {
  prompt_tokens : Z;
  completion_tokens : Z;
}.

Record Usage := {
  outputTokens : Z;
  inputTokens : Z;
  totalTokens : Z;
}.

(** Modelled from the spec: an entry of a backend [tool_calls] array.  The
    sources type these entries as [any], copy them around and leave reading
    them to utils.ts; the fields are those the specification gives to a
    backend tool call and to a fragment, absent strings being empty. *)
Record RawToolCall := {
  raw_index : nat;
  raw_id : string;
  raw_name : string;
  raw_arguments : string;
}.

(** [choices[0].message] and [choices[0].delta]. *)
Record ChoiceBody := {
  content : option string;
  reasoning_content : option string;
}.

Record Choice := {
  message : option ChoiceBody;
  delta : option ChoiceBody;
  finish_reason : option string;
}.

(** A backend JSON document: the non-streaming output, or one parsed chunk
    of the event stream. *)
Record Output := {
  response : option string;
  usage : option BackendUsage;
  tool_calls : option (list RawToolCall);
  choices : option (list Choice);
}.

Definition mapWorkersAIUsage (output : Output) : Usage :=
  let usage :=
    default {| completion_tokens := 0; prompt_tokens := 0 |} (usage output) in
  {| outputTokens := completion_tokens usage;
     inputTokens := prompt_tokens usage;
     totalTokens := prompt_tokens usage + completion_tokens usage |}.

(** [x?.choices?.[0]] *)
Definition firstChoice (x : Output) : option Choice :=
  choices x ≫= head.

(** ** Canonical stream events (LanguageModelV2StreamPart) *)

Inductive FinishReason : Type :=
| FinishStop | FinishLength | FinishContentFilter | FinishToolCalls
| FinishError | FinishOther | FinishUnknown.

Inductive Warning : Type :=
| UnsupportedSetting (setting : string).

(** [{ type: "tool-call", toolCallId, toolName, input }] *)
Record ToolCall := {
  toolCallId : string;
  toolName : string;
  input : json;
}.

Inductive StreamPart : Type :=
| StreamStart (warnings : list Warning)
| TextStart (id : string)
| TextDelta (id delta : string)
| TextEnd (id : string)
| ReasoningStart (id : string)
| ReasoningDelta (id delta : string)
| ReasoningEnd (id : string)
| ToolCallPart (call : ToolCall)
| Finish (finishReason : FinishReason) (usage : Usage).

(** The content parts of a generation result. *)
Inductive Content : Type :=
| CReasoning (text : string)
| CText (text : string)
| CToolCall (call : ToolCall).

Record GenerateResult := {
  res_finishReason : FinishReason;
  res_content : list Content;
  res_reasoningText : option string;
  res_usage : Usage;
  res_warnings : list Warning;
}.

(** ** What the adapter imports *)

(** [generateId] of the [ai] package: [generateId n] is the id returned by
    the call number [n] made while a stream is produced. *)
Class IdSource := {
  generateId : nat → string;
}.

Record Tool := {
  tool_name : string;
  tool_description : option string;
  tool_inputSchema : json;
}.

Inductive ToolChoice : Type :=
| ChoiceAuto | ChoiceNone | ChoiceRequired | ChoiceTool (name : string).

(** The argument of [mapWorkersAIFinishReason]: doGenerate passes the
    backend output, the simulated stream passes doGenerate's result. *)
Inductive FinishSource : Type :=
| OfOutput (output : Output)
| OfResult (result : GenerateResult).

(** The helpers of utils.ts and map-workersai-finish-reason.ts.
    [prepareToolsAndToolChoice] stands for the [tools] field of what the
    helper returns, the only one the requests use. *)
Class Utils := {
  processText : Output → option string;
  processToolCalls : Output → list ToolCall;
  processPartialToolCalls : list RawToolCall → list ToolCall;
  lastMessageWasUser : list ChatMessage → bool;
  prepareToolsAndToolChoice : option (list Tool) → option ToolChoice → option (list Tool);
  mapWorkersAIFinishReason : FinishSource → FinishReason;
}.

(** ** getMappedStream *)

(** What [events(response)] yields, by its [data] field. *)
Inductive SseEvent : Type :=
| NoData                      (* [!event.data] *)
| Done                        (* [event.data === "[DONE]"] *)
| Data (chunk : Output)       (* [JSON.parse(event.data)] returns [chunk] *)
| Malformed (data : string).  (* [JSON.parse(event.data)] throws *)

(** What the [start] callback of a stream works on: the variables of
    [getMappedStream] (the simulated stream of [doStream] has the two ids
    only), the number of ids drawn from [generateId] and the parts handed to
    [controller.enqueue], oldest first. *)
Record Producer := {
  m_usage : Usage;
  partialToolCalls : list RawToolCall;
  textId : option string;
  reasoningId : option string;
  drawn : nat;
  enqueued : list StreamPart;
}.

Definition enqueue (part : StreamPart) (st : Producer) : Producer :=
  {| m_usage := m_usage st; partialToolCalls := partialToolCalls st;
     textId := textId st; reasoningId := reasoningId st; drawn := drawn st;
     enqueued := enqueued st ++ [part] |}.

Definition setUsage (u : Usage) (st : Producer) : Producer :=
  {| m_usage := u; partialToolCalls := partialToolCalls st;
     textId := textId st; reasoningId := reasoningId st; drawn := drawn st;
     enqueued := enqueued st |}.

Definition pushPartial (calls : list RawToolCall) (st : Producer) : Producer :=
  {| m_usage := m_usage st; partialToolCalls := partialToolCalls st ++ calls;
     textId := textId st; reasoningId := reasoningId st; drawn := drawn st;
     enqueued := enqueued st |}.

Definition setTextId (id : option string) (st : Producer) : Producer :=
  {| m_usage := m_usage st; partialToolCalls := partialToolCalls st;
     textId := id; reasoningId := reasoningId st; drawn := drawn st;
     enqueued := enqueued st |}.

Definition setReasoningId (id : option string) (st : Producer) : Producer :=
  {| m_usage := m_usage st; partialToolCalls := partialToolCalls st;
     textId := textId st; reasoningId := id; drawn := drawn st;
     enqueued := enqueued st |}.

Definition initialProducer : Producer :=
  {| m_usage := {| outputTokens := 0; inputTokens := 0; totalTokens := 0 |};
     partialToolCalls := []; textId := None; reasoningId := None;
     drawn := 0; enqueued := [] |}.

Section Streaming.
Context {IS : IdSource} {U : Utils}.

(** [x = generateId()] *)
Definition drawId (st : Producer) : string * Producer :=
  (generateId (drawn st),
   {| m_usage := m_usage st; partialToolCalls := partialToolCalls st;
      textId := textId st; reasoningId := reasoningId st;
      drawn := S (drawn st); enqueued := enqueued st |}).

(** [if (!textId) { textId = generateId(); enqueue text-start }
     enqueue { type: "text-delta", id: textId, delta }] *)
Definition textDelta (delta : string) (st : Producer) : Producer :=
  let st :=
    if truthy (textId st) then st
    else let '(id, st) := drawId st in
         enqueue (TextStart id) (setTextId (Some id) st) in
  enqueue (TextDelta (joinItem (textId st)) delta) st.

Definition reasoningDelta (delta : string) (st : Producer) : Producer :=
  let st :=
    if truthy (reasoningId st) then st
    else let '(id, st) := drawId st in
         enqueue (ReasoningStart id) (setReasoningId (Some id) st) in
  enqueue (ReasoningDelta (joinItem (reasoningId st)) delta) st.

(** The body of the [for await] loop below the [JSON.parse]. *)
Definition onChunk (chunk : Output) (st : Producer) : Producer :=
  let st :=
    match usage chunk with
    | Some _ => setUsage (mapWorkersAIUsage chunk) st
    | None => st
    end in
  let st :=
    match tool_calls chunk with
    | Some calls => pushPartial calls st
    | None => st
    end in
  let st :=
    if nonEmpty (response chunk)
    then textDelta (joinItem (response chunk)) st else st in
  let reasoning := (firstChoice chunk ≫= delta) ≫= reasoning_content in
  let st :=
    if nonEmpty reasoning then reasoningDelta (joinItem reasoning) st else st in
  let text := (firstChoice chunk ≫= delta) ≫= content in
  if nonEmpty text then textDelta (joinItem text) st else st.

(** The [for await] loop: the state when the loop is left, or the state at
    which [JSON.parse] threw. *)
Fixpoint readEvents (events : list SseEvent) (st : Producer) : Producer + Producer :=
  match events with
  | [] => inl st
  | NoData :: rest => readEvents rest st
  | Done :: _ => inl st
  | Data chunk :: rest => readEvents rest (onChunk chunk st)
  | Malformed _ :: _ => inr st
  end.

(** [if (reasoningId) { enqueue reasoning-end; reasoningId = null }
     if (textId) { enqueue text-end; textId = null }] *)
Definition closeBlocks (st : Producer) : Producer :=
  let st :=
    if truthy (reasoningId st)
    then setReasoningId None (enqueue (ReasoningEnd (joinItem (reasoningId st))) st)
    else st in
  if truthy (textId st)
  then setTextId None (enqueue (TextEnd (joinItem (textId st))) st)
  else st.

(** What follows the loop. *)
Definition closeStream (st : Producer) : Producer :=
  let st :=
    if (0 <? length (partialToolCalls st))%nat
    then foldl (λ st toolCall, enqueue (ToolCallPart toolCall) st) st
           (processPartialToolCalls (partialToolCalls st))
    else st in
  let st := closeBlocks st in
  enqueue (Finish FinishStop (m_usage st)) st.

(** A stream as its reader sees it: the parts enqueued, and whether the
    stream was closed ([controller.close()]) or left in error. *)
Record Stream := {
  parts : list StreamPart;
  closed : bool;
}.

Definition getMappedStream (events : list SseEvent) : Stream :=
  match readEvents events initialProducer with
  | inl st => {| parts := enqueued (closeStream st); closed := true |}
  | inr st => {| parts := enqueued st; closed := false |}
  end.

End Streaming.

(** ** JavaScript numbers, as far as the code compares them *)

Inductive number : Type :=
| NaN
| NegInfinity
| Finite (q : Q)
| Infinity.

(** [a <= b] *)
Definition number_le (a b : number) : bool :=
  match a, b with
  | NaN, _ | _, NaN => false
  | NegInfinity, _ => true
  | _, Infinity => true
  | Finite x, Finite y => Qle_bool x y
  | _, _ => false
  end.

(** [a >= b] *)
Definition number_ge (a b : number) : bool := number_le b a.

(** [a === b] *)
Definition number_eq (a b : number) : bool :=
  match a, b with
  | NegInfinity, NegInfinity | Infinity, Infinity => true
  | Finite x, Finite y => Qeq_bool x y
  | _, _ => false
  end.

(** ** WorkersAIChatLanguageModel *)

Inductive ResponseFormat : Type :=
| FormatText
| FormatJson (schema : option json)
| FormatOther (type : string).

(** The call options the adapter reads. *)
Record Options := {
  prompt : list Turn;
  responseFormat : option ResponseFormat;
  tools : option (list Tool);
  toolChoice : option ToolChoice;
  maxOutputTokens : option number;
  temperature : option number;
  topP : option number;
  frequencyPenalty : option number;
  presencePenalty : option number;
  seed : option number;
}.

(** [{ json_schema, type: "json_schema" }] *)
Record ResponseFormatArg := {
  json_schema : option json;
}.

Record Args := {
  arg_max_tokens : option number;
  arg_model : string;
  arg_random_seed : option number;
  arg_safe_prompt : option bool;
  arg_temperature : option number;
  arg_top_p : option number;
  arg_tools : option (list Tool);
  arg_response_format : option ResponseFormatArg;
}.

(** The model name and the inputs given to [binding.run]; [req_stream] is
    false where the field is left out. *)
Record Request := {
  req_model : string;
  req_max_tokens : option number;
  req_messages : list ChatMessage;
  req_stream : bool;
  req_temperature : option number;
  req_tools : option (list Tool);
  req_top_p : option number;
  req_image : option (list N);
  req_response_format : option ResponseFormatArg;
}.

(** What [await binding.run(...)] does: returns a document, returns a
    [ReadableStream] of events, or throws. *)
Inductive Reply : Type :=
| ReplyOutput (output : Output)
| ReplyStream (events : list SseEvent)
| ReplyError (msg : string).

(** The model instance: [this.modelId], [this.settings.safePrompt] and
    [this.config.binding]. *)
Class Backend := {
  modelId : string;
  safePrompt : option bool;
  binding_run : Request → Reply;
}.

(** An asynchronous method: the requests it issued to the backend, in
    order, and how it ended. *)
Record Run (A : Type) := {
  requests : list Request;
  outcome : Result A;
}.
Arguments requests {A} _.
Arguments outcome {A} _.

Definition ret {A} (a : A) : Run A := {| requests := []; outcome := Ok a |}.

Definition throw {A} (msg : string) : Run A :=
  {| requests := []; outcome := Throw msg |}.

Definition liftR {A} (r : Result A) : Run A := {| requests := []; outcome := r |}.

Definition bindRun {A B} (m : Run A) (k : A → Run B) : Run B :=
  match outcome m with
  | Ok a =>
      {| requests := requests m ++ requests (k a); outcome := outcome (k a) |}
  | Throw msg => {| requests := requests m; outcome := Throw msg |}
  end.

Notation "x ←! m ; k" := (bindRun m (λ x, k))
  (at level 100, m at next level, k at level 200, right associativity).

Section LanguageModel.
Context {JH : JsonHost} {IS : IdSource} {U : Utils} {B : Backend}.

Definition getArgs (options : Options) : Result (Args * list Warning) :=
  let type := default FormatText (responseFormat options) in
  let warnings :=
    (if frequencyPenalty options is Some _
     then [UnsupportedSetting "frequencyPenalty"] else []) ++
    (if presencePenalty options is Some _
     then [UnsupportedSetting "presencePenalty"] else []) in
  let baseArgs tools response_format :=
    {| arg_max_tokens := maxOutputTokens options;
       arg_model := modelId;
       arg_random_seed := seed options;
       arg_safe_prompt := safePrompt;
       arg_temperature := temperature options;
       arg_top_p := topP options;
       arg_tools := tools;
       arg_response_format := response_format |} in
  match type with
  | FormatText =>
      Ok (baseArgs
            (prepareToolsAndToolChoice (tools options) (toolChoice options))
            None,
          warnings)
  | FormatJson schema =>
      Ok (baseArgs None (Some {| json_schema := schema |}), warnings)
  | FormatOther type => Throw ("Unsupported type: " +:+ type)
  end.

(** [images.length !== 0 && images.length !== 1] *)
Definition tooManyImages (images : list Image) : bool :=
  negb (length images =? 0)%nat && negb (length images =? 1)%nat.

Definition multipleImages : string :=
  "Multiple images are not yet supported as input".

(** [await this.config.binding.run(...)] *)
Definition awaitRun (request : Request) : Run Reply :=
  {| requests := [request];
     outcome :=
       match binding_run request with
       | ReplyError msg => Throw msg
       | reply => Ok reply
       end |}.

Definition buildRequest (args : Args) (messages : list ChatMessage)
    (imagePart : option Image) (stream : bool) : Request :=
  {| req_model := arg_model args;
     req_max_tokens := arg_max_tokens args;
     req_messages := messages;
     req_stream := stream;
     req_temperature := arg_temperature args;
     req_tools := arg_tools args;
     req_top_p := arg_top_p args;
     req_image := (λ part, Byte.to_N <$> img_image part) <$> imagePart;
     req_response_format := arg_response_format args |}.

(** The [content] array doGenerate builds from the backend output. *)
Definition decompose (output : Output) : list Content :=
  let reasoningContent := (firstChoice output ≫= message) ≫= reasoning_content in
  (if truthy reasoningContent
   then [CReasoning (joinItem reasoningContent)] else []) ++
  [CText (default "" (processText output))] ++
  (CToolCall <$> processToolCalls output).

Definition doGenerate (options : Options) : Run GenerateResult :=
  aw ←! liftR (getArgs options);
  let args := aw.1 in
  let warnings := aw.2 in
  conv ←! liftR (convertToWorkersAIChatMessages (prompt options));
  if tooManyImages (images conv) then throw multipleImages else
  let imagePart := head (images conv) in
  reply ←! awaitRun (buildRequest args (messages conv) imagePart false);
  match reply with
  | ReplyOutput output =>
      ret {| res_finishReason := mapWorkersAIFinishReason (OfOutput output);
             res_content := decompose output;
             res_reasoningText :=
               (firstChoice output ≫= message) ≫= reasoning_content;
             res_usage := mapWorkersAIUsage output;
             res_warnings := warnings |}
  | ReplyStream _ => throw "This shouldn't happen"
  | ReplyError msg => throw msg
  end.

(** One iteration of [for (const contentPart of response.content)] in the
    simulated stream. *)
Definition replayPart (st : Producer) (contentPart : Content) : Producer :=
  match contentPart with
  | CText text => textDelta text st
  | CToolCall call => enqueue (ToolCallPart call) st
  | CReasoning text =>
      let st :=
        if truthy (reasoningId st) then st
        else let '(id, st) := drawId st in
             enqueue (ReasoningStart id) (setReasoningId (Some id) st) in
      let '(id, st) := drawId st in
      enqueue (ReasoningDelta id text) st
  end.

(** The [start] callback of the stream that replays doGenerate's result. *)
Definition simulatedStream (warnings : list Warning) (response : GenerateResult) : Stream :=
  let st := enqueue (StreamStart warnings) initialProducer in
  let st := foldl replayPart st (res_content response) in
  let st := closeBlocks st in
  let st :=
    enqueue (Finish (mapWorkersAIFinishReason (OfResult response))
               (res_usage response)) st in
  {| parts := enqueued st; closed := true |}.

(** [args.tools?.length] *)
Definition hasTools (tools : option (list Tool)) : bool :=
  match tools with
  | Some (_ :: _) => true
  | _ => false
  end.

Definition doStream (options : Options) : Run Stream :=
  aw ←! liftR (getArgs options);
  let args := aw.1 in
  let warnings := aw.2 in
  conv ←! liftR (convertToWorkersAIChatMessages (prompt options));
  if hasTools (arg_tools args) && lastMessageWasUser (messages conv) then
    response ←! doGenerate options;
    ret (simulatedStream warnings response)
  else
    if tooManyImages (images conv) then throw multipleImages else
    let imagePart := head (images conv) in
    reply ←! awaitRun (buildRequest args (messages conv) imagePart true);
    match reply with
    | ReplyStream events =>
        let mapped := getMappedStream events in
        ret {| parts := StreamStart warnings :: parts mapped;
               closed := closed mapped |}
    | _ => throw "This shouldn't happen"
    end.

End LanguageModel.

(** ** ProductRecommendationWorkflow *)

Record Review := {
  review_rating : number;
  review_comment : string;
}.

Record Product := {
  product_id : number;
  title : string;
  description : string;
  price : number;
  rating : number;
  brand : option string;
  category : option string;
  product_images : option (list string);
  thumbnail : option string;
  reviews : option (list Review);
}.

Record Params := {
  query : string;
  minPrice : option number;
  maxPrice : option number;
}.

Record RecommendationOutput := {
  topProducts : list Product;
  followUpQuestion : string;
}.

(** What the workflow reaches outside itself:
    - [fetchProducts query] is [data.products] of the search response, or
      the error of the request;
    - [rankWithAI query filteredProducts] is [result.response] of the
      [AI.run] call, whose prompt is built from these two values;
    - [parseIds text] is [JSON.parse(text)] read as a [number[]]. *)
Class WorkflowEnv := {
  fetchProducts : string → Result (list Product);
  rankWithAI : string → list Product → Result (option string);
  parseIds : string → Result (list number);
}.

Module ProductRecommendationWorkflow.
Section Workflow.
Context {WE : WorkflowEnv}.

(** The callback of [fetchedProducts.filter]. *)
Definition keepProduct (minPrice maxPrice : option number) (p : Product) : bool :=
  let meetsMin :=
    match minPrice with
    | Some minPrice => number_ge (price p) minPrice
    | None => true
    end in
  let meetsMax :=
    match maxPrice with
    | Some maxPrice => number_le (price p) maxPrice
    | None => true
    end in
  number_ge (rating p) (Finite 2) && meetsMin && meetsMax.

(** [filteredProducts.find((p) => p.id === id)] *)
Definition findProduct (filteredProducts : list Product) (id : number) : option Product :=
  List.find (λ p, number_eq (product_id p) id) filteredProducts.

(** [result.response || "[]"] *)
Definition responseOrEmpty (response : option string) : string :=
  if truthy response then joinItem response else "[]".

Definition run (payload : Params) : Result RecommendationOutput :=
  let query := query payload in
  fetchedProducts ←? fetchProducts query;
  let filteredProducts :=
    List.filter (keepProduct (minPrice payload) (maxPrice payload))
      fetchedProducts in
  response ←? rankWithAI query filteredProducts;
  rankedIds ←? parseIds (responseOrEmpty response);
  let top3 := take 3 (omap (findProduct filteredProducts) rankedIds) in
  Ok {| topProducts := top3;
        followUpQuestion :=
          "Do you want me to highlight the pros and cons of these top 3 products?" |}.

End Workflow.
End ProductRecommendationWorkflow.

(** ** AutoRAGChatLanguageModel *)

(** An entry of [output.data]. *)
Record RagFile := {
  file_id : string;
  filename : string;
  score : number;
}.

(** The answer of a search: the files found, the response, and the
    document as [mapWorkersAIUsage] and [processToolCalls] read it. *)
Record RagOutput := {
  rag_data : list RagFile;
  rag_response : string;
  rag_document : Output;
}.

(** The content parts of a result of the AutoRAG model. *)
Inductive RagContent : Type :=
| RagSource (id url : string) (score : number)
| RagText (text : string)
| RagToolCall (call : ToolCall).

Record RagResult := {
  rag_finishReason : FinishReason;
  rag_content : list RagContent;
  rag_usage : Usage;
  rag_warnings : list Warning;
}.

(** [this.config.binding.aiSearch]: without and with [stream: true]. *)
Class AutoRag := {
  aiSearch : string → Result RagOutput;
  aiSearchStream : string → Result (list SseEvent);
}.

(** An asynchronous method of the AutoRAG model: the queries it searched
    for, in order, and how it ended. *)
Record Search (A : Type) := {
  queries : list string;
  found : Result A;
}.
Arguments queries {A} _.
Arguments found {A} _.

(** [`${role}`] *)
Definition roleName (role : Role) : string :=
  match role with
  | RSystem => "system"
  | RUser => "user"
  | RAssistant => "assistant"
  | RTool => "tool"
  end.

Module AutoRAG.
Section AutoRAGModel.
Context {JH : JsonHost} {IS : IdSource} {U : Utils} {R : AutoRag}.

(** The warnings, after the prompt was converted for [baseArgs] and the
    response format examined; [prepareToolsAndToolChoice] returns, as in
    [Utils], and the arguments it contributes to are not sent. *)
Definition getArgs (options : Options) : Result (list Warning) :=
  let warnings :=
    (if frequencyPenalty options is Some _
     then [UnsupportedSetting "frequencyPenalty"] else []) ++
    (if presencePenalty options is Some _
     then [UnsupportedSetting "presencePenalty"] else []) in
  _ ←? convertToWorkersAIChatMessages (prompt options);
  match default FormatText (responseFormat options) with
  | FormatText => Ok warnings
  | FormatJson _ => Ok warnings
  | FormatOther type => Throw ("Unsupported type: " +:+ type)
  end.

(** [messages.map(({ content, role }) => `${role}: ${content}`).join("\n\n")] *)
Definition searchQuery (messages : list ChatMessage) : string :=
  join (LF +:+ LF)
    ((λ m, Some (roleName (msg_role m) +:+ ": " +:+ msg_content m)) <$> messages).

Definition doGenerate (options : Options) : Search RagResult :=
  match getArgs options with
  | Throw msg => {| queries := []; found := Throw msg |}
  | Ok warnings =>
      match convertToWorkersAIChatMessages (prompt options) with
      | Throw msg => {| queries := []; found := Throw msg |}
      | Ok conv =>
          let query := searchQuery (messages conv) in
          {| queries := [query];
             found :=
               output ←? aiSearch query;
               Ok {| rag_finishReason := FinishStop;
                     rag_content :=
                       ((λ file, RagSource (file_id file) (filename file) (score file))
                          <$> rag_data output) ++
                       [RagText (rag_response output)] ++
                       (RagToolCall <$> processToolCalls (rag_document output));
                     rag_usage := mapWorkersAIUsage (rag_document output);
                     rag_warnings := warnings |} |}
      end
  end.

Definition doStream (options : Options) : Search Stream :=
  match getArgs options with
  | Throw msg => {| queries := []; found := Throw msg |}
  | Ok warnings =>
      match convertToWorkersAIChatMessages (prompt options) with
      | Throw msg => {| queries := []; found := Throw msg |}
      | Ok conv =>
          let query := searchQuery (messages conv) in
          {| queries := [query];
             found :=
               events ←? aiSearchStream query;
               let mapped := getMappedStream events in
               Ok {| parts := StreamStart warnings :: parts mapped;
                     closed := closed mapped |} |}
      end
  end.

End AutoRAGModel.
End AutoRAG.

(** ** tools.ts *)

(** The values of the properties of a parameter object. *)
Inductive value : Type :=
| VUndefined
| VString (s : string)
| VNumber (n : number).

(** An object literal, as the list of its properties. *)
Definition object : Type := list (string * value).

(** [o.key]: [undefined] when the object has no such property. *)
Definition getProp (o : object) (key : string) : value :=
  match List.find (λ kv, String.eqb kv.1 key) o with
  | Some kv => kv.2
  | None => VUndefined
  end.

(** What [instance.status()] resolves to. *)
Record InstanceStatus := {
  status : string;
  output : option RecommendationOutput;
}.

(** The value handed to [agent.schedule]: a date (in milliseconds), a
    delay in seconds or a cron expression. *)
Inductive ScheduleInput : Type :=
| AtDate (time : Z)
| AfterDelay (seconds : number)
| OnCron (cron : string).

(** What the tools reach outside themselves:
    - [toNumber] is [Number(x)] ([None] is [undefined]);
    - [create params] is [env.PRODUCT_RECOMMENDATION.create({ id, params })]:
      the statuses the instance reports, call after call, or the error of
      the creation;
    - [schedule input callback description] is [agent.schedule], [None]
      when it returns and the printed error when it throws;
    - [printInput] is how a template literal prints a schedule input. *)
Class ToolHost := {
  toNumber : option string → number;
  create : object → Result (nat → InstanceStatus);
  schedule : option ScheduleInput → string → string → option string;
  printInput : option ScheduleInput → string;
}.

(** The input of the product recommendation tool. *)
Record RecommendationInput := {
  in_query : string;
  in_minPrice : option string;
  in_maxPrice : option string;
}.

(** [when] of the schedule schema. *)
Record When := {
  when_type : string;
  when_date : option Z;
  when_delayInSeconds : option number;
  when_cron : option string;
}.

(** What a run of a tool did: the objects it created workflow instances
    with, the calls it made to [agent.schedule], and the number of times
    it waited between two polls. *)
Record ToolTrace := {
  created : list object;
  scheduled : list (option ScheduleInput * string * string);
  waits : nat;
}.

Section Tools.
Context {TH : ToolHost}.

(** [{ query, minPriceNum, maxPriceNum }] *)
Definition recommendationParams (input : RecommendationInput) : object :=
  [ ("query", VString (in_query input));
    ("minPriceNum", VNumber (toNumber (in_minPrice input)));
    ("maxPriceNum", VNumber (toNumber (in_maxPrice input))) ].

(** [status.status !== "complete" && status.status !== "errored"] *)
Definition stillRunning (s : InstanceStatus) : bool :=
  negb (String.eqb (status s) "complete") && negb (String.eqb (status s) "errored").

(** The polling loop, entered with the status number [n]: the number of
    the status on which it is left, [None] when [fuel] polls do not
    suffice. *)
Fixpoint poll (fuel : nat) (statuses : nat → InstanceStatus) (n : nat) : option nat :=
  match fuel with
  | O => None
  | S fuel =>
      if stillRunning (statuses n) then poll fuel statuses (S n) else Some n
  end.

(** [execute] of the product recommendation tool. *)
Definition executeRecommendation (fuel : nat) (input : RecommendationInput)
    : option (ToolTrace * Result (option RecommendationOutput)) :=
  let params := recommendationParams input in
  match create params with
  | Throw msg =>
      Some ({| created := [params]; scheduled := []; waits := 0 |}, Throw msg)
  | Ok statuses =>
      n ← poll fuel statuses 0;
      Some ({| created := [params]; scheduled := []; waits := n |},
            if String.eqb (status (statuses n)) "errored"
            then Throw "Workflow failed: [object Object]"
            else Ok (output (statuses n)))
  end.

(** The parameters as the workflow reads them from the object the
    instance was created with: [event.payload.query],
    [event.payload.minPrice] and [event.payload.maxPrice]; [None] for an
    object that is not of the type [Params] the workflow declares. *)
Definition readBound (v : value) : option (option number) :=
  match v with
  | VUndefined => Some None
  | VNumber n => Some (Some n)
  | VString _ => None
  end.

Definition payloadOf (params : object) : option Params :=
  match getProp params "query" with
  | VString q =>
      lo ← readBound (getProp params "minPrice");
      hi ← readBound (getProp params "maxPrice");
      Some {| query := q; minPrice := lo; maxPrice := hi |}
  | _ => None
  end.

(** [input] of the schedule tool. *)
Definition scheduleInput (when : When) : Result (option ScheduleInput) :=
  if String.eqb (when_type when) "scheduled" then Ok (AtDate <$> when_date when)
  else if String.eqb (when_type when) "delayed"
  then Ok (AfterDelay <$> when_delayInSeconds when)
  else if String.eqb (when_type when) "cron" then Ok (OnCron <$> when_cron when)
  else Throw "Not a valid schedule input".

(** [execute] of the schedule tool. *)
Definition executeSchedule (when : When) (description : string)
    : ToolTrace * Result string :=
  match scheduleInput when with
  | Throw msg => ({| created := []; scheduled := []; waits := 0 |}, Throw msg)
  | Ok input =>
      ({| created := []; scheduled := [(input, "executeTask", description)];
          waits := 0 |},
       match schedule input "executeTask" description with
       | Some error => Ok ("Error scheduling task: " +:+ error)
       | None =>
           Ok ("Task scheduled for type " +:+
               String (ascii_of_nat 34) (when_type when) +:+
               String (ascii_of_nat 34) " : " +:+ printInput input)
       end)
  end.

End Tools.

(** ** A reference environment

    Concrete stand-ins for what the adapter imports, on which the model can
    be evaluated.  The theorems below hold for every environment; the
    reference one provides their instances and the counterexamples. *)

Module Reference.

Definition quoteChar : ascii := ascii_of_nat 34.
Definition backslash : ascii := ascii_of_nat 92.

Definition hexDigit (n : nat) : ascii :=
  ascii_of_nat (if (n <? 10)%nat then 48 + n else 87 + n).

Definition escapeChar (c : ascii) : string :=
  let n := nat_of_ascii c in
  if (n =? 34)%nat then String backslash (String quoteChar "")
  else if (n =? 92)%nat then String backslash (String backslash "")
  else if (n =? 8)%nat then "\b"
  else if (n =? 12)%nat then "\f"
  else if (n =? 10)%nat then "\n"
  else if (n =? 13)%nat then "\r"
  else if (n =? 9)%nat then "\t"
  else if (n <? 32)%nat
       then "\u00" +:+ String (hexDigit (n / 16)) (String (hexDigit (n mod 16)) "")
  else String c "".

Fixpoint escape (s : string) : string :=
  match s with
  | EmptyString => ""
  | String c rest => escapeChar c +:+ escape rest
  end.

Definition quoted (s : string) : string :=
  String quoteChar (escape s) +:+ String quoteChar "".

Fixpoint commaSep (l : list string) : string :=
  match l with
  | [] => ""
  | x :: rest =>
      match rest with
      | [] => x
      | _ :: _ => x +:+ "," +:+ commaSep rest
      end
  end.

(** [JSON.stringify(value)] without indentation. *)
Fixpoint stringify (j : json) : string :=
  match j with
  | JNull => "null"
  | JBool true => "true"
  | JBool false => "false"
  | JNum n => pretty n
  | JStr s => quoted s
  | JArr items => "[" +:+ commaSep (List.map stringify items) +:+ "]"
  | JObj fields =>
      "{" +:+
      commaSep (List.map (λ kv, quoted kv.1 +:+ ":" +:+ stringify kv.2) fields)
      +:+ "}"
  end.

Inductive token : Type :=
| TLBrace | TRBrace | TLBracket | TRBracket | TColon | TComma
| TString (s : string) | TNumber (n : Z) | TTrue | TFalse | TNull.

Definition isSpace (c : ascii) : bool :=
  let n := nat_of_ascii c in
  (n =? 32)%nat || (n =? 9)%nat || (n =? 10)%nat || (n =? 13)%nat.

Definition isDigit (c : ascii) : bool :=
  let n := nat_of_ascii c in (48 <=? n)%nat && (n <=? 57)%nat.

Definition hexValue (c : ascii) : option nat :=
  let n := nat_of_ascii c in
  if (48 <=? n)%nat && (n <=? 57)%nat then Some (n - 48)
  else if (97 <=? n)%nat && (n <=? 102)%nat then Some (n - 87)
  else if (65 <=? n)%nat && (n <=? 70)%nat then Some (n - 55)
  else None.

(** The character a two-character escape stands for. *)
Definition unescape (c : ascii) : option ascii :=
  let n := nat_of_ascii c in
  if (n =? 34)%nat then Some quoteChar
  else if (n =? 92)%nat then Some backslash
  else if (n =? 47)%nat then Some (ascii_of_nat 47)
  else if (n =? 98)%nat then Some (ascii_of_nat 8)
  else if (n =? 102)%nat then Some (ascii_of_nat 12)
  else if (n =? 110)%nat then Some (ascii_of_nat 10)
  else if (n =? 114)%nat then Some (ascii_of_nat 13)
  else if (n =? 116)%nat then Some (ascii_of_nat 9)
  else None.

(** The body of a string literal, after its opening quote: the decoded
    string and what follows the closing quote.  Of the [\u] escapes only
    those of one byte are read. *)
Fixpoint lexString (s : string) : option (string * string) :=
  match s with
  | EmptyString => None
  | String c rest =>
      if (nat_of_ascii c =? 34)%nat then Some ("", rest)
      else if (nat_of_ascii c =? 92)%nat then
        match rest with
        | String "u" (String "0" (String "0" (String a (String b rest')))) =>
            hi ← hexValue a; lo ← hexValue b;
            '(str, after) ← lexString rest';
            Some (String (ascii_of_nat (16 * hi + lo)) str, after)
        | String e rest' =>
            ch ← unescape e;
            '(str, after) ← lexString rest';
            Some (String ch str, after)
        | EmptyString => None
        end
      else if (nat_of_ascii c <? 32)%nat then None
      else '(str, after) ← lexString rest; Some (String c str, after)
  end.

Fixpoint lexDigits (s : string) (acc : Z) : Z * string :=
  match s with
  | String c rest =>
      if isDigit c
      then lexDigits rest (10 * acc + Z.of_nat (nat_of_ascii c - 48))
      else (acc, s)
  | EmptyString => (acc, s)
  end.

(** An integer literal; fractions and exponents are outside the model. *)
Definition lexNumber (s : string) : option (Z * string) :=
  match s with
  | String "0" (String d _) =>
      if isDigit d then None else Some (lexDigits s 0)
  | _ =>
      let '(n, rest) := lexDigits s 0 in
      match rest with
      | String "." _ | String "e" _ | String "E" _ => None
      | _ => Some (n, rest)
      end
  end.

Fixpoint lex (fuel : nat) (s : string) : option (list token) :=
  match fuel with
  | O => None
  | S fuel =>
      match s with
      | EmptyString => Some []
      | String "{" rest => (TLBrace ::.) <$> lex fuel rest
      | String "}" rest => (TRBrace ::.) <$> lex fuel rest
      | String "[" rest => (TLBracket ::.) <$> lex fuel rest
      | String "]" rest => (TRBracket ::.) <$> lex fuel rest
      | String ":" rest => (TColon ::.) <$> lex fuel rest
      | String "," rest => (TComma ::.) <$> lex fuel rest
      | String "t" (String "r" (String "u" (String "e" rest))) =>
          (TTrue ::.) <$> lex fuel rest
      | String "f" (String "a" (String "l" (String "s" (String "e" rest)))) =>
          (TFalse ::.) <$> lex fuel rest
      | String "n" (String "u" (String "l" (String "l" rest))) =>
          (TNull ::.) <$> lex fuel rest
      | String "-" rest =>
          match rest with
          | String d _ =>
              if isDigit d
              then '(n, after) ← lexNumber rest;
                   (TNumber (- n) ::.) <$> lex fuel after
              else None
          | EmptyString => None
          end
      | String c rest =>
          if isSpace c then lex fuel rest
          else if (nat_of_ascii c =? 34)%nat
          then '(str, after) ← lexString rest;
               (TString str ::.) <$> lex fuel after
          else if isDigit c
          then '(n, after) ← lexNumber s;
               (TNumber n ::.) <$> lex fuel after
          else None
      end
  end.

Fixpoint parseValue (fuel : nat) (ts : list token) : option (json * list token) :=
  match fuel with
  | O => None
  | S fuel =>
      match ts with
      | TNull :: rest => Some (JNull, rest)
      | TTrue :: rest => Some (JBool true, rest)
      | TFalse :: rest => Some (JBool false, rest)
      | TNumber n :: rest => Some (JNum n, rest)
      | TString s :: rest => Some (JStr s, rest)
      | TLBracket :: TRBracket :: rest => Some (JArr [], rest)
      | TLBracket :: rest =>
          '(v, rest) ← parseValue fuel rest;
          '(vs, rest) ← parseItems fuel rest;
          Some (JArr (v :: vs), rest)
      | TLBrace :: TRBrace :: rest => Some (JObj [], rest)
      | TLBrace :: TString k :: TColon :: rest =>
          '(v, rest) ← parseValue fuel rest;
          '(fs, rest) ← parseFields fuel rest;
          Some (JObj ((k, v) :: fs), rest)
      | _ => None
      end
  end
with parseItems (fuel : nat) (ts : list token) : option (list json * list token) :=
  match fuel with
  | O => None
  | S fuel =>
      match ts with
      | TRBracket :: rest => Some ([], rest)
      | TComma :: rest =>
          '(v, rest) ← parseValue fuel rest;
          '(vs, rest) ← parseItems fuel rest;
          Some (v :: vs, rest)
      | _ => None
      end
  end
with parseFields (fuel : nat) (ts : list token) : option (list (string * json) * list token) :=
  match fuel with
  | O => None
  | S fuel =>
      match ts with
      | TRBrace :: rest => Some ([], rest)
      | TComma :: TString k :: TColon :: rest =>
          '(v, rest) ← parseValue fuel rest;
          '(fs, rest) ← parseFields fuel rest;
          Some ((k, v) :: fs, rest)
      | _ => None
      end
  end.

(** [JSON.parse(text)], [None] where it throws. *)
Definition parse (text : string) : option json :=
  ts ← lex (S (String.length text)) text;
  match parseValue (S (length ts)) ts with
  | Some (v, []) => Some v
  | _ => None
  end.

Definition json : JsonHost :=
  {| JSON_stringify := stringify; JSON_parse := parse |}.

(** The real [generateId] draws random strings; the reference one numbers
    them. *)
Definition ids : IdSource :=
  {| generateId := λ n, "id-" +:+ pretty n |}.

(** Modelled from the spec: [processText] of utils.ts, which is not part of
    the sources.  The text of a response is its [response] field or
    [choices[0].message.content]. *)
Definition specProcessText (output : Output) : option string :=
  match response output with
  | Some text => Some text
  | None => (firstChoice output ≫= message) ≫= content
  end.

Section SpecUtils.
Context {JH : JsonHost}.

(** Modelled from the spec: how utils.ts turns one backend tool call into a
    tool-call part, the arguments parsed back out of their JSON string; a
    call is complete once its name is non-empty and its arguments parse. *)
Definition specToolCall (raw : RawToolCall) : option ToolCall :=
  if truthy (Some (raw_name raw))
  then parsed ← JSON_parse (raw_arguments raw);
       Some {| toolCallId := raw_id raw; toolName := raw_name raw;
               input := parsed |}
  else None.

(** Modelled from the spec: [processToolCalls] of utils.ts, the tool-call
    parts derived from the response's tool-call list, in its order. *)
Definition specProcessToolCalls (output : Output) : list ToolCall :=
  omap specToolCall (default [] (tool_calls output)).

(** Modelled from the spec: merge-by-index of partial tool calls, every
    fragment sharing an index concatenated into one entry. *)
Definition mergeFragments (fragments : list RawToolCall) (index : nat) : RawToolCall :=
  let same := filter (λ f, raw_index f = index) fragments in
  {| raw_index := index;
     raw_id := foldr String.append "" (raw_id <$> same);
     raw_name := foldr String.append "" (raw_name <$> same);
     raw_arguments := foldr String.append "" (raw_arguments <$> same) |}.

(** Modelled from the spec: [processPartialToolCalls] of utils.ts, one
    tool-call per index in ascending index order, an entry whose arguments
    do not parse being dropped. *)
Definition specProcessPartialToolCalls (fragments : list RawToolCall) : list ToolCall :=
  omap (λ index, specToolCall (mergeFragments fragments index))
    (merge_sort (≤) (remove_dups (raw_index <$> fragments))).

End SpecUtils.

(** Modelled from the spec: [lastMessageWasUser] of utils.ts, whether the
    most recent message is a user message. *)
Definition specLastMessageWasUser (messages : list ChatMessage) : bool :=
  match last messages with
  | Some m => if msg_role m is RUser then true else false
  | None => false
  end.

(** Modelled from the spec: the finish-reason table of
    map-workersai-finish-reason.ts; a result of doGenerate carries its
    normalised reason already. *)
Definition specFinishReason (source : FinishSource) : FinishReason :=
  match source with
  | OfOutput output =>
      match firstChoice output ≫= finish_reason with
      | None => FinishStop
      | Some signal =>
          if String.eqb signal "stop" then FinishStop
          else if String.eqb signal "length" then FinishLength
          else if String.eqb signal "tool_calls" then FinishToolCalls
          else FinishUnknown
      end
  | OfResult result => res_finishReason result
  end.

(** Modelled from the spec: the helpers the adapter imports from utils.ts
    and map-workersai-finish-reason.ts; the tool definitions are passed to
    the backend as they are. *)
Definition utils : Utils :=
  {| processText := specProcessText;
     processToolCalls := specProcessToolCalls (JH:=json);
     processPartialToolCalls := specProcessPartialToolCalls (JH:=json);
     lastMessageWasUser := specLastMessageWasUser;
     prepareToolsAndToolChoice := λ tools _, tools;
     mapWorkersAIFinishReason := specFinishReason |}.

(** A backend that answers every request with [reply]. *)
Definition backend (reply : Reply) : Backend :=
  {| modelId := "@cf/meta/llama-3.3-70b-instruct-fp8-fast";
     safePrompt := None;
     binding_run := λ _, reply |}.

(** The ids of a ranking: the elements of a JSON array, an element that is
    not a number being equal to no product id. *)
Definition parseRanking (text : string) : Result (list number) :=
  match parse text with
  | Some (JArr items) =>
      Ok ((λ item, if item is JNum n then Finite (inject_Z n) else NaN) <$> items)
  | Some _ => Throw "rankedIds.map is not a function"
  | None => Throw "Unexpected token in JSON"
  end.

(** A catalogue that does not depend on the query, and a model that always
    answers with the same ranking. *)
Definition workflowEnv (catalogue : list Product) (ranking : option string) : WorkflowEnv :=
  {| fetchProducts := λ _, Ok catalogue;
     rankWithAI := λ _ _, Ok ranking;
     parseIds := parseRanking |}.

(** A search binding that answers every query with [output], and with
    [events] when it streams. *)
Definition autoRag (output : RagOutput) (events : list SseEvent) : AutoRag :=
  {| aiSearch := λ _, Ok output;
     aiSearchStream := λ _, Ok events |}.

(** A host of the tools given by what it answers: the numbers it reads,
    the statuses of every instance it creates, the error of
    [agent.schedule], if any, and the printed schedule inputs. *)
Definition toolHost (numbers : option string → number)
    (statuses : nat → InstanceStatus) (failure : option string)
    (print : option ScheduleInput → string) : ToolHost :=
  {| toNumber := numbers;
     create := λ _, Ok statuses;
     schedule := λ _ _ _, failure;
     printInput := print |}.

End Reference.

(** ** Sample inputs *)

Module Sample.

Definition getCall : Part := PToolCall "call-1" "get" (JObj [("a", JNum 1)]).
Definition putCall : Part := PToolCall "call-2" "put" JNull.

Definition getResult : ToolResult :=
  {| tr_toolCallId := "call-1"; tr_toolName := "get"; tr_output := JNum 1 |}.
Definition putResult : ToolResult :=
  {| tr_toolCallId := "call-2"; tr_toolName := "put"; tr_output := JNull |}.

(** An assistant turn that explains, then calls two tools. *)
Definition twoCalls : list Part := [PText "Let me look."; getCall; putCall].

(** A user turn holding a part of a variant the converter does not know. *)
Definition strangeUser : Turn := TUser [PText "hi"; POther "image"].

(** An assistant turn that still talks after its tool call. *)
Definition callThenText : list Part := [getCall; PText "Done."].

(** An assistant turn holding a file. *)
Definition assistantFile : Turn :=
  TAssistant [PText "see"; PFile (DataBytes []) "image/png" None].

Definition greeting : list Turn := [TSystem "Be brief."].

Definition greetingConverted : Converted :=
  {| images := []; messages := [systemMessage "Be brief."] |}.

(** Chunks of a backend event stream. *)
Definition emptyChunk : Output :=
  {| response := None; usage := None; tool_calls := None; choices := None |}.

Definition textChunk (text : string) : Output :=
  {| response := Some text; usage := None; tool_calls := None; choices := None |}.

Definition usageChunk (prompt completion : Z) : Output :=
  {| response := None;
     usage := Some {| prompt_tokens := prompt; completion_tokens := completion |};
     tool_calls := None; choices := None |}.

Definition deltaChunk (reasoning text : option string) : Output :=
  {| response := None; usage := None; tool_calls := None;
     choices := Some [ {| message := None;
                          delta := Some {| content := text;
                                           reasoning_content := reasoning |};
                          finish_reason := None |} ] |}.

Definition fragmentChunk (name arguments : string) : Output :=
  {| response := None; usage := None;
     tool_calls := Some [ {| raw_index := 0; raw_id := ""; raw_name := name;
                             raw_arguments := arguments |} ];
     choices := None |}.

(** A stream that reasons, answers, calls a tool in two fragments and
    reports its usage twice. *)
Definition busyStream : list Output :=
  [ usageChunk 3 0;
    deltaChunk (Some "hm") None;
    textChunk "Hello";
    fragmentChunk "get" "[1,";
    fragmentChunk "" "2]";
    usageChunk 3 4 ].

(** A result of doGenerate that reasons before it answers. *)
Definition reasonedResult : GenerateResult :=
  {| res_finishReason := FinishStop;
     res_content := [CReasoning "hm"; CText "Hello"];
     res_reasoningText := Some "hm";
     res_usage := {| outputTokens := 4; inputTokens := 3; totalTokens := 7 |};
     res_warnings := [] |}.

Definition picture : Part := PFile (DataBytes [x89; x50]) "image/png" None.

Definition optionsFor (prompt : list Turn) (tools : option (list Tool)) : Options :=
  {| prompt := prompt; responseFormat := None; tools := tools;
     toolChoice := None; maxOutputTokens := None; temperature := None;
     topP := None; frequencyPenalty := None; presencePenalty := None;
     seed := None |}.

Definition pictureImage : Image :=
  {| img_image := [x89; x50]; img_mimeType := Some "image/png";
     img_providerOptions := None |}.

Definition twoPictures : Options :=
  optionsFor [TUser [PText "compare"; picture; picture]] None.

Definition onePicture : Options :=
  optionsFor [TUser [PText "describe"; picture]] None.

Definition twoPicturesConverted : Converted :=
  {| images := [pictureImage; pictureImage];
     messages := [userMessage [PText "compare"; picture; picture]] |}.

Definition onePictureConverted : Converted :=
  {| images := [pictureImage];
     messages := [userMessage [PText "describe"; picture]] |}.

Definition search : Tool :=
  {| tool_name := "search"; tool_description := None; tool_inputSchema := JObj [] |}.

Definition question : Options := optionsFor [TUser [PText "hi"]] (Some [search]).


(** A backend output that reasons, answers and calls a tool. *)
Definition fullOutput : Output :=
  {| response := Some "Hello";
     usage := Some {| prompt_tokens := 3; completion_tokens := 4 |};
     tool_calls := Some [ {| raw_index := 0; raw_id := "call-1";
                             raw_name := "get"; raw_arguments := "[1,2]" |} ];
     choices := Some [ {| message := Some {| content := None;
                                             reasoning_content := Some "hm" |};
                          delta := None; finish_reason := Some "tool_calls" |} ] |}.



Definition product (id : Z) (name : string) (cost stars : Q) : Product :=
  {| product_id := Finite (inject_Z id); title := name; description := "";
     price := Finite cost; rating := Finite stars; brand := None;
     category := None; product_images := None; thumbnail := None;
     reviews := None |}.

Definition shirts : list Product :=
  [ product 1 "Blue shirt" 20 (9 # 2);
    product 2 "Silk shirt" 1500 (24 # 5);
    product 3 "Torn shirt" 30 (3 # 2);
    product 4 "Red shirt" 25 (39 # 10);
    product 5 "Plaid shirt" 40 4 ].

Definition shirtQuery : Params :=
  {| query := "shirt"; minPrice := None; maxPrice := Some (Finite 1000) |}.

Definition shirtRanking : option string := Some "[4, 1, 9, 5, 2, 3]".

Definition shirtAdvice : RecommendationOutput :=
  {| topProducts :=
       [ product 4 "Red shirt" 25 (39 # 10);
         product 1 "Blue shirt" 20 (9 # 2);
         product 5 "Plaid shirt" 40 4 ];
     followUpQuestion :=
       "Do you want me to highlight the pros and cons of these top 3 products?" |}.

(** A conversation with a picture, two tool calls and their results. *)
Definition talk : list Turn :=
  [ TSystem "Be brief.";
    TUser [PText "compare"; picture;
           PFile (DataUrl "https://example.com/cat.png") "image/png" None];
    TAssistant twoCalls;
    TTool [getResult; putResult];
    TTool [] ].

Definition talkConverted : Converted :=
  {| images := [pictureImage];
     messages :=
       [ systemMessage "Be brief.";
         userMessage [PText "compare"; picture; PText ""];
         {| msg_role := RAssistant;
            msg_content := Reference.stringify
                             (JObj [("name", JStr "put"); ("parameters", JNull)]);
            msg_name := None; msg_tool_call_id := None;
            msg_tool_calls :=
              Some [ {| tc_function := {| fn_arguments := "{" +:+ Reference.quoted "a" +:+ ":1}";
                                          fn_name := "get" |};
                        tc_id := "functions.get:0" |};
                     {| tc_function := {| fn_arguments := "null"; fn_name := "put" |};
                        tc_id := "functions.put:1" |} ] |};
         {| msg_role := RTool; msg_content := "1"; msg_name := Some "get";
            msg_tool_call_id := Some "functions.get:0"; msg_tool_calls := None |};
         {| msg_role := RTool; msg_content := "null"; msg_name := Some "put";
            msg_tool_call_id := Some "functions.put:1"; msg_tool_calls := None |} ] |}.

(** A result of doGenerate that answers and calls a tool without
    reasoning. *)
Definition plainResult : GenerateResult :=
  {| res_finishReason := FinishToolCalls;
     res_content :=
       [CText "Hello";
        CToolCall {| toolCallId := "call-1"; toolName := "get";
                     input := JArr [JNum 1; JNum 2] |}];
     res_reasoningText := None;
     res_usage := {| outputTokens := 4; inputTokens := 3; totalTokens := 7 |};
     res_warnings := [] |}.

(** A call with tools that asks for JSON. *)
Definition jsonQuestion : Options :=
  {| prompt := [TUser [PText "hi"]];
     responseFormat := Some (FormatJson (Some (JObj [])));
     tools := Some [search]; toolChoice := None; maxOutputTokens := None;
     temperature := None; topP := None; frequencyPenalty := None;
     presencePenalty := None; seed := None |}.

Definition jsonRequest (stream : bool) : Request :=
  {| req_model := "@cf/meta/llama-3.3-70b-instruct-fp8-fast";
     req_max_tokens := None;
     req_messages := [userMessage [PText "hi"]];
     req_stream := stream;
     req_temperature := None;
     req_tools := None;
     req_top_p := None;
     req_image := None;
     req_response_format := Some {| json_schema := Some (JObj []) |} |}.

(** The answer of a search that found two files. *)
Definition ragOutput : RagOutput :=
  {| rag_data := [ {| file_id := "f1"; filename := "shirts.md"; score := Finite (9 # 10) |};
                   {| file_id := "f2"; filename := "sizes.md"; score := Finite (1 # 2) |} ];
     rag_response := "Hello";
     rag_document := fullOutput |}.

(** The numbers of the strings of the samples. *)
Definition numbers (text : option string) : number :=
  match text with
  | Some "10" => Finite 10
  | Some "1000" => Finite 1000
  | _ => NaN
  end.

(** An instance that is queued, runs and completes with [shirtAdvice], and
    one that was terminated. *)
Definition completing (n : nat) : InstanceStatus :=
  match n with
  | 0 => {| status := "queued"; output := None |}
  | 1 => {| status := "running"; output := None |}
  | _ => {| status := "complete"; output := Some shirtAdvice |}
  end.

Definition terminated (n : nat) : InstanceStatus :=
  {| status := "terminated"; output := None |}.

(** The printed form of a cron expression and of a missing input. *)
Definition printCron (input : option ScheduleInput) : string :=
  match input with
  | Some (OnCron cron) => cron
  | _ => "undefined"
  end.

Definition cheapShirts : RecommendationInput :=
  {| in_query := "shirt"; in_minPrice := Some "10"; in_maxPrice := Some "1000" |}.

(** A call in a response format the models do not know, whose prompt does
    not convert. *)
Definition xmlCall : Options :=
  {| prompt := [assistantFile];
     responseFormat := Some (FormatOther "xml");
     tools := None; toolChoice := None; maxOutputTokens := None;
     temperature := None; topP := None; frequencyPenalty := None;
     presencePenalty := Some (Finite 1); seed := None |}.

(** The request doGenerate issues for [onePicture]. *)
Definition onePictureRequest : Request :=
  {| req_model := "@cf/meta/llama-3.3-70b-instruct-fp8-fast";
     req_max_tokens := None;
     req_messages := [userMessage [PText "describe"; picture]];
     req_stream := false;
     req_temperature := None;
     req_tools := None;
     req_top_p := None;
     req_image := Some [137%N; 80%N];
     req_response_format := None |}.

End Sample.

(** ** Vocabulary of the properties *)

(** The parts the assistant case of the converter has a [case] for. *)
Definition assistantSupported (p : Part) : Prop :=
  match p with
  | PText _ | PReasoning _ | PToolCall _ _ _ => True
  | _ => False
  end.

(** Text and reasoning parts, and the text they carry. *)
Definition textual (p : Part) : Prop :=
  match p with
  | PText _ | PReasoning _ => True
  | _ => False
  end.

Definition partText (p : Part) : string :=
  match p with
  | PText text | PReasoning text => text
  | _ => ""
  end.

(** The tool names of the tool-call parts of a turn, in order. *)
Definition toolCallNames (content : list Part) : list string :=
  omap (λ p, if p is PToolCall _ toolName _ then Some toolName else None) content.

(** A turn on which the converter throws, and the message of the error. *)
Inductive Fatal : Turn → string → Prop :=
| FatalRole role :
    Fatal (TOther role) ("Unsupported role: " +:+ role)
| FatalPart before part after :
    Forall assistantSupported before →
    ¬ assistantSupported part →
    Fatal (TAssistant (before ++ part :: after))
          ("Unsupported part type: " +:+ part_type part).

(** File data that is not a [Uint8Array]. *)
Definition notBytes (data : FileData) : Prop :=
  match data with
  | DataBytes _ => False
  | _ => True
  end.

(** The events that open and feed a block: what the loop of
    [getMappedStream] enqueues. *)
Definition startOrDelta (p : StreamPart) : Prop :=
  match p with
  | TextStart _ | TextDelta _ _ | ReasoningStart _ | ReasoningDelta _ _ => True
  | _ => False
  end.

Definition isDelta (p : StreamPart) : Prop :=
  match p with
  | TextDelta _ _ | ReasoningDelta _ _ => True
  | _ => False
  end.

Definition isFinish (p : StreamPart) : Prop :=
  match p with
  | Finish _ _ => True
  | _ => False
  end.

(** The ids of the text blocks, and of the reasoning blocks, opened in a
    sequence of parts, in order. *)
Definition textStarts (ps : list StreamPart) : list string :=
  omap (λ p, if p is TextStart id then Some id else None) ps.

Definition reasoningStarts (ps : list StreamPart) : list string :=
  omap (λ p, if p is ReasoningStart id then Some id else None) ps.

(** Position [i] of [ps] lies inside the block [id]: [start id] was emitted
    before it and [finish id] was not emitted in between. *)
Definition openAt (start finish : string → StreamPart) (ps : list StreamPart)
    (i : nat) (id : string) : Prop :=
  ∃ j, j < i ∧ ps !! j = Some (start id) ∧
       ∀ k, j < k < i → ps !! k ≠ Some (finish id).

(** Every delta carries the id of a block of its kind that is open where
    the delta is emitted. *)
Definition deltasFramed (ps : list StreamPart) : Prop :=
  (∀ i id d, ps !! i = Some (TextDelta id d) →
     openAt TextStart TextEnd ps i id) ∧
  (∀ i id d, ps !! i = Some (ReasoningDelta id d) →
     openAt ReasoningStart ReasoningEnd ps i id).

(** There is one finish event, and it is the last event. *)
Definition finishOnceLast (ps : list StreamPart) : Prop :=
  (∃ reason u, last ps = Some (Finish reason u)) ∧
  (∀ i p, ps !! i = Some p → isFinish p → S i = length ps).

(** The framing invariant of the specification. *)
Definition framed (ps : list StreamPart) : Prop :=
  deltasFramed ps ∧ finishOnceLast ps.

(** The usage snapshot after a sequence of chunks: that of the last chunk
    carrying a usage field, zero when there is none. *)
Definition lastSeenUsage (chunks : list Output) : Usage :=
  match last (filter (λ c, is_Some (usage c)) chunks) with
  | Some c => mapWorkersAIUsage c
  | None => {| outputTokens := 0; inputTokens := 0; totalTokens := 0 |}
  end.

(** The chunks the loop of [getMappedStream] reads from a sequence of
    events: those before the end-of-stream sentinel. *)
Fixpoint chunksRead (events : list SseEvent) : list Output :=
  match events with
  | [] => []
  | NoData :: rest => chunksRead rest
  | Data chunk :: rest => chunk :: chunksRead rest
  | Done :: _ => []
  | Malformed _ :: _ => []
  end.

(** All the tool-call entries of a sequence of chunks, in order. *)
Definition allFragments (chunks : list Output) : list RawToolCall :=
  concat ((λ c, default [] (tool_calls c)) <$> chunks).

(** What holds of the producer of [getMappedStream] between two chunks:
    only starts and deltas were enqueued, the two id variables hold the
    ids of the blocks opened last, and every delta lies in its block. *)
Record LoopInvariant (st : Producer) : Prop := {
  inv_body : Forall startOrDelta (enqueued st);
  inv_text : textId st = last (textStarts (enqueued st));
  inv_reasoning : reasoningId st = last (reasoningStarts (enqueued st));
  inv_framed : deltasFramed (enqueued st);
}.

(** The ids of the blocks a sequence of parts opens all come from
    [generateId]. *)
Definition startsGenerated {IS : IdSource} (ps : list StreamPart) : Prop :=
  ∀ id, TextStart id ∈ ps ∨ ReasoningStart id ∈ ps → ∃ n, id = generateId n.

(** *** Vocabulary of the further properties of the converter *)

(** The roles of the messages a turn is converted to. *)
Definition turnRoles (turn : Turn) : list Role :=
  match turn with
  | TSystem _ => [RSystem]
  | TUser _ => [RUser]
  | TAssistant _ => [RAssistant]
  | TTool results => replicate (length results) RTool
  | TOther _ => []
  end.

(** The file parts of a turn's content that hold bytes, as images. *)
Definition byteFiles (content : list Part) : list Image :=
  omap (λ p, if p is PFile (DataBytes bytes) mediaType providerOptions
             then Some {| img_image := bytes; img_mimeType := Some mediaType;
                          img_providerOptions := providerOptions |}
             else None) content.

(** The byte files of the user turns of a prompt, in order. *)
Definition promptByteFiles (prompt : list Turn) : list Image :=
  concat ((λ turn, if turn is TUser content then byteFiles content else [])
            <$> prompt).

(** The name and input of the tool-call parts of a turn, in order. *)
Definition toolCallsOf (content : list Part) : list (string * json) :=
  omap (λ p, if p is PToolCall _ toolName input then Some (toolName, input)
             else None) content.

(** A prompt whose tool-call ids are renamed by [f], in the tool-call parts
    and in the tool results. *)
Definition renameResult (f : string → string) (r : ToolResult) : ToolResult :=
  {| tr_toolCallId := f (tr_toolCallId r); tr_toolName := tr_toolName r;
     tr_output := tr_output r |}.

Definition renamePart (f : string → string) (p : Part) : Part :=
  match p with
  | PToolCall toolCallId toolName input => PToolCall (f toolCallId) toolName input
  | PToolResult r => PToolResult (renameResult f r)
  | _ => p
  end.

Definition renameTurn (f : string → string) (turn : Turn) : Turn :=
  match turn with
  | TUser content => TUser (renamePart f <$> content)
  | TAssistant content => TAssistant (renamePart f <$> content)
  | TTool results => TTool (renameResult f <$> results)
  | _ => turn
  end.

(** Two conversions put end to end. *)
Definition appendConverted (a b : Converted) : Converted :=
  {| images := images a ++ images b; messages := messages a ++ messages b |}.

(** *** Vocabulary of the further properties of the mapper *)

(** The payloads of the text deltas, and of the reasoning deltas, of a
    sequence of parts, in order. *)
Definition textPayloads (ps : list StreamPart) : list string :=
  omap (λ p, if p is TextDelta _ delta then Some delta else None) ps.

Definition reasoningPayloads (ps : list StreamPart) : list string :=
  omap (λ p, if p is ReasoningDelta _ delta then Some delta else None) ps.

(** The ids of the blocks a sequence of parts closes, in order. *)
Definition textEnds (ps : list StreamPart) : list string :=
  omap (λ p, if p is TextEnd id then Some id else None) ps.

Definition reasoningEnds (ps : list StreamPart) : list string :=
  omap (λ p, if p is ReasoningEnd id then Some id else None) ps.

(** The events after which the loop of the mapper goes on. *)
Definition readOn (e : SseEvent) : bool :=
  match e with
  | NoData | Data _ => true
  | Done | Malformed _ => false
  end.

(** The non-empty strings among some optional strings, in order. *)
Definition presentTexts (l : list (option string)) : list string :=
  omap (λ o, if truthy o then o else None) l.

(** The texts a chunk carries: its response, then the content of the delta
    of its first choice. *)
Definition chunkTexts (chunk : Output) : list string :=
  presentTexts [response chunk; (firstChoice chunk ≫= delta) ≫= content].

(** The reasoning a chunk carries. *)
Definition chunkReasonings (chunk : Output) : list string :=
  presentTexts [(firstChoice chunk ≫= delta) ≫= reasoning_content].

(** The blocks of the producer, when ids are not empty: an id variable is
    set exactly when a delta of its kind was enqueued, and then the one
    block opened is the block of that id. *)
Record BlockInvariant (st : Producer) : Prop := {
  blk_text :
    match textId st with
    | None => textStarts (enqueued st) = [] ∧ textPayloads (enqueued st) = []
    | Some id => id ≠ "" ∧ textStarts (enqueued st) = [id] ∧
                 textPayloads (enqueued st) ≠ []
    end;
  blk_reasoning :
    match reasoningId st with
    | None => reasoningStarts (enqueued st) = [] ∧
              reasoningPayloads (enqueued st) = []
    | Some id => id ≠ "" ∧ reasoningStarts (enqueued st) = [id] ∧
                 reasoningPayloads (enqueued st) ≠ []
    end;
}.

(** *** Vocabulary of the further properties of the language model *)

(** The warnings for the two penalties the backend does not support. *)
Definition penaltyWarnings (options : Options) : list Warning :=
  (if frequencyPenalty options is Some _
   then [UnsupportedSetting "frequencyPenalty"] else []) ++
  (if presencePenalty options is Some _
   then [UnsupportedSetting "presencePenalty"] else []).

(** The options with another seed. *)
Definition withSeed (s : option number) (options : Options) : Options :=
  {| prompt := prompt options; responseFormat := responseFormat options;
     tools := tools options; toolChoice := toolChoice options;
     maxOutputTokens := maxOutputTokens options;
     temperature := temperature options; topP := topP options;
     frequencyPenalty := frequencyPenalty options;
     presencePenalty := presencePenalty options; seed := s |}.


(** The tool calls among the parts of a stream, and among the content of a
    result, in order. *)
Definition toolCallEvents (ps : list StreamPart) : list ToolCall :=
  omap (λ p, if p is ToolCallPart call then Some call else None) ps.

Definition contentToolCalls (content : list Content) : list ToolCall :=
  omap (λ c, if c is CToolCall call then Some call else None) content.

Definition isReasoning (c : Content) : Prop :=
  match c with
  | CReasoning _ => True
  | _ => False
  end.

(** Parts that close nothing: neither an end of block nor a finish. *)
Definition closesNothing (p : StreamPart) : Prop :=
  match p with
  | TextEnd _ | ReasoningEnd _ | Finish _ _ => False
  | _ => True
  end.

(** What holds of the producer of the simulated stream while it replays a
    content without reasoning: nothing was closed, the text id is that of
    the text block opened last, no reasoning delta was enqueued and the
    text deltas lie in their block. *)
Record ReplayInvariant (st : Producer) : Prop := {
  rep_open : Forall closesNothing (enqueued st);
  rep_text : textId st = last (textStarts (enqueued st));
  rep_quiet : reasoningPayloads (enqueued st) = [];
  rep_framed :
    ∀ i id d, enqueued st !! i = Some (TextDelta id d) →
      openAt TextStart TextEnd (enqueued st) i id;
}.

(** *** Vocabulary of the further properties of the workflow and the tools *)

(** A price range no price lies in. *)
Definition emptyRange (lo hi : option number) : Prop :=
  lo = Some NaN ∨ hi = Some NaN ∨
  ∃ l h, lo = Some l ∧ hi = Some h ∧ number_le l h = false.

(** The ids that name one of the products. *)
Definition named (products : list Product) (id : number) : bool :=
  existsb (λ p, number_eq (product_id p) id) products.

(** The types the schedule tool has a case for. *)
Definition scheduleTypes : list string := ["scheduled"; "delayed"; "cron"].

(** *** Vocabulary of the properties of the AutoRAG model *)

(** The role and the content of a message, and nothing else of it. *)
Definition bare (m : ChatMessage) : ChatMessage :=
  {| msg_role := msg_role m; msg_content := msg_content m; msg_name := None;
     msg_tool_call_id := None; msg_tool_calls := None |}.

Definition sourceOf (file : RagFile) : RagContent :=
  RagSource (file_id file) (filename file) (score file).

(** ** String concatenation *)

Lemma append_cons (c : ascii) (s t : string) :
  String c s +:+ t = String c (s +:+ t).
Proof. reflexivity. Qed.

Lemma append_empty_r (s : string) : s +:+ "" = s.
Proof. induction s as [|c s IH]; [done|]. by rewrite append_cons, IH. Qed.

Lemma append_assoc (s t u : string) : (s +:+ t) +:+ u = s +:+ (t +:+ u).
Proof. induction s as [|c s IH]; [done|]. by rewrite !append_cons, IH. Qed.

(** ** Properties of the message converter *)

Section ConverterProperties.
Context {JH : JsonHost}.

Lemma convertTurns_app (out : Converted) (before after : list Turn) :
  convertTurns out (before ++ after) =
  (out' ←? convertTurns out before; convertTurns out' after).
Proof.
  revert out; induction before as [|turn before IH]; intros out; simpl; [done|].
  destruct (convertTurn out turn); simpl; auto.
Qed.

Lemma assistantParts_app (acc : AssistantAcc) (before after : list Part) :
  assistantParts acc (before ++ after) =
  (acc' ←? assistantParts acc before; assistantParts acc' after).
Proof.
  revert acc; induction before as [|part before IH]; intros acc; simpl; [done|].
  destruct (assistantPart acc part); simpl; auto.
Qed.

(** On supported parts the assistant loop does not throw, and it collects
    one backend tool call per tool-call part, in order. *)
Lemma assistantParts_supported (content : list Part) (acc : AssistantAcc) :
  Forall assistantSupported content →
  ∃ acc', assistantParts acc content = Ok acc' ∧
    (fn_name ∘ tc_function) <$> acc_toolCalls acc' =
    ((fn_name ∘ tc_function) <$> acc_toolCalls acc) ++ toolCallNames content.
Proof.
  intros Hall; revert acc.
  induction Hall as [|part content Hpart _ IH]; intros acc; simpl.
  - exists acc. by rewrite app_nil_r.
  - destruct part; simpl in Hpart; try done; simpl.
    + destruct (IH {| acc_text := acc_text acc +:+ text;
                      acc_toolCalls := acc_toolCalls acc |}) as (acc' & -> & Hn).
      by exists acc'.
    + destruct (IH {| acc_text := acc_text acc +:+ text;
                      acc_toolCalls := acc_toolCalls acc |}) as (acc' & -> & Hn).
      by exists acc'.
    + match goal with |- context [assistantParts ?a content] =>
        destruct (IH a) as (acc' & -> & Hn) end.
      exists acc'. split; [done|].
      rewrite Hn. simpl. rewrite fmap_app. simpl. by rewrite <- app_assoc.
Qed.

(** An unsupported part stops the assistant loop with its error. *)
Lemma assistantParts_unsupported (before after : list Part) (part : Part)
    (acc : AssistantAcc) :
  Forall assistantSupported before →
  ¬ assistantSupported part →
  assistantParts acc (before ++ part :: after) =
  Throw ("Unsupported part type: " +:+ part_type part).
Proof.
  intros Hbefore Hpart. rewrite assistantParts_app.
  destruct (assistantParts_supported before acc Hbefore) as (acc' & -> & _).
  simpl. destruct part; simpl in *; try done; exfalso; by apply Hpart.
Qed.

Lemma renumber_id (calls : list BackendToolCall) (i : nat) (call : BackendToolCall) :
  imap renumber calls !! i = Some call →
  tc_id call = functionsId (fn_name (tc_function call)) i.
Proof.
  rewrite list_lookup_imap_Some. by intros (raw & _ & ->).
Qed.

Lemma renumber_names (calls : list BackendToolCall) :
  (fn_name ∘ tc_function) <$> imap renumber calls =
  (fn_name ∘ tc_function) <$> calls.
Proof.
  rewrite fmap_imap. rewrite <- (imap_const (fn_name ∘ tc_function)).
  by apply imap_ext.
Qed.

(** The tool calls of a converted assistant message, [[]] when the field is
    left [undefined]. *)
Lemma assistantMessage_calls (content : list Part) :
  Forall assistantSupported content →
  ∃ m, assistantMessage content = Ok m ∧
    (fn_name ∘ tc_function) <$> default [] (msg_tool_calls m) = toolCallNames content ∧
    ∀ i call, default [] (msg_tool_calls m) !! i = Some call →
      tc_id call = functionsId (fn_name (tc_function call)) i.
Proof.
  intros Hall. unfold assistantMessage.
  destruct (assistantParts_supported content
              {| acc_text := ""; acc_toolCalls := [] |} Hall) as (acc & -> & Hn).
  simpl in *. eexists; split; [done|]. simpl.
  destruct (acc_toolCalls acc) as [|c cs] eqn:Hcalls; simpl.
  - split; [done|]. intros i call Hi. by rewrite lookup_nil in Hi.
  - split.
    + rewrite <- Hn. f_equal.
      pose proof (renumber_names (c :: cs)) as Hr. simpl in Hr. by inversion Hr.
    + intros i call Hi. by apply (renumber_id (c :: cs)).
Qed.

(** The first fatal turn of a prompt decides the outcome: the turns after
    it are not looked at. *)
Lemma convert_fatal (before after : list Turn) (bad : Turn) (msg : string)
    (out : Converted) :
  convertToWorkersAIChatMessages before = Ok out →
  Fatal bad msg →
  convertToWorkersAIChatMessages (before ++ bad :: after) = Throw msg.
Proof.
  unfold convertToWorkersAIChatMessages. intros Hbefore Hbad.
  rewrite convertTurns_app, Hbefore. simpl.
  destruct Hbad as [role|pre part post Hpre Hpart]; simpl; [done|].
  unfold assistantMessage. by rewrite assistantParts_unsupported.
Qed.

(** A user turn is converted without error whatever its parts are. *)
Lemma convert_user_total (before : list Turn) (content : list Part)
    (out : Converted) :
  convertToWorkersAIChatMessages before = Ok out →
  convertToWorkersAIChatMessages (before ++ [TUser content]) =
    Ok {| images := images out ++ userImages content;
          messages := messages out ++ [userMessage content] |}.
Proof.
  unfold convertToWorkersAIChatMessages. intros Hbefore.
  by rewrite convertTurns_app, Hbefore.
Qed.

(** [join] prints its items with [joinItem] and looks at nothing else. *)
Lemma join_ext (sep : string) (l1 l2 : list (option string)) :
  joinItem <$> l1 = joinItem <$> l2 → join sep l1 = join sep l2.
Proof.
  revert l2; induction l1 as [|x l1 IH]; intros [|y l2] Heq; try done.
  simpl in Heq. injection Heq as Hxy Hrest.
  simpl. rewrite Hxy, (IH l2 Hrest).
  destruct l1, l2; done.
Qed.

(** A turn either converts or is fatal. *)
Lemma assistant_supported_or_first (content : list Part) :
  Forall assistantSupported content ∨
  ∃ before part after,
    content = before ++ part :: after ∧
    Forall assistantSupported before ∧ ¬ assistantSupported part.
Proof.
  induction content as [|p content IH]; [by left|].
  assert (Hp : assistantSupported p ∨ ¬ assistantSupported p)
    by (destruct p; simpl; tauto).
  destruct Hp as [Hp|Hp].
  - destruct IH as [IH|(before & part & after & -> & Hbefore & Hpart)].
    + left. by constructor.
    + right. exists (p :: before), part, after. split; [done|].
      split; [by constructor|done].
  - right. by exists [], p, content.
Qed.

Lemma convertTurn_fatal (out : Converted) (turn : Turn) (msg : string) :
  Fatal turn msg → convertTurn out turn = Throw msg.
Proof.
  intros [role|pre part post Hpre Hpart]; simpl; [done|].
  unfold assistantMessage. by rewrite assistantParts_unsupported.
Qed.

Lemma convertTurn_ok_or_fatal (out : Converted) (turn : Turn) :
  (∃ out', convertTurn out turn = Ok out') ∨ (∃ msg, Fatal turn msg).
Proof.
  destruct turn as [text|content|content|content|role]; simpl;
    try (left; by eexists).
  - destruct (assistant_supported_or_first content)
      as [Hall|(before & part & after & -> & Hbefore & Hpart)].
    + left. destruct (assistantMessage_calls content Hall) as (m & -> & _).
      by eexists.
    + right. eexists. by constructor.
  - right. eexists. constructor.
Qed.

(** A prompt holding a fatal turn has a first one, before which the turns
    convert. *)
Lemma first_fatal (prompt : list Turn) (out : Converted) (bad : Turn)
    (msg0 : string) :
  bad ∈ prompt → Fatal bad msg0 →
  ∃ before first after msg out',
    prompt = before ++ first :: after ∧
    convertTurns out before = Ok out' ∧ Fatal first msg.
Proof.
  intros Hin Hbad; revert out.
  induction prompt as [|turn prompt IH]; intros out;
    [by apply elem_of_nil in Hin|].
  destruct (convertTurn_ok_or_fatal out turn) as [[out1 Hturn]|[msg Hfatal]].
  - apply elem_of_cons in Hin as [->|Hin].
    + by rewrite (convertTurn_fatal out turn msg0 Hbad) in Hturn.
    + destruct (IH Hin out1)
        as (before & first & after & msg & out' & -> & Hbefore & Hfirst).
      exists (turn :: before), first, after, msg, out'.
      split; [done|]. split; [|done]. simpl. by rewrite Hturn.
  - by exists [], turn, prompt, msg, out.
Qed.

(** C3, as amended.  A prompt holding a turn whose role is unrecognized, or
    an assistant turn holding a part that is not text, reasoning or
    tool-call, makes the converter throw: no messages are returned, and
    the error is that of the first such turn, raised when the turns before
    it have been converted and whatever the turns after it are.  A part of
    an unrecognized variant in a user turn does not: the turn converts,
    and the part is printed as the empty string in the joined content. *)
Theorem unsupported_input_is_fatal (prompt : list Turn) (bad : Turn)
    (msg0 : string) :
  bad ∈ prompt →
  Fatal bad msg0 →
  (∃ before first after msg out,
     prompt = before ++ first :: after ∧
     convertToWorkersAIChatMessages before = Ok out ∧
     Fatal first msg ∧
     convertToWorkersAIChatMessages prompt = Throw msg ∧
     ∀ others, convertToWorkersAIChatMessages (before ++ first :: others) = Throw msg) ∧
  (∀ before out type pre post,
     convertToWorkersAIChatMessages before = Ok out →
     convertToWorkersAIChatMessages (before ++ [TUser (pre ++ POther type :: post)]) =
       Ok {| images := images out ++ userImages (pre ++ post);
             messages := messages out ++ [userMessage (pre ++ PText "" :: post)] |}).
Proof.
  intros Hin Hbad. split.
  - destruct (first_fatal prompt {| images := []; messages := [] |} bad msg0
                Hin Hbad)
      as (before & first & after & msg & out & -> & Hbefore & Hfirst).
    exists before, first, after, msg, out.
    repeat split; try done; intros; by eapply convert_fatal.
  - intros before out type pre post Hbefore.
    rewrite (convert_user_total _ _ _ Hbefore). f_equal. f_equal.
    + unfold userImages. by rewrite !fmap_app, !concat_app.
    + unfold userMessage.
      rewrite (join_ext LF _ (fst <$> (userPart <$> pre ++ PText "" :: post)));
        [done|].
      by rewrite !fmap_app.
Qed.

(** The text buffer after a run of text and reasoning parts. *)
Lemma assistantParts_textual (content : list Part) (acc : AssistantAcc) :
  Forall textual content →
  assistantParts acc content =
    Ok {| acc_text := acc_text acc +:+ foldr String.append "" (partText <$> content);
          acc_toolCalls := acc_toolCalls acc |}.
Proof.
  intros Hall; revert acc.
  induction Hall as [|part content Hpart _ IH]; intros acc; simpl.
  - destruct acc as [text calls]; simpl. by rewrite append_empty_r.
  - destruct part; simpl in Hpart; try done; simpl; rewrite IH; simpl;
      by rewrite append_assoc.
Qed.

(** C7, as amended.  A tool-call part replaces the text buffer, whatever it
    held, with the JSON text of [{ name, parameters: input }]; the content
    of the converted assistant message is therefore the summary of the
    last tool-call part of the turn followed by the texts of the text and
    reasoning parts that come after it. *)
Theorem assistant_content_last_tool_call (before after : list Part)
    (toolCallId toolName : string) (input : json) :
  Forall assistantSupported before →
  Forall textual after →
  (∀ acc, ∃ acc',
     assistantPart acc (PToolCall toolCallId toolName input) = Ok acc' ∧
     acc_text acc' =
       JSON_stringify (JObj [("name", JStr toolName); ("parameters", input)])) ∧
  ∃ m,
    assistantMessage (before ++ PToolCall toolCallId toolName input :: after) = Ok m ∧
    msg_content m =
      JSON_stringify (JObj [("name", JStr toolName); ("parameters", input)]) +:+
      foldr String.append "" (partText <$> after).
Proof.
  intros Hbefore Hafter. split.
  - intros acc. eexists. split; [reflexivity|done].
  - unfold assistantMessage. rewrite assistantParts_app.
    destruct (assistantParts_supported before
                {| acc_text := ""; acc_toolCalls := [] |} Hbefore) as (acc & -> & _).
    simpl. rewrite (assistantParts_textual after _ Hafter). simpl.
    eexists. split; [reflexivity|done].
Qed.

(** C10.  A file part of a user turn whose data is not a byte array (a URL,
    a base64 string) is dropped without a trace: the turn converts without
    error, the part stands for the empty string among the strings joined
    into the content of the user message, and it adds nothing to the
    images, which are those of the other parts. *)
Theorem non_byte_file_is_dropped (before : list Turn) (out : Converted)
    (data : FileData) (mediaType : string) (providerOptions : option json)
    (pre post : list Part) :
  convertToWorkersAIChatMessages before = Ok out →
  notBytes data →
  userPart (PFile data mediaType providerOptions) = (Some "", []) ∧
  ∃ m,
    convertToWorkersAIChatMessages
      (before ++ [TUser (pre ++ PFile data mediaType providerOptions :: post)]) =
      Ok {| images := images out ++ userImages pre ++ userImages post;
            messages := messages out ++ [m] |} ∧
    msg_role m = RUser ∧
    msg_content m =
      join LF ((fst ∘ userPart <$> pre) ++ Some "" :: (fst ∘ userPart <$> post)).
Proof.
  intros Hbefore Hdata.
  assert (Hpart : userPart (PFile data mediaType providerOptions) = (Some "", []))
    by by destruct data.
  split; [done|].
  exists (userMessage (pre ++ PFile data mediaType providerOptions :: post)).
  split; [|split; [reflexivity|]].
  - rewrite (convert_user_total _ _ _ Hbefore). do 3 f_equal.
    unfold userImages.
    by rewrite !fmap_app, !fmap_cons, Hpart, concat_app.
  - unfold userMessage, msg_content.
    by rewrite !fmap_app, !fmap_cons, Hpart, <- !list_fmap_compose.
Qed.

End ConverterProperties.

(** ** Properties of the streaming mapper *)

Section Framing.

Lemma openAt_app (start finish : string → StreamPart) (ps tail : list StreamPart)
    (i : nat) (id : string) :
  i ≤ length ps →
  openAt start finish ps i id → openAt start finish (ps ++ tail) i id.
Proof.
  intros Hi (j & Hj & Hs & Hk). exists j. split; [done|]. split.
  - rewrite lookup_app_l by lia. done.
  - intros k Hk'. rewrite lookup_app_l by lia. by apply Hk.
Qed.

Lemma openAt_cons (start finish : string → StreamPart) (p : StreamPart)
    (ps : list StreamPart) (i : nat) (id : string) :
  openAt start finish ps i id → openAt start finish (p :: ps) (S i) id.
Proof.
  intros (j & Hj & Hs & Hk). exists (S j). split; [lia|]. split; [done|].
  intros [|k] Hk'; [lia|]. simpl. apply Hk. lia.
Qed.

(** Parts other than deltas can follow a framed sequence. *)
Lemma deltasFramed_app (body tail : list StreamPart) :
  deltasFramed body →
  Forall (λ p, ¬ isDelta p) tail →
  deltasFramed (body ++ tail).
Proof.
  intros [Ht Hr] Htail. split; intros i id d Hi.
  - apply lookup_app_Some in Hi as [Hi|[Hge Hi]].
    + apply openAt_app; [by apply Nat.lt_le_incl, (lookup_lt_Some _ _ _ Hi)|].
      by eapply Ht.
    + exfalso. by apply (Forall_lookup_1 _ _ _ _ Htail Hi).
  - apply lookup_app_Some in Hi as [Hi|[Hge Hi]].
    + apply openAt_app; [by apply Nat.lt_le_incl, (lookup_lt_Some _ _ _ Hi)|].
      by eapply Hr.
    + exfalso. by apply (Forall_lookup_1 _ _ _ _ Htail Hi).
Qed.

(** A part other than a delta can precede a framed sequence. *)
Lemma deltasFramed_cons (p : StreamPart) (ps : list StreamPart) :
  ¬ isDelta p → deltasFramed ps → deltasFramed (p :: ps).
Proof.
  intros Hp [Ht Hr]. split; intros [|i] id d Hi; simpl in Hi.
  - exfalso. apply Hp. by inversion Hi.
  - apply openAt_cons. by eapply Ht.
  - exfalso. apply Hp. by inversion Hi.
  - apply openAt_cons. by eapply Hr.
Qed.

(** A delta can follow a framed sequence in which its block is open. *)
Lemma deltasFramed_snoc (q : list StreamPart) (p : StreamPart) :
  deltasFramed q →
  (∀ id d, p = TextDelta id d → openAt TextStart TextEnd q (length q) id) →
  (∀ id d, p = ReasoningDelta id d →
     openAt ReasoningStart ReasoningEnd q (length q) id) →
  deltasFramed (q ++ [p]).
Proof.
  intros [Ht Hr] Hpt Hpr. split; intros i id d Hi.
  - apply lookup_snoc_Some in Hi as [[Hlt Hi]|[-> ->]].
    + apply openAt_app; [lia|]. by eapply Ht.
    + apply openAt_app; [done|]. by eapply Hpt.
  - apply lookup_snoc_Some in Hi as [[Hlt Hi]|[-> ->]].
    + apply openAt_app; [lia|]. by eapply Hr.
    + apply openAt_app; [done|]. by eapply Hpr.
Qed.

Lemma textStarts_snoc (q : list StreamPart) (p : StreamPart) :
  textStarts (q ++ [p]) =
  textStarts q ++ (if p is TextStart id then [id] else []).
Proof. unfold textStarts. rewrite omap_app. by destruct p. Qed.

Lemma reasoningStarts_snoc (q : list StreamPart) (p : StreamPart) :
  reasoningStarts (q ++ [p]) =
  reasoningStarts q ++ (if p is ReasoningStart id then [id] else []).
Proof. unfold reasoningStarts. rewrite omap_app. by destruct p. Qed.

(** While only starts and deltas were emitted, a block opened is open. *)
Lemma text_open_at_end (q : list StreamPart) (id : string) :
  Forall startOrDelta q →
  last (textStarts q) = Some id →
  openAt TextStart TextEnd q (length q) id.
Proof.
  intros Hbody Hlast. apply last_Some_elem_of in Hlast.
  apply list_elem_of_omap in Hlast as (p & Hp & Hid).
  destruct p; try done. injection Hid as ->.
  apply list_elem_of_lookup in Hp as [j Hj].
  exists j. split; [by eapply lookup_lt_Some|]. split; [done|].
  intros k _ Hk. by apply (Forall_lookup_1 _ _ _ _ Hbody Hk).
Qed.

Lemma reasoning_open_at_end (q : list StreamPart) (id : string) :
  Forall startOrDelta q →
  last (reasoningStarts q) = Some id →
  openAt ReasoningStart ReasoningEnd q (length q) id.
Proof.
  intros Hbody Hlast. apply last_Some_elem_of in Hlast.
  apply list_elem_of_omap in Hlast as (p & Hp & Hid).
  destruct p; try done. injection Hid as ->.
  apply list_elem_of_lookup in Hp as [j Hj].
  exists j. split; [by eapply lookup_lt_Some|]. split; [done|].
  intros k _ Hk. by apply (Forall_lookup_1 _ _ _ _ Hbody Hk).
Qed.

Lemma truthy_Some (o : option string) :
  truthy o = true → o = Some (joinItem o).
Proof. by destruct o as [[|c s]|]. Qed.

End Framing.

Section StreamingProperties.
Context {IS : IdSource} {U : Utils}.

Lemma initial_invariant : LoopInvariant initialProducer.
Proof.
  split; try done; split; intros i id d Hi; by rewrite lookup_nil in Hi.
Qed.

Lemma textDelta_invariant (d : string) (st : Producer) :
  LoopInvariant st → LoopInvariant (textDelta d st).
Proof.
  intros [Hbody Htext Hreasoning Hframed]. unfold textDelta.
  destruct (truthy (textId st)) eqn:Hopen; simpl.
  - apply truthy_Some in Hopen. split; simpl.
    + apply Forall_app. by split; [|repeat constructor].
    + by rewrite textStarts_snoc, app_nil_r.
    + by rewrite reasoningStarts_snoc, app_nil_r.
    + apply deltasFramed_snoc; [done| |done].
      intros id d' [= <- _]. apply text_open_at_end; [done|]. congruence.
  - split; simpl.
    + rewrite !Forall_app. by repeat split; [|repeat constructor..].
    + by rewrite !textStarts_snoc, app_nil_r, last_snoc.
    + by rewrite !reasoningStarts_snoc, !app_nil_r.
    + apply deltasFramed_snoc; [by apply deltasFramed_snoc| |done].
      intros id d' [= <- _]. apply text_open_at_end.
      * apply Forall_app. by split; [|repeat constructor].
      * by rewrite textStarts_snoc, last_snoc.
Qed.

Lemma reasoningDelta_invariant (d : string) (st : Producer) :
  LoopInvariant st → LoopInvariant (reasoningDelta d st).
Proof.
  intros [Hbody Htext Hreasoning Hframed]. unfold reasoningDelta.
  destruct (truthy (reasoningId st)) eqn:Hopen; simpl.
  - apply truthy_Some in Hopen. split; simpl.
    + apply Forall_app. by split; [|repeat constructor].
    + by rewrite textStarts_snoc, app_nil_r.
    + by rewrite reasoningStarts_snoc, app_nil_r.
    + apply deltasFramed_snoc; [done|done|].
      intros id d' [= <- _]. apply reasoning_open_at_end; [done|]. congruence.
  - split; simpl.
    + rewrite !Forall_app. by repeat split; [|repeat constructor..].
    + by rewrite !textStarts_snoc, !app_nil_r.
    + by rewrite !reasoningStarts_snoc, app_nil_r, last_snoc.
    + apply deltasFramed_snoc; [by apply deltasFramed_snoc|done|].
      intros id d' [= <- _]. apply reasoning_open_at_end.
      * apply Forall_app. by split; [|repeat constructor].
      * by rewrite reasoningStarts_snoc, last_snoc.
Qed.

Lemma onChunk_invariant (chunk : Output) (st : Producer) :
  LoopInvariant st → LoopInvariant (onChunk chunk st).
Proof.
  intros Hst. unfold onChunk.
  set (st1 := match usage chunk with Some _ => _ | None => st end).
  assert (H1 : LoopInvariant st1).
  { subst st1. destruct (usage chunk); [|done]. by destruct Hst. }
  set (st2 := match tool_calls chunk with Some _ => _ | None => st1 end).
  assert (H2 : LoopInvariant st2).
  { subst st2. destruct (tool_calls chunk); [|done]. by destruct H1. }
  clearbody st1 st2.
  repeat match goal with
  | |- context [if ?b then _ else _] => destruct b
  end; auto using textDelta_invariant, reasoningDelta_invariant.
Qed.

(** The state in which the loop leaves the producer after the chunks. *)
Lemma readEvents_data (chunks : list Output) (st : Producer) :
  readEvents (Data <$> chunks) st = inl (foldl (λ st c, onChunk c st) st chunks).
Proof.
  revert st; induction chunks as [|c chunks IH]; intros st; simpl; [done|].
  apply IH.
Qed.

Lemma readEvents_invariant (events : list SseEvent) (st st' : Producer) :
  LoopInvariant st →
  readEvents events st = inl st' ∨ readEvents events st = inr st' →
  LoopInvariant st'.
Proof.
  revert st; induction events as [|e events IH]; intros st Hst; simpl.
  - intros [[= <-]|[=]]. done.
  - destruct e; try (intros [[= <-]|[= <-]]; done); eauto using onChunk_invariant.
Qed.

(** *** What the loop does to the variables *)

Lemma textDelta_grows (d : string) (st : Producer) :
  m_usage (textDelta d st) = m_usage st ∧
  partialToolCalls (textDelta d st) = partialToolCalls st ∧
  ∃ new, enqueued (textDelta d st) = enqueued st ++ new ∧ startsGenerated new.
Proof.
  unfold textDelta. destruct (truthy (textId st)); simpl.
  - do 2 (split; [done|]). eexists. split; [done|].
    intros id [Hin|Hin]; apply list_elem_of_singleton in Hin; done.
  - do 2 (split; [done|]). eexists. split; [by rewrite <- app_assoc|].
    intros id [Hin|Hin]; apply elem_of_app in Hin as [Hin|Hin];
      apply list_elem_of_singleton in Hin; try done.
    injection Hin as ->. by eexists.
Qed.

Lemma reasoningDelta_grows (d : string) (st : Producer) :
  m_usage (reasoningDelta d st) = m_usage st ∧
  partialToolCalls (reasoningDelta d st) = partialToolCalls st ∧
  ∃ new, enqueued (reasoningDelta d st) = enqueued st ++ new ∧ startsGenerated new.
Proof.
  unfold reasoningDelta. destruct (truthy (reasoningId st)); simpl.
  - do 2 (split; [done|]). eexists. split; [done|].
    intros id [Hin|Hin]; apply list_elem_of_singleton in Hin; done.
  - do 2 (split; [done|]). eexists. split; [by rewrite <- app_assoc|].
    intros id [Hin|Hin]; apply elem_of_app in Hin as [Hin|Hin];
      apply list_elem_of_singleton in Hin; try done.
    injection Hin as ->. by eexists.
Qed.

Lemma startsGenerated_app (ps qs : list StreamPart) :
  startsGenerated ps → startsGenerated qs → startsGenerated (ps ++ qs).
Proof.
  intros Hps Hqs id Hin. rewrite !elem_of_app in Hin.
  destruct Hin as [[?|?]|[?|?]]; [apply Hps|apply Hqs|apply Hps|apply Hqs]; auto.
Qed.

Lemma startsGenerated_nil : startsGenerated [].
Proof. intros id [Hin|Hin]; by apply elem_of_nil in Hin. Qed.

(** One chunk: the usage is overwritten when the chunk carries one, the
    tool calls of the chunk are appended to the fragments. *)
Lemma onChunk_grows (chunk : Output) (st : Producer) :
  m_usage (onChunk chunk st) =
    (if usage chunk is Some _ then mapWorkersAIUsage chunk else m_usage st) ∧
  partialToolCalls (onChunk chunk st) =
    partialToolCalls st ++ default [] (tool_calls chunk) ∧
  ∃ new, enqueued (onChunk chunk st) = enqueued st ++ new ∧ startsGenerated new.
Proof.
  unfold onChunk.
  set (st2 := match tool_calls chunk with Some _ => _ | None => _ end).
  assert (H2 : m_usage st2 =
                 (if usage chunk is Some _ then mapWorkersAIUsage chunk
                  else m_usage st) ∧
               partialToolCalls st2 =
                 partialToolCalls st ++ default [] (tool_calls chunk) ∧
               enqueued st2 = enqueued st).
  { subst st2. destruct (usage chunk), (tool_calls chunk); simpl;
      by rewrite ?app_nil_r. }
  clearbody st2. destruct H2 as (Hu & Hp & Hq).
  set (st3 := if nonEmpty (response chunk) then _ else st2).
  assert (H3 : m_usage st3 = m_usage st2 ∧
               partialToolCalls st3 = partialToolCalls st2 ∧
               ∃ new, enqueued st3 = enqueued st2 ++ new ∧ startsGenerated new).
  { subst st3. destruct (nonEmpty (response chunk)).
    - apply textDelta_grows.
    - do 2 (split; [done|]). exists []. split; [by rewrite app_nil_r|].
      apply startsGenerated_nil. }
  clearbody st3. destruct H3 as (Hu3 & Hp3 & new3 & Hq3 & Hg3).
  set (st4 := if nonEmpty (_ ≫= reasoning_content) then _ else st3).
  assert (H4 : m_usage st4 = m_usage st3 ∧
               partialToolCalls st4 = partialToolCalls st3 ∧
               ∃ new, enqueued st4 = enqueued st3 ++ new ∧ startsGenerated new).
  { subst st4. destruct (nonEmpty (_ ≫= reasoning_content)).
    - apply reasoningDelta_grows.
    - do 2 (split; [done|]). exists []. split; [by rewrite app_nil_r|].
      apply startsGenerated_nil. }
  clearbody st4. destruct H4 as (Hu4 & Hp4 & new4 & Hq4 & Hg4).
  assert (H5 : ∀ st5, st5 = (if nonEmpty ((firstChoice chunk ≫= delta) ≫= content)
                             then textDelta (joinItem ((firstChoice chunk ≫= delta) ≫= content)) st4
                             else st4) →
               m_usage st5 = m_usage st4 ∧
               partialToolCalls st5 = partialToolCalls st4 ∧
               ∃ new, enqueued st5 = enqueued st4 ++ new ∧ startsGenerated new).
  { intros st5 ->. destruct (nonEmpty (_ ≫= content)).
    - apply textDelta_grows.
    - do 2 (split; [done|]). exists []. split; [by rewrite app_nil_r|].
      apply startsGenerated_nil. }
  destruct (H5 _ eq_refl) as (Hu5 & Hp5 & new5 & Hq5 & Hg5).
  split; [congruence|]. split; [congruence|].
  exists (new3 ++ new4 ++ new5). split.
  - rewrite Hq5, Hq4, Hq3, Hq. by rewrite <- !app_assoc.
  - auto using startsGenerated_app.
Qed.

Lemma last_filter_cons {A} (P : A → Prop) `{∀ x, Decision (P x)} (x : A) (l : list A) :
  last (filter P (x :: l)) =
  match last (filter P l) with
  | Some y => Some y
  | None => if decide (P x) then Some x else None
  end.
Proof.
  rewrite filter_cons. destruct (decide (P x)); [|by destruct (last _)].
  rewrite last_cons. by destruct (last _).
Qed.

(** The loop over a sequence of chunks. *)
Lemma loop_grows (chunks : list Output) (st : Producer) :
  let st' := foldl (λ st c, onChunk c st) st chunks in
  m_usage st' =
    (if last (filter (λ c, is_Some (usage c)) chunks) is Some c
     then mapWorkersAIUsage c else m_usage st) ∧
  partialToolCalls st' = partialToolCalls st ++ allFragments chunks ∧
  ∃ new, enqueued st' = enqueued st ++ new ∧ startsGenerated new.
Proof.
  revert st; induction chunks as [|c chunks IH]; intros st; simpl.
  - split; [done|]. split; [by rewrite app_nil_r|].
    exists []. split; [by rewrite app_nil_r|]. apply startsGenerated_nil.
  - destruct (IH (onChunk c st)) as (Hu & Hp & new & Hq & Hg).
    destruct (onChunk_grows c st) as (Hu1 & Hp1 & new1 & Hq1 & Hg1).
    split; [|split].
    + rewrite Hu, last_filter_cons. destruct (last _); [done|].
      rewrite Hu1. destruct (usage c) eqn:Hc.
      * rewrite decide_True; [done|]. by eexists.
      * rewrite decide_False; [done|]. by intros [? ?].
    + rewrite Hp, Hp1. unfold allFragments. simpl. by rewrite <- app_assoc.
    + exists (new1 ++ new). split; [by rewrite Hq, Hq1, <- app_assoc|].
      by apply startsGenerated_app.
Qed.

(** *** What follows the loop *)

Lemma enqueue_tool_calls (calls : list ToolCall) (st : Producer) :
  let st' := foldl (λ st toolCall, enqueue (ToolCallPart toolCall) st) st calls in
  enqueued st' = enqueued st ++ (ToolCallPart <$> calls) ∧
  textId st' = textId st ∧ reasoningId st' = reasoningId st ∧
  m_usage st' = m_usage st.
Proof.
  revert st; induction calls as [|c calls IH]; intros st; simpl.
  - by rewrite app_nil_r.
  - destruct (IH (enqueue (ToolCallPart c) st)) as (-> & -> & -> & ->).
    simpl. by rewrite <- app_assoc.
Qed.

Lemma closeStream_parts (st : Producer) :
  enqueued (closeStream st) =
    enqueued st ++
    (if partialToolCalls st is [] then []
     else ToolCallPart <$> processPartialToolCalls (partialToolCalls st)) ++
    (if truthy (reasoningId st)
     then [ReasoningEnd (joinItem (reasoningId st))] else []) ++
    (if truthy (textId st) then [TextEnd (joinItem (textId st))] else []) ++
    [Finish FinishStop (m_usage st)].
Proof.
  unfold closeStream.
  set (st1 := if (0 <? _)%nat then _ else st).
  assert (H1 : enqueued st1 =
                 enqueued st ++
                 (if partialToolCalls st is [] then []
                  else ToolCallPart <$> processPartialToolCalls (partialToolCalls st)) ∧
               textId st1 = textId st ∧ reasoningId st1 = reasoningId st ∧
               m_usage st1 = m_usage st).
  { subst st1. destruct (partialToolCalls st) eqn:Hp; simpl.
    - by rewrite app_nil_r.
    - apply enqueue_tool_calls. }
  clearbody st1. destruct H1 as (Hq & Ht & Hr & Hu).
  unfold closeBlocks. rewrite Hr.
  destruct (truthy (reasoningId st)); simpl; rewrite Ht;
    destruct (truthy (textId st)); simpl; rewrite Hq, Hu;
    by rewrite <- ?app_assoc.
Qed.

Lemma loop_invariant (chunks : list Output) :
  LoopInvariant (foldl (λ st c, onChunk c st) initialProducer chunks).
Proof.
  apply (readEvents_invariant (Data <$> chunks) initialProducer);
    [apply initial_invariant|].
  left. apply readEvents_data.
Qed.

Lemma nonempty_truthy (id : string) : id ≠ "" → truthy (Some id) = true.
Proof. by destruct id. Qed.

(** C4.  At the end of the input the mapper has enqueued, after the starts
    and deltas of the chunks: the tool calls reconciled from all the
    fragments, when there are fragments; then the end of the reasoning
    block if one was opened; then the end of the text block if one was
    opened; and last one finish event, with reason stop and the usage seen
    last.  The stream is then closed.  (Ids are non-empty strings: the
    empty string is falsy, and would leave its block unclosed.) *)
Theorem end_of_input_order (chunks : list Output) :
  (∀ n, generateId n ≠ "") →
  ∃ body,
    Forall startOrDelta body ∧
    getMappedStream (Data <$> chunks) =
      {| parts :=
           body ++
           (if allFragments chunks is [] then []
            else ToolCallPart <$> processPartialToolCalls (allFragments chunks)) ++
           (if last (reasoningStarts body) is Some id
            then [ReasoningEnd id] else []) ++
           (if last (textStarts body) is Some id then [TextEnd id] else []) ++
           [Finish FinishStop (lastSeenUsage chunks)];
         closed := true |}.
Proof.
  intros Hids. unfold getMappedStream. rewrite readEvents_data. cbv beta iota.
  pose proof (loop_invariant chunks) as [Hbody Htext Hreasoning _].
  destruct (loop_grows chunks initialProducer) as (Hu & Hp & new & Hq & Hg).
  simpl in Hu, Hp, Hq. cbv zeta in Hu, Hp, Hq.
  set (st := foldl (λ st c, onChunk c st) initialProducer chunks) in *.
  exists (enqueued st). split; [done|]. f_equal.
  rewrite closeStream_parts, Hp. f_equal. f_equal.
  assert (Hopen : ∀ ids id, last ids = Some id →
            (∀ id, id ∈ ids → TextStart id ∈ new ∨ ReasoningStart id ∈ new) →
            truthy (Some id) = true).
  { intros ids id Hlast Hin. apply nonempty_truthy.
    apply last_Some_elem_of in Hlast. destruct (Hg id (Hin id Hlast)) as [n ->].
    apply Hids. }
  f_equal; [|f_equal].
  - rewrite Hreasoning. destruct (last (reasoningStarts _)) as [id|] eqn:Hlast;
      [|done].
    rewrite (Hopen _ _ Hlast); [done|].
    intros id' Hin. right. rewrite <- Hq.
    apply list_elem_of_omap in Hin as (p & Hin & Hp'). destruct p; try done.
    by injection Hp' as ->.
  - rewrite Htext. destruct (last (textStarts _)) as [id|] eqn:Hlast; [|done].
    rewrite (Hopen _ _ Hlast); [done|].
    intros id' Hin. left. rewrite <- Hq.
    apply list_elem_of_omap in Hin as (p & Hin & Hp'). destruct p; try done.
    by injection Hp' as ->.
  - f_equal. rewrite Hu. unfold lastSeenUsage. by destruct (last _).
Qed.

(** C5.  The usage of the finish event is that of the last chunk carrying a
    usage field, mapped by [mapWorkersAIUsage]: its prompt tokens, its
    completion tokens and their sum.  What earlier chunks carried is
    overwritten, not added. *)
Theorem usage_last_write_wins (before after : list Output) (chunk : Output)
    (u : BackendUsage) :
  usage chunk = Some u →
  Forall (λ c, usage c = None) after →
  last (parts (getMappedStream (Data <$> (before ++ chunk :: after)))) =
    Some (Finish FinishStop
            {| outputTokens := completion_tokens u;
               inputTokens := prompt_tokens u;
               totalTokens := prompt_tokens u + completion_tokens u |}).
Proof.
  intros Hchunk Hafter. unfold getMappedStream. rewrite readEvents_data.
  destruct (loop_grows (before ++ chunk :: after) initialProducer)
    as (Hu & _).
  cbv zeta in Hu. cbv beta iota delta [parts].
  rewrite closeStream_parts, !app_assoc, last_snoc, Hu.
  rewrite filter_app, filter_cons_True by (by rewrite Hchunk).
  replace (filter (λ c, is_Some (usage c)) after) with (@nil Output).
  - rewrite last_snoc. unfold mapWorkersAIUsage. rewrite Hchunk. reflexivity.
  - symmetry. clear Hu. induction Hafter as [|c after Hc _ IH]; [done|].
    rewrite filter_cons_False; [exact IH|]. rewrite Hc. by intros [? ?].
Qed.

(** *** The framing of the mapped stream *)

Lemma finishOnceLast_snoc (front : list StreamPart) (reason : FinishReason)
    (u : Usage) :
  Forall (λ p, ¬ isFinish p) front →
  finishOnceLast (front ++ [Finish reason u]).
Proof.
  intros Hfront. split.
  - exists reason, u. apply last_snoc.
  - intros i p Hi Hp. apply lookup_snoc_Some in Hi as [[Hlt Hi]|[-> _]].
    + exfalso. by apply (Forall_lookup_1 _ _ _ _ Hfront Hi).
    + rewrite length_app. simpl. lia.
Qed.

Lemma framed_cons (p : StreamPart) (ps : list StreamPart) :
  ¬ isDelta p → ¬ isFinish p → framed ps → framed (p :: ps).
Proof.
  intros Hd Hf [Hframed [(reason & u & Hlast) Honce]]. split.
  - by apply deltasFramed_cons.
  - split.
    + exists reason, u. destruct ps; [done|]. by rewrite last_cons_cons.
    + intros [|i] q Hi Hq; simpl in *.
      * exfalso. apply Hf. by injection Hi as ->.
      * f_equal. by eapply Honce.
Qed.

(** A stream the mapper closes is framed: the real half of the framing
    invariant. *)
Lemma getMappedStream_framed (events : list SseEvent) :
  closed (getMappedStream events) = true →
  framed (parts (getMappedStream events)).
Proof.
  unfold getMappedStream.
  destruct (readEvents events initialProducer) as [st|st] eqn:Hread; [|done].
  intros _. cbv beta iota delta [parts].
  destruct (readEvents_invariant events initialProducer st initial_invariant
              (or_introl Hread)) as [Hbody _ _ Hframed].
  rewrite closeStream_parts.
  set (tools := if partialToolCalls st is [] then [] else _).
  set (rEnd := if truthy (reasoningId st) then _ else _).
  set (tEnd := if truthy (textId st) then _ else _).
  assert (Htools : Forall (λ p, ¬ isDelta p ∧ ¬ isFinish p) tools).
  { subst tools. destruct (partialToolCalls st); [done|].
    apply Forall_forall. intros p Hp.
    apply list_elem_of_fmap in Hp as (call & -> & _). split; intros Hx; exact Hx. }
  assert (HrEnd : Forall (λ p, ¬ isDelta p ∧ ¬ isFinish p) rEnd).
  { subst rEnd. destruct (truthy (reasoningId st)); [|apply Forall_nil_2].
    apply Forall_singleton. split; intros Hx; exact Hx. }
  assert (HtEnd : Forall (λ p, ¬ isDelta p ∧ ¬ isFinish p) tEnd).
  { subst tEnd. destruct (truthy (textId st)); [|apply Forall_nil_2].
    apply Forall_singleton. split; intros Hx; exact Hx. }
  split.
  - apply deltasFramed_app; [done|].
    rewrite !Forall_app. repeat split.
    + eapply Forall_impl; [exact Htools|]. by intros ? [? ?].
    + eapply Forall_impl; [exact HrEnd|]. by intros ? [? ?].
    + eapply Forall_impl; [exact HtEnd|]. by intros ? [? ?].
    + apply Forall_singleton. intros Hx; exact Hx.
  - rewrite !app_assoc. apply finishOnceLast_snoc.
    rewrite !Forall_app. repeat split.
    + eapply Forall_impl; [exact Hbody|].
      intros [] Hs Hf; first [exact Hf | exact Hs].
    + eapply Forall_impl; [exact Htools|]. by intros ? [? ?].
    + eapply Forall_impl; [exact HrEnd|]. by intros ? [? ?].
    + eapply Forall_impl; [exact HtEnd|]. by intros ? [? ?].
Qed.

(** Events without data are skipped and nothing is read past the sentinel:
    a stream that is closed is the stream of the chunks read. *)
Lemma getMappedStream_chunksRead (events : list SseEvent) :
  closed (getMappedStream events) = true →
  getMappedStream events = getMappedStream (Data <$> chunksRead events).
Proof.
  unfold getMappedStream.
  assert (Hread : ∀ st st', readEvents events st = inl st' →
            readEvents (Data <$> chunksRead events) st = inl st').
  { induction events as [|e events IH]; intros st st'; simpl; [done|].
    destruct e; simpl; auto. done. }
  destruct (readEvents events initialProducer) as [st|st] eqn:Hevents; [|done].
  intros _. by rewrite (Hread _ _ Hevents).
Qed.

(** A payload that does not parse leaves the stream unclosed, with the
    starts and deltas of the chunks before it and no finish event. *)
Lemma getMappedStream_aborted (events : list SseEvent) :
  closed (getMappedStream events) = false →
  Forall startOrDelta (parts (getMappedStream events)).
Proof.
  unfold getMappedStream.
  destruct (readEvents events initialProducer) as [st|st] eqn:Hevents; [done|].
  intros _.
  by destruct (readEvents_invariant events initialProducer st initial_invariant
                 (or_intror Hevents)).
Qed.

(** The same for the stream doStream returns when it streams from the
    backend: the mapped stream behind a stream-start. *)
Lemma streamed_framed (warnings : list Warning) (events : list SseEvent) :
  closed (getMappedStream events) = true →
  framed (StreamStart warnings :: parts (getMappedStream events)).
Proof.
  intros Hclosed.
  apply framed_cons; [intros Hx; exact Hx..|by apply getMappedStream_framed].
Qed.

End StreamingProperties.

(** ** Properties of the language model *)

Section SimulatedStream.
Context {IS : IdSource} {U : Utils}.

Lemma replay_appends (content : list Content) (st : Producer) :
  ∃ new, enqueued (foldl replayPart st content) = enqueued st ++ new.
Proof.
  revert st; induction content as [|part content IH]; intros st; simpl.
  - exists []. by rewrite app_nil_r.
  - destruct (IH (replayPart st part)) as [new ->].
    assert (∃ new1, enqueued (replayPart st part) = enqueued st ++ new1)
      as [new1 ->].
    { destruct part; cbv beta iota delta [replayPart].
      - destruct (truthy (reasoningId st)); simpl; eexists;
          by rewrite <- ?app_assoc.
      - destruct (textDelta_grows text st) as (_ & _ & new1 & -> & _).
        by eexists.
      - by eexists. }
    eexists. by rewrite <- app_assoc.
Qed.

Lemma closeBlocks_appends (st : Producer) :
  ∃ new, enqueued (closeBlocks st) = enqueued st ++ new.
Proof.
  unfold closeBlocks. destruct (truthy (reasoningId st)); simpl;
    destruct (truthy (textId st)); simpl.
  - eexists. by rewrite <- app_assoc.
  - by eexists.
  - by eexists.
  - exists []. by rewrite app_nil_r.
Qed.

(** What the simulated stream starts with when the result of doGenerate
    begins with a reasoning part. *)
Lemma simulatedStream_reasoning_first (warnings : list Warning)
    (response : GenerateResult) (text : string) (rest : list Content) :
  res_content response = CReasoning text :: rest →
  ∃ tail,
    parts (simulatedStream warnings response) =
    [StreamStart warnings; ReasoningStart (generateId 0);
     ReasoningDelta (generateId 1) text] ++ tail.
Proof.
  intros Hcontent. unfold simulatedStream. rewrite Hcontent. simpl.
  match goal with |- context [foldl replayPart ?st rest] =>
    destruct (replay_appends rest st) as [new1 Hq1];
    destruct (closeBlocks_appends (foldl replayPart st rest)) as [new2 Hq2]
  end.
  rewrite Hq2, Hq1. simpl. eexists. by rewrite <- !app_assoc.
Qed.

(** C1, on the simulated stream of doStream.  When the result of doGenerate
    begins with a reasoning part, the third event of the simulated stream
    is a reasoning-delta carrying a fresh id, the second id drawn, whereas
    the only block opened before it carries the first id drawn: the delta
    matches no reasoning-start emitted before it, and the stream is not
    framed. *)
Theorem simulated_reasoning_delta_unframed (warnings : list Warning)
    (response : GenerateResult) (text : string) (rest : list Content) :
  generateId 0 ≠ generateId 1 →
  res_content response = CReasoning text :: rest →
  parts (simulatedStream warnings response) !! 2 =
    Some (ReasoningDelta (generateId 1) text) ∧
  (∀ j, j < 2 →
     parts (simulatedStream warnings response) !! j ≠
     Some (ReasoningStart (generateId 1))) ∧
  ¬ framed (parts (simulatedStream warnings response)).
Proof.
  intros Hfresh Hcontent.
  destruct (simulatedStream_reasoning_first warnings response text rest Hcontent)
    as [tail ->].
  assert (Hbefore : ∀ j, j < 2 →
            ([StreamStart warnings; ReasoningStart (generateId 0);
              ReasoningDelta (generateId 1) text] ++ tail) !! j ≠
            Some (ReasoningStart (generateId 1))).
  { intros [|[|j]] Hj; simpl; [done| |lia]. intros [= Heq]. by apply Hfresh. }
  split; [done|]. split; [done|].
  intros [[_ Hreasoning] _].
  destruct (Hreasoning 2 (generateId 1) text eq_refl) as (j & Hj & Hstart & _).
  by apply (Hbefore j Hj).
Qed.

End SimulatedStream.

Section LanguageModelProperties.
Context {JH : JsonHost} {IS : IdSource} {U : Utils} {B : Backend}.

Lemma tooManyImages_spec (images : list Image) :
  tooManyImages images = true ↔ 2 ≤ length images.
Proof.
  unfold tooManyImages. destruct images as [|? [|? ?]]; simpl; split;
    intros; try done; lia.
Qed.

Lemma unsupported_type_ne (type : string) :
  "Unsupported type: " +:+ type ≠ multipleImages.
Proof. intros [=]. Qed.

(** With too many images both methods stop at their guard. *)
Lemma doGenerate_too_many (options : Options) (aw : Args * list Warning)
    (conv : Converted) :
  getArgs options = Ok aw →
  convertToWorkersAIChatMessages (prompt options) = Ok conv →
  tooManyImages (images conv) = true →
  doGenerate options = throw multipleImages.
Proof.
  intros Hargs Hconv Hmany. unfold doGenerate.
  rewrite Hargs, Hconv. unfold bindRun; simpl. by rewrite Hmany.
Qed.

Lemma doStream_too_many (options : Options) (aw : Args * list Warning)
    (conv : Converted) :
  getArgs options = Ok aw →
  convertToWorkersAIChatMessages (prompt options) = Ok conv →
  tooManyImages (images conv) = true →
  doStream options = throw multipleImages.
Proof.
  intros Hargs Hconv Hmany. unfold doStream.
  rewrite Hargs, Hconv. unfold bindRun at 1 2; simpl.
  destruct (hasTools _ && lastMessageWasUser _).
  - rewrite (doGenerate_too_many options aw conv) by done. done.
  - by rewrite Hmany.
Qed.

(** With at most one image both methods reach the backend, once. *)
Lemma doGenerate_reaches_backend (options : Options) (aw : Args * list Warning)
    (conv : Converted) :
  getArgs options = Ok aw →
  convertToWorkersAIChatMessages (prompt options) = Ok conv →
  tooManyImages (images conv) = false →
  requests (doGenerate options) =
    [buildRequest aw.1 (messages conv) (head (images conv)) false].
Proof.
  intros Hargs Hconv Hfew. unfold doGenerate.
  rewrite Hargs, Hconv. unfold bindRun at 1 2; simpl. rewrite Hfew.
  unfold bindRun, awaitRun; simpl.
  by destruct (binding_run _).
Qed.

Lemma doStream_reaches_backend (options : Options) (aw : Args * list Warning)
    (conv : Converted) :
  getArgs options = Ok aw →
  convertToWorkersAIChatMessages (prompt options) = Ok conv →
  tooManyImages (images conv) = false →
  ∃ stream,
    requests (doStream options) =
      [buildRequest aw.1 (messages conv) (head (images conv)) stream].
Proof.
  intros Hargs Hconv Hfew. unfold doStream.
  rewrite Hargs, Hconv. unfold bindRun at 1 2; simpl.
  destruct (hasTools _ && lastMessageWasUser _).
  - exists false. unfold bindRun.
    rewrite (doGenerate_reaches_backend options aw conv) by done.
    destruct (outcome (doGenerate options)); simpl; by rewrite ?app_nil_r.
  - exists true. rewrite Hfew. unfold bindRun, awaitRun; simpl.
    by destruct (binding_run _).
Qed.

(** C6.  When the converted prompt carries two images or more, doGenerate
    and doStream throw without having issued a request to the backend, and
    what they throw is the multiple-images error as soon as the call
    options are accepted.  When it carries none or one, that error is not
    thrown: either the call options are refused, with another error, or
    the call goes on to its one backend request. *)
Theorem multiple_images_rejected (options : Options) (conv : Converted) :
  convertToWorkersAIChatMessages (prompt options) = Ok conv →
  (2 ≤ length (images conv) →
   ∃ msg,
     doGenerate options = throw msg ∧ doStream options = throw msg ∧
     (isOk (getArgs options) = true → msg = multipleImages)) ∧
  (length (images conv) ≤ 1 →
   doGenerate options ≠ throw multipleImages ∧
   doStream options ≠ throw multipleImages ∧
   (isOk (getArgs options) = true →
    length (requests (doGenerate options)) = 1 ∧
    length (requests (doStream options)) = 1)).
Proof.
  intros Hconv. split.
  - intros Hmany%tooManyImages_spec.
    destruct (getArgs options) as [aw|msg] eqn:Hargs.
    + exists multipleImages.
      by rewrite (doGenerate_too_many options aw conv),
                 (doStream_too_many options aw conv).
    + exists msg. unfold doGenerate, doStream. rewrite Hargs. done.
  - intros Hfew.
    assert (Hguard : tooManyImages (images conv) = false).
    { destruct (tooManyImages _) eqn:Hmany; [|done].
      apply tooManyImages_spec in Hmany. lia. }
    destruct (getArgs options) as [aw|msg] eqn:Hargs.
    + pose proof (doGenerate_reaches_backend options aw conv Hargs Hconv Hguard)
        as Hg.
      destruct (doStream_reaches_backend options aw conv Hargs Hconv Hguard)
        as [stream Hs].
      split; [|split].
      * intros Heq. by rewrite Heq in Hg.
      * intros Heq. by rewrite Heq in Hs.
      * intros _. by rewrite Hg, Hs.
    + unfold doGenerate, doStream. rewrite Hargs.
      unfold bindRun; simpl. destruct options; simpl in *.
      unfold getArgs in Hargs; simpl in Hargs.
      destruct responseFormat0 as [[]|]; simpl in Hargs; try done.
      injection Hargs as <-.
      split; [|split]; [intros [=]..|done].
Qed.

(** The tool calls utils.ts derives from a response, as the specification
    describes them: each comes from an entry of the tool-call list, bears
    its name, and holds the arguments of the entry parsed from their JSON
    text. *)
Lemma specProcessToolCalls_parsed (output : Output) (call : ToolCall) :
  call ∈ Reference.specProcessToolCalls output →
  ∃ raw, raw ∈ default [] (tool_calls output) ∧
    toolName call = raw_name raw ∧
    JSON_parse (raw_arguments raw) = Some (input call).
Proof.
  unfold Reference.specProcessToolCalls. intros Hin.
  apply list_elem_of_omap in Hin as (raw & Hraw & Hcall).
  exists raw. split; [done|]. unfold Reference.specToolCall in Hcall.
  destruct (truthy _); [|done].
  destruct (JSON_parse (raw_arguments raw)) as [parsed|]; [|done].
  simpl in Hcall. by injection Hcall as <-.
Qed.


End LanguageModelProperties.

(** ** Properties of the product recommendation workflow *)

Section WorkflowProperties.
Context {WE : WorkflowEnv}.

(** The workflow returns once its three outside steps have. *)
Lemma run_completes (payload : Params) (fetched : list Product)
    (answer : option string) (rankedIds : list number) :
  fetchProducts (query payload) = Ok fetched →
  rankWithAI (query payload)
    (List.filter
       (ProductRecommendationWorkflow.keepProduct (minPrice payload) (maxPrice payload))
       fetched) = Ok answer →
  parseIds (ProductRecommendationWorkflow.responseOrEmpty answer) = Ok rankedIds →
  isOk (ProductRecommendationWorkflow.run payload) = true.
Proof.
  intros Hfetch Hrank Hparse. unfold ProductRecommendationWorkflow.run.
  rewrite Hfetch; simpl. rewrite Hrank; simpl. by rewrite Hparse.
Qed.

(** C9.  The top products of a completed run are at most three; each is one
    of the fetched products, is rated 2 or more, costs [minPrice] or more
    when a [minPrice] is given, and [maxPrice] or less when a [maxPrice] is
    given. *)
Theorem top_products_filtered (payload : Params) (fetched : list Product)
    (out : RecommendationOutput) :
  fetchProducts (query payload) = Ok fetched →
  ProductRecommendationWorkflow.run payload = Ok out →
  length (topProducts out) ≤ 3 ∧
  ∀ p, p ∈ topProducts out →
    p ∈ fetched ∧
    number_ge (rating p) (Finite 2) = true ∧
    (∀ least, minPrice payload = Some least → number_ge (price p) least = true) ∧
    (∀ most, maxPrice payload = Some most → number_le (price p) most = true).
Proof.
  intros Hfetch. unfold ProductRecommendationWorkflow.run.
  rewrite Hfetch; simpl.
  destruct (rankWithAI _ _) as [answer|msg]; simpl; [|done].
  destruct (parseIds _) as [rankedIds|msg]; simpl; [|done].
  intros [= <-]; simpl. split.
  - rewrite length_take. lia.
  - intros p Hp. apply subseteq_take in Hp.
    apply list_elem_of_omap in Hp as (id & _ & Hfind).
    apply find_some in Hfind as [Hin _].
    apply filter_In in Hin as [Hin Hkeep].
    unfold ProductRecommendationWorkflow.keepProduct in Hkeep.
    apply andb_prop in Hkeep as [Hkeep Hmax].
    apply andb_prop in Hkeep as [Hrating Hmin].
    split; [by apply list_elem_of_In|]. split; [done|]. split.
    + intros least Hleast. by rewrite Hleast in Hmin.
    + intros most Hmost. by rewrite Hmost in Hmax.
Qed.

End WorkflowProperties.

(** ** The properties on the sample inputs *)

(** C3 as stated fails: a user turn holding a part of an unrecognized
    variant is converted, the part printed as the empty string. *)
Lemma unrecognized_user_part_converts :
  convertToWorkersAIChatMessages (JH:=Reference.json) [Sample.strangeUser] =
  Ok {| images := [];
        messages := [ {| msg_role := RUser; msg_content := "hi" +:+ LF;
                         msg_name := None; msg_tool_call_id := None;
                         msg_tool_calls := None |} ] |}.
Proof. reflexivity. Qed.

(** C3, as amended, on a prompt whose assistant turn holds a file and whose
    last turn has an unrecognized role. *)
Lemma unsupported_input_is_fatal_witness :
  (∃ before first after msg out,
     Sample.greeting ++ Sample.assistantFile :: [TOther "developer"] =
       before ++ first :: after ∧
     convertToWorkersAIChatMessages (JH:=Reference.json) before = Ok out ∧
     Fatal first msg ∧
     convertToWorkersAIChatMessages (JH:=Reference.json)
       (Sample.greeting ++ Sample.assistantFile :: [TOther "developer"]) =
       Throw msg ∧
     ∀ others,
       convertToWorkersAIChatMessages (JH:=Reference.json)
         (before ++ first :: others) = Throw msg) ∧
  (∀ before out type pre post,
     convertToWorkersAIChatMessages (JH:=Reference.json) before = Ok out →
     convertToWorkersAIChatMessages (JH:=Reference.json)
       (before ++ [TUser (pre ++ POther type :: post)]) =
       Ok {| images := images out ++ userImages (pre ++ post);
             messages := messages out ++ [userMessage (pre ++ PText "" :: post)] |}).
Proof.
  apply (unsupported_input_is_fatal (JH:=Reference.json)
           (Sample.greeting ++ Sample.assistantFile :: [TOther "developer"])
           Sample.assistantFile "Unsupported part type: file").
  - apply elem_of_app. right. apply elem_of_cons. by left.
  - apply (FatalPart [PText "see"] (PFile (DataBytes []) "image/png" None) []).
    + repeat constructor.
    + simpl. tauto.
Defined.

(** The error of the sample is that of its assistant turn, the first fatal
    turn, not that of the unrecognized role after it. *)
Lemma first_fatal_turn_decides :
  convertToWorkersAIChatMessages (JH:=Reference.json)
    (Sample.greeting ++ Sample.assistantFile :: [TOther "developer"]) =
  Throw "Unsupported part type: file".
Proof. reflexivity. Qed.

(** C7 as stated fails: text that follows the last tool call is appended to
    its summary. *)
Lemma text_after_tool_call_is_kept :
  msg_content <$> okValue (assistantMessage (JH:=Reference.json) Sample.callThenText) =
  Some (Reference.stringify
          (JObj [("name", JStr "get"); ("parameters", JObj [("a", JNum 1)])])
        +:+ "Done.") ∧
  Reference.stringify
    (JObj [("name", JStr "get"); ("parameters", JObj [("a", JNum 1)])])
  +:+ "Done." ≠
  Reference.stringify
    (JObj [("name", JStr "get"); ("parameters", JObj [("a", JNum 1)])]).
Proof. split; [reflexivity|]. vm_compute. discriminate. Qed.

(** C7, as amended, on a turn that reasons, calls two tools and concludes. *)
Lemma assistant_content_last_tool_call_witness :
  (∀ acc, ∃ acc',
     assistantPart (JH:=Reference.json) acc Sample.getCall = Ok acc' ∧
     acc_text acc' =
       Reference.stringify
         (JObj [("name", JStr "get"); ("parameters", JObj [("a", JNum 1)])])) ∧
  ∃ m,
    assistantMessage (JH:=Reference.json)
      ([PReasoning "hm"; Sample.putCall] ++ Sample.getCall :: [PText "Done."]) = Ok m ∧
    msg_content m =
      Reference.stringify
        (JObj [("name", JStr "get"); ("parameters", JObj [("a", JNum 1)])]) +:+
      foldr String.append "" (partText <$> [PText "Done."]).
Proof.
  apply (assistant_content_last_tool_call (JH:=Reference.json)
           [PReasoning "hm"; Sample.putCall] [PText "Done."]
           "call-1" "get" (JObj [("a", JNum 1)])).
  - repeat constructor.
  - repeat constructor.
Defined.

(** C10 on a user turn that refers to a picture by its URL. *)
Lemma non_byte_file_is_dropped_witness :
  userPart (PFile (DataUrl "https://example.com/cat.png") "image/png" None) =
    (Some "", []) ∧
  ∃ m,
    convertToWorkersAIChatMessages (JH:=Reference.json)
      (Sample.greeting ++
       [TUser ([PText "look"] ++
               PFile (DataUrl "https://example.com/cat.png") "image/png" None ::
               [PText "please"])]) =
      Ok {| images := images Sample.greetingConverted ++
                      userImages [PText "look"] ++ userImages [PText "please"];
            messages := messages Sample.greetingConverted ++ [m] |} ∧
    msg_role m = RUser ∧
    msg_content m =
      join LF ((fst ∘ userPart <$> [PText "look"]) ++ Some "" ::
               (fst ∘ userPart <$> [PText "please"])).
Proof.
  apply (non_byte_file_is_dropped (JH:=Reference.json) Sample.greeting
           Sample.greetingConverted (DataUrl "https://example.com/cat.png")
           "image/png" None [PText "look"] [PText "please"]).
  - reflexivity.
  - exact I.
Defined.

(** C1 on the replay of a result that reasons before it answers, with ids
    that are numbered. *)
Lemma simulated_reasoning_delta_unframed_witness :
  parts (simulatedStream (IS:=Reference.ids) (U:=Reference.utils) []
           Sample.reasonedResult) !! 2 =
    Some (ReasoningDelta (generateId (IdSource:=Reference.ids) 1) "hm") ∧
  (∀ j, j < 2 →
     parts (simulatedStream (IS:=Reference.ids) (U:=Reference.utils) []
              Sample.reasonedResult) !! j ≠
     Some (ReasoningStart (generateId (IdSource:=Reference.ids) 1))) ∧
  ¬ framed (parts (simulatedStream (IS:=Reference.ids) (U:=Reference.utils) []
                     Sample.reasonedResult)).
Proof.
  apply (simulated_reasoning_delta_unframed (IS:=Reference.ids)
           (U:=Reference.utils) [] Sample.reasonedResult "hm" [CText "Hello"]).
  - vm_compute. discriminate.
  - reflexivity.
Defined.

(** The same through doStream: tools are enabled, the prompt ends with a
    user turn, and the backend output carries reasoning content. *)
Lemma doStream_simulated_sample :
  outcome (doStream (JH:=Reference.json) (IS:=Reference.ids) (U:=Reference.utils)
             (B:=Reference.backend (ReplyOutput Sample.fullOutput))
             Sample.question) =
  Ok {| parts :=
          [ StreamStart []; ReasoningStart "id-0"; ReasoningDelta "id-1" "hm";
            TextStart "id-2"; TextDelta "id-2" "Hello";
            ToolCallPart {| toolCallId := "call-1"; toolName := "get";
                            input := JArr [JNum 1; JNum 2] |};
            ReasoningEnd "id-0"; TextEnd "id-2";
            Finish FinishToolCalls
              {| outputTokens := 4; inputTokens := 3; totalTokens := 7 |} ];
        closed := true |}.
Proof. vm_compute. reflexivity. Qed.

Lemma reference_ids_nonempty (n : nat) :
  generateId (IdSource:=Reference.ids) n ≠ "".
Proof. unfold generateId, Reference.ids. rewrite append_cons. discriminate. Qed.

(** C4 on the sample stream. *)
Lemma end_of_input_order_witness :
  ∃ body,
    Forall startOrDelta body ∧
    getMappedStream (IS:=Reference.ids) (U:=Reference.utils)
      (Data <$> Sample.busyStream) =
      {| parts :=
           body ++
           (if allFragments Sample.busyStream is [] then []
            else ToolCallPart <$>
                 processPartialToolCalls (Utils:=Reference.utils)
                   (allFragments Sample.busyStream)) ++
           (if last (reasoningStarts body) is Some id
            then [ReasoningEnd id] else []) ++
           (if last (textStarts body) is Some id then [TextEnd id] else []) ++
           [Finish FinishStop (lastSeenUsage Sample.busyStream)];
         closed := true |}.
Proof.
  apply (end_of_input_order (IS:=Reference.ids) (U:=Reference.utils)
           Sample.busyStream).
  exact reference_ids_nonempty.
Defined.

(** The stream of the sample, in full. *)
Lemma busyStream_mapped :
  getMappedStream (IS:=Reference.ids) (U:=Reference.utils)
    (Data <$> Sample.busyStream) =
  {| parts :=
       [ ReasoningStart "id-0"; ReasoningDelta "id-0" "hm";
         TextStart "id-1"; TextDelta "id-1" "Hello";
         ToolCallPart {| toolCallId := ""; toolName := "get";
                         input := JArr [JNum 1; JNum 2] |};
         ReasoningEnd "id-0"; TextEnd "id-1";
         Finish FinishStop
           {| outputTokens := 4; inputTokens := 3; totalTokens := 7 |} ];
     closed := true |}.
Proof. vm_compute. reflexivity. Qed.

(** C5 on a stream that reports 3 and 0 tokens, then 1 and 1: the finish
    event counts 1, 1 and 2, not 4, 1 and 5. *)
Lemma usage_last_write_wins_witness :
  last (parts (getMappedStream (IS:=Reference.ids) (U:=Reference.utils)
                 (Data <$> ([Sample.usageChunk 3 0; Sample.textChunk "Hello"] ++
                            Sample.usageChunk 1 1 :: [Sample.textChunk "!"])))) =
  Some (Finish FinishStop
          {| outputTokens := 1; inputTokens := 1; totalTokens := 1 + 1 |}).
Proof.
  apply (usage_last_write_wins (IS:=Reference.ids) (U:=Reference.utils)
           [Sample.usageChunk 3 0; Sample.textChunk "Hello"]
           [Sample.textChunk "!"] (Sample.usageChunk 1 1)
           {| prompt_tokens := 1; completion_tokens := 1 |}).
  - reflexivity.
  - repeat constructor.
Defined.

(** C6 on a call with two pictures and on a call with one. *)
Lemma multiple_images_rejected_witness :
  (∃ msg,
     doGenerate (JH:=Reference.json) (U:=Reference.utils)
       (B:=Reference.backend (ReplyOutput Sample.fullOutput))
       Sample.twoPictures = throw msg ∧
     doStream (JH:=Reference.json) (IS:=Reference.ids) (U:=Reference.utils)
       (B:=Reference.backend (ReplyOutput Sample.fullOutput))
       Sample.twoPictures = throw msg ∧
     (isOk (getArgs (U:=Reference.utils)
              (B:=Reference.backend (ReplyOutput Sample.fullOutput))
              Sample.twoPictures) = true →
      msg = multipleImages)) ∧
  (doGenerate (JH:=Reference.json) (U:=Reference.utils)
     (B:=Reference.backend (ReplyOutput Sample.fullOutput))
     Sample.onePicture ≠ throw multipleImages ∧
   doStream (JH:=Reference.json) (IS:=Reference.ids) (U:=Reference.utils)
     (B:=Reference.backend (ReplyOutput Sample.fullOutput))
     Sample.onePicture ≠ throw multipleImages ∧
   (isOk (getArgs (U:=Reference.utils)
            (B:=Reference.backend (ReplyOutput Sample.fullOutput))
            Sample.onePicture) = true →
    length (requests
              (doGenerate (JH:=Reference.json) (U:=Reference.utils)
                 (B:=Reference.backend (ReplyOutput Sample.fullOutput))
                 Sample.onePicture)) = 1 ∧
    length (requests
              (doStream (JH:=Reference.json) (IS:=Reference.ids)
                 (U:=Reference.utils)
                 (B:=Reference.backend (ReplyOutput Sample.fullOutput))
                 Sample.onePicture)) = 1)).
Proof.
  split.
  - apply (multiple_images_rejected (JH:=Reference.json) (IS:=Reference.ids)
             (U:=Reference.utils)
             (B:=Reference.backend (ReplyOutput Sample.fullOutput))
             Sample.twoPictures Sample.twoPicturesConverted).
    + reflexivity.
    + simpl. lia.
  - apply (multiple_images_rejected (JH:=Reference.json) (IS:=Reference.ids)
             (U:=Reference.utils)
             (B:=Reference.backend (ReplyOutput Sample.fullOutput))
             Sample.onePicture Sample.onePictureConverted).
    + reflexivity.
    + simpl. lia.
Defined.



(** C9 on five shirts, of which one is too expensive and one rated too
    low, ranked by a model that also names an id that does not exist. *)
Lemma top_products_filtered_witness :
  length (topProducts Sample.shirtAdvice) ≤ 3 ∧
  ∀ p, p ∈ topProducts Sample.shirtAdvice →
    p ∈ Sample.shirts ∧
    number_ge (rating p) (Finite 2) = true ∧
    (∀ least, minPrice Sample.shirtQuery = Some least →
       number_ge (price p) least = true) ∧
    (∀ most, maxPrice Sample.shirtQuery = Some most →
       number_le (price p) most = true).
Proof.
  apply (top_products_filtered
           (WE:=Reference.workflowEnv Sample.shirts Sample.shirtRanking)
           Sample.shirtQuery Sample.shirts Sample.shirtAdvice).
  - reflexivity.
  - vm_compute. reflexivity.
Defined.

(** ** Further properties of the message converter *)

Section ConverterComposition.
Context {JH : JsonHost}.

Lemma appendConverted_assoc (a b c : Converted) :
  appendConverted (appendConverted a b) c = appendConverted a (appendConverted b c).
Proof. unfold appendConverted; simpl. by rewrite !app_assoc. Qed.

Lemma appendConverted_empty_r (a : Converted) :
  appendConverted a {| images := []; messages := [] |} = a.
Proof. destruct a. unfold appendConverted; simpl. by rewrite !app_nil_r. Qed.

Lemma appendConverted_empty_l (a : Converted) :
  appendConverted {| images := []; messages := [] |} a = a.
Proof. by destruct a. Qed.

(** What a turn adds does not depend on what was converted before it. *)
Lemma convertTurn_adds (out : Converted) (turn : Turn) :
  convertTurn out turn =
  (added ←? convertTurn {| images := []; messages := [] |} turn;
   Ok (appendConverted out added)).
Proof.
  destruct turn as [text|content|content|content|role]; simpl;
    unfold appendConverted; simpl; rewrite ?app_nil_r; try done.
  destruct (assistantMessage content); simpl; by rewrite ?app_nil_r.
Qed.

Lemma convertTurns_adds (prompt : list Turn) (out : Converted) :
  convertTurns out prompt =
  (added ←? convertTurns {| images := []; messages := [] |} prompt;
   Ok (appendConverted out added)).
Proof.
  revert out; induction prompt as [|turn prompt IH]; intros out; simpl.
  - by rewrite appendConverted_empty_r.
  - rewrite (convertTurn_adds out turn).
    destruct (convertTurn {| images := []; messages := [] |} turn)
      as [added|msg]; simpl; [|done].
    rewrite (IH (appendConverted out added)), (IH added).
    destruct (convertTurns {| images := []; messages := [] |} prompt)
      as [more|msg]; simpl; [|done].
    by rewrite appendConverted_assoc.
Qed.

(** X1.  Conversion composes: the conversion of two prompts put end to end
    is the conversion of the first followed by that of the second, for the
    messages and for the images; and it throws what the first throws, or
    else what the second throws. *)
Theorem convert_app (first second : list Turn) :
  convertToWorkersAIChatMessages (first ++ second) =
  (a ←? convertToWorkersAIChatMessages first;
   b ←? convertToWorkersAIChatMessages second;
   Ok (appendConverted a b)).
Proof.
  unfold convertToWorkersAIChatMessages. rewrite convertTurns_app.
  destruct (convertTurns _ first) as [a|msg]; simpl; [|done].
  apply convertTurns_adds.
Qed.

Lemma userImages_byteFiles (content : list Part) :
  userImages content = byteFiles content.
Proof.
  unfold userImages, byteFiles.
  induction content as [|p content IH]; [done|].
  rewrite !fmap_cons. simpl concat. rewrite IH.
  by destruct p as [| |[]| | |].
Qed.

(** What a prompt that converts is converted to, turn by turn. *)
Lemma convertTurns_shape (prompt : list Turn) (out : Converted) :
  convertTurns {| images := []; messages := [] |} prompt = Ok out →
  msg_role <$> messages out = concat (turnRoles <$> prompt) ∧
  images out = promptByteFiles prompt.
Proof.
  revert out; induction prompt as [|turn prompt IH]; intros out.
  - by intros [= <-].
  - simpl.
    destruct (convertTurn _ turn) as [added|msg] eqn:Hturn; simpl; [|done].
    rewrite (convertTurns_adds prompt added).
    destruct (convertTurns _ prompt) as [more|msg] eqn:Hmore; simpl; [|done].
    intros [= <-]. destruct (IH more eq_refl) as [Hroles Himages].
    unfold appendConverted; simpl.
    rewrite fmap_app, Hroles, Himages. unfold promptByteFiles; simpl.
    destruct turn as [text|content|content|content|role]; simpl in Hturn.
    + by injection Hturn as <-.
    + injection Hturn as <-. simpl. by rewrite userImages_byteFiles.
    + destruct (assistantMessage content) as [m|] eqn:Hm; [|done].
      simpl in Hturn. injection Hturn as <-. simpl. split; [|done].
      unfold assistantMessage in Hm.
      destruct (assistantParts _ content); [|done]. simpl in Hm.
      by injection Hm as <-.
    + injection Hturn as <-. simpl. split; [|done]. f_equal.
      rewrite fmap_imap. clear.
      change (λ n, msg_role ∘ toolMessage n) with (λ (n : nat) (_ : ToolResult), RTool).
      induction content as [|r content IH]; [done|]. simpl. f_equal.
      exact IH.
    + done.
Qed.

(** X2.  The messages of a converted prompt follow its turns, in order: one
    system, user or assistant message per turn of that role, and one tool
    message per result of a tool turn (none for a tool turn without
    results). *)
Theorem converted_roles_follow_turns (prompt : list Turn) (out : Converted) :
  convertToWorkersAIChatMessages prompt = Ok out →
  msg_role <$> messages out = concat (turnRoles <$> prompt).
Proof.
  unfold convertToWorkersAIChatMessages. intros Hconv.
  destruct (convertTurns_shape prompt out Hconv) as [Hroles _].
  exact Hroles.
Qed.

(** X3.  The images of a converted prompt are the file parts of its user
    turns that hold bytes, in prompt order and with their media type and
    provider options; files of other turns and files given by URL or
    base64 text add none. *)
Theorem converted_images_are_byte_files (prompt : list Turn) (out : Converted) :
  convertToWorkersAIChatMessages prompt = Ok out →
  images out = promptByteFiles prompt.
Proof.
  unfold convertToWorkersAIChatMessages. intros Hconv.
  destruct (convertTurns_shape prompt out Hconv) as [_ Himages].
  exact Himages.
Qed.

(** The tool calls the assistant loop collects, up to their ids. *)
Lemma assistantParts_rename (f : string → string) (content : list Part)
    (acc acc' : AssistantAcc) :
  acc_text acc = acc_text acc' →
  tc_function <$> acc_toolCalls acc = tc_function <$> acc_toolCalls acc' →
  match assistantParts acc (renamePart f <$> content),
        assistantParts acc' content with
  | Ok a, Ok a' =>
      acc_text a = acc_text a' ∧
      tc_function <$> acc_toolCalls a = tc_function <$> acc_toolCalls a'
  | Throw msg, Throw msg' => msg = msg'
  | _, _ => False
  end.
Proof.
  revert acc acc'; induction content as [|p content IH]; intros acc acc' Ht Hc;
    [done|].
  rewrite fmap_cons. simpl.
  destruct p; simpl; try done; apply IH; simpl; try congruence.
  by rewrite !fmap_app, Hc.
Qed.

Lemma renumber_functions (calls calls' : list BackendToolCall) :
  tc_function <$> calls = tc_function <$> calls' →
  imap renumber calls = imap renumber calls'.
Proof.
  intros Heq.
  assert (Hview : ∀ l, imap renumber l =
            imap (λ i fn, renumber i {| tc_function := fn; tc_id := "" |})
                 (tc_function <$> l)).
  { intros l. rewrite imap_fmap. by apply imap_ext. }
  by rewrite !Hview, Heq.
Qed.

Lemma assistantMessage_rename (f : string → string) (content : list Part) :
  assistantMessage (renamePart f <$> content) = assistantMessage content.
Proof.
  unfold assistantMessage.
  pose proof (assistantParts_rename f content
                {| acc_text := ""; acc_toolCalls := [] |}
                {| acc_text := ""; acc_toolCalls := [] |} eq_refl eq_refl) as Hr.
  destruct (assistantParts _ (renamePart f <$> content)) as [a|msg],
           (assistantParts _ content) as [a'|msg']; try done; simpl.
  - destruct Hr as [Ht Hc]. rewrite Ht.
    rewrite <- (length_fmap tc_function (acc_toolCalls a)), Hc, length_fmap.
    by rewrite (renumber_functions _ _ Hc).
  - by rewrite Hr.
Qed.

(** X4.  The tool-call ids of the caller play no role: a prompt converts to
    the same messages and images, or to the same error, whatever the
    [toolCallId] of its tool-call parts and of its tool results are. *)
Theorem tool_call_ids_are_ignored (f : string → string) (prompt : list Turn) :
  convertToWorkersAIChatMessages (renameTurn f <$> prompt) =
  convertToWorkersAIChatMessages prompt.
Proof.
  unfold convertToWorkersAIChatMessages.
  generalize {| images := []; messages := [] |}.
  induction prompt as [|turn prompt IH]; intros out; [done|].
  rewrite fmap_cons. simpl.
  assert (Hturn : convertTurn out (renameTurn f turn) = convertTurn out turn).
  { destruct turn as [text|content|content|results|role]; simpl; try done.
    - assert (Hparts : userPart <$> (renamePart f <$> content) =
                       userPart <$> content).
      { rewrite <- list_fmap_compose. apply list_fmap_ext. by intros i [] _. }
      unfold userImages, userMessage. by rewrite Hparts.
    - by rewrite assistantMessage_rename.
    - do 3 f_equal. rewrite imap_fmap. by apply imap_ext. }
  rewrite Hturn. destruct (convertTurn out turn); simpl; [apply IH|done].
Qed.

(** X5.  The [tool_calls] of a converted assistant message are left out
    when the turn has no tool-call part; otherwise there is one per
    tool-call part, in order, with the tool name, the JSON text of the
    input as arguments and the id [functions.<name>:<position>]. *)
Theorem assistant_tool_calls_listed (content : list Part) :
  Forall assistantSupported content →
  ∃ m,
    assistantMessage content = Ok m ∧
    msg_tool_calls m =
      (if toolCallsOf content is [] then None
       else Some (imap (λ i call,
                          {| tc_function := {| fn_arguments := JSON_stringify call.2;
                                               fn_name := call.1 |};
                             tc_id := functionsId call.1 i |})
                       (toolCallsOf content))).
Proof.
  intros Hall. unfold assistantMessage.
  assert (Hparts : ∀ acc, ∃ acc',
            assistantParts acc content = Ok acc' ∧
            tc_function <$> acc_toolCalls acc' =
              (tc_function <$> acc_toolCalls acc) ++
              ((λ call, {| fn_arguments := JSON_stringify call.2;
                           fn_name := call.1 |}) <$> toolCallsOf content)).
  { induction Hall as [|p content Hp _ IH]; intros acc; simpl.
    - exists acc. by rewrite app_nil_r.
    - destruct p; simpl in Hp; try done; simpl;
        match goal with |- context [assistantParts ?a content] =>
          destruct (IH a) as (acc' & -> & Hc) end;
        exists acc'; (split; [done|]); rewrite Hc; simpl; [done..|].
      by rewrite fmap_app, <- app_assoc. }
  destruct (Hparts {| acc_text := ""; acc_toolCalls := [] |}) as (acc & -> & Hc).
  simpl in *. eexists. split; [reflexivity|]. simpl.
  assert (Hlen : length (acc_toolCalls acc) = length (toolCallsOf content)).
  { by rewrite <- (length_fmap tc_function), Hc, length_fmap. }
  destruct (toolCallsOf content) as [|call calls] eqn:Hcalls.
  - destruct (acc_toolCalls acc); [done|]. done.
  - destruct (acc_toolCalls acc) as [|c cs] eqn:Hacc; [done|].
    change (0 <? length (c :: cs))%nat with true. cbv iota. f_equal.
    apply list_eq. intros i. rewrite !list_lookup_imap.
    assert (Hi : (tc_function <$> c :: cs) !! i =
                 ((λ call0, {| fn_arguments := JSON_stringify call0.2;
                               fn_name := call0.1 |}) <$> call :: calls) !! i)
      by by rewrite Hc.
    rewrite !list_lookup_fmap in Hi.
    destruct ((c :: cs) !! i) as [ci|], ((call :: calls) !! i) as [calli|];
      simpl in *; try done.
    injection Hi as Hi. unfold renumber. rewrite Hi. done.
Qed.

(** X6.  An assistant turn of text and reasoning parts only is converted to
    a message whose content is the texts of the parts put end to end,
    reasoning included, and which has no [tool_calls]. *)
Theorem text_only_assistant_turn (content : list Part) :
  Forall textual content →
  assistantMessage content =
    Ok {| msg_role := RAssistant;
          msg_content := foldr String.append "" (partText <$> content);
          msg_name := None; msg_tool_call_id := None; msg_tool_calls := None |}.
Proof.
  intros Hall. unfold assistantMessage.
  rewrite (assistantParts_textual content _ Hall). simpl. done.
Qed.

Lemma append_cancel_l (s a b : string) : s +:+ a = s +:+ b → a = b.
Proof.
  induction s as [|c s IH]; [done|]. rewrite !append_cons. intros [= Heq]. auto.
Qed.

Lemma functionsId_index_inj (name : string) (i j : nat) :
  functionsId name i = functionsId name j → i = j.
Proof.
  unfold functionsId. intros Heq.
  do 3 apply append_cancel_l in Heq. by apply (inj pretty).
Qed.

(** X7.  The id of a tool result depends on its position in its own tool
    turn only: whatever comes before the turn, the result at position [i]
    is given [functions.<toolName>:<i>], which is the id of a tool call of
    that name at position [i] and of no other position.  Results split
    over several tool turns are numbered from 0 again in each. *)
Theorem tool_result_id_is_local (before : list Turn) (out : Converted)
    (results : list ToolResult) :
  convertToWorkersAIChatMessages before = Ok out →
  ∃ added,
    convertToWorkersAIChatMessages (before ++ [TTool results]) =
      Ok {| images := images out; messages := messages out ++ added |} ∧
    length added = length results ∧
    ∀ i r, results !! i = Some r →
      ∃ m, added !! i = Some m ∧
        msg_name m = Some (tr_toolName r) ∧
        msg_content m = JSON_stringify (tr_output r) ∧
        msg_tool_call_id m =
          Some ("functions." +:+ tr_toolName r +:+ ":" +:+ pretty i) ∧
        ∀ j, j ≠ i →
          "functions." +:+ tr_toolName r +:+ ":" +:+ pretty j ≠
          "functions." +:+ tr_toolName r +:+ ":" +:+ pretty i.
Proof.
  intros Hbefore. exists (imap toolMessage results). split; [|split].
  - unfold convertToWorkersAIChatMessages in *.
    by rewrite convertTurns_app, Hbefore.
  - apply length_imap.
  - intros i r Hr. exists (toolMessage i r). split.
    + by rewrite list_lookup_imap, Hr.
    + repeat split. intros j Hj Heq. by apply Hj, (functionsId_index_inj _ _ _ Heq).
Qed.

(** Two prompts that convert, put end to end. *)
Lemma convert_app_ok (first second : list Turn) (a b : Converted) :
  convertToWorkersAIChatMessages first = Ok a →
  convertToWorkersAIChatMessages second = Ok b →
  convertToWorkersAIChatMessages (first ++ second) = Ok (appendConverted a b).
Proof.
  unfold convertToWorkersAIChatMessages. intros Hfirst Hsecond.
  rewrite convertTurns_app, Hfirst. simpl.
  rewrite (convertTurns_adds second a), Hsecond. done.
Qed.

(** C2 (tool-call id symmetry).  Wherever an assistant turn stands in a
    prompt, and wherever after it a tool turn stands whose results carry
    the tool names of the turn's tool calls, in the same order: the
    assistant turn converts to one message and the tool turn to one message
    per result; the [tool_call_id] of the result at position [i] is the
    text [functions.<toolName>:<i>], the [id] of the tool call at position
    [i] of the assistant message is the text [functions.<name>:<i>], the
    two names are the same and so are the two ids; and two results of one
    tool at different positions are given different ids. *)
Theorem tool_call_id_symmetry (before between after : list Turn)
    (head middle tail : Converted) (content : list Part)
    (results : list ToolResult) :
  convertToWorkersAIChatMessages before = Ok head →
  convertToWorkersAIChatMessages between = Ok middle →
  convertToWorkersAIChatMessages after = Ok tail →
  Forall assistantSupported content →
  tr_toolName <$> results = toolCallNames content →
  ∃ assistant toolMessages,
    convertToWorkersAIChatMessages
      (before ++ TAssistant content :: between ++ TTool results :: after) =
      Ok {| images := images head ++ images middle ++ images tail;
            messages := messages head ++ assistant :: messages middle ++
                        toolMessages ++ messages tail |} ∧
    length toolMessages = length results ∧
    length (default [] (msg_tool_calls assistant)) = length results ∧
    (∀ i r, results !! i = Some r →
       ∃ m call,
         toolMessages !! i = Some m ∧
         default [] (msg_tool_calls assistant) !! i = Some call ∧
         fn_name (tc_function call) = tr_toolName r ∧
         msg_tool_call_id m =
           Some ("functions." +:+ tr_toolName r +:+ ":" +:+ pretty i) ∧
         tc_id call =
           "functions." +:+ fn_name (tc_function call) +:+ ":" +:+ pretty i ∧
         msg_tool_call_id m = Some (tc_id call)) ∧
    (∀ i j m m' r r',
       results !! i = Some r → results !! j = Some r' →
       toolMessages !! i = Some m → toolMessages !! j = Some m' →
       tr_toolName r = tr_toolName r' → i ≠ j →
       msg_tool_call_id m ≠ msg_tool_call_id m').
Proof.
  intros Hhead Hmiddle Htail Hall Hnames.
  destruct (assistantMessage_calls content Hall) as (a & Ha & Hcalls & Hids).
  exists a, (imap toolMessage results).
  assert (Hlen : length (default [] (msg_tool_calls a)) = length results).
  { rewrite <- (length_fmap (fn_name ∘ tc_function)), Hcalls, <- Hnames.
    by rewrite length_fmap. }
  split; [|split; [|split; [|split]]].
  - assert (Hassistant : convertToWorkersAIChatMessages [TAssistant content] =
                         Ok {| images := []; messages := [a] |}).
    { unfold convertToWorkersAIChatMessages. simpl. by rewrite Ha. }
    assert (Htool : convertToWorkersAIChatMessages [TTool results] =
                    Ok {| images := []; messages := imap toolMessage results |})
      by done.
    change (before ++ TAssistant content :: between ++ TTool results :: after)
      with (before ++ [TAssistant content] ++ between ++ [TTool results] ++ after).
    rewrite (convert_app_ok _ _ _ _ Hhead
               (convert_app_ok _ _ _ _ Hassistant
                  (convert_app_ok _ _ _ _ Hmiddle
                     (convert_app_ok _ _ _ _ Htool Htail)))).
    done.
  - by rewrite length_imap.
  - done.
  - intros i r Hr.
    destruct (lookup_lt_is_Some_2 (default [] (msg_tool_calls a)) i) as [call Hc].
    { rewrite Hlen. by eapply lookup_lt_Some. }
    assert (Hname : fn_name (tc_function call) = tr_toolName r).
    { assert (Hn : ((fn_name ∘ tc_function) <$> default [] (msg_tool_calls a)) !! i
                   = (tr_toolName <$> results) !! i) by by rewrite Hcalls, Hnames.
      rewrite !list_lookup_fmap, Hc, Hr in Hn. simpl in Hn. by inversion Hn. }
    exists (toolMessage i r), call.
    split; [by rewrite list_lookup_imap, Hr|].
    split; [done|]. split; [done|]. split; [done|].
    split; [exact (Hids i call Hc)|].
    rewrite (Hids i call Hc), Hname. done.
  - intros i j m m' r r' Hr Hr' Hm Hm' Hsame Hij.
    rewrite list_lookup_imap, Hr in Hm. rewrite list_lookup_imap, Hr' in Hm'.
    simpl in Hm, Hm'. injection Hm as <-. injection Hm' as <-. simpl.
    rewrite Hsame. intros Heq. apply (inj Some) in Heq.
    by apply Hij, (functionsId_index_inj _ _ _ Heq).
Qed.

End ConverterComposition.

(** C2 on a conversation in which a user turn stands between the
    assistant turn with its two tool calls and the tool turn with their two
    results. *)
Lemma tool_call_id_symmetry_witness :
  ∃ assistant toolMessages,
    convertToWorkersAIChatMessages (JH:=Reference.json)
      (Sample.greeting ++ TAssistant Sample.twoCalls ::
       [TUser [PText "describe"; Sample.picture]] ++
       TTool [Sample.getResult; Sample.putResult] :: Sample.greeting) =
      Ok {| images := [] ++ [Sample.pictureImage] ++ [];
            messages := [systemMessage "Be brief."] ++ assistant ::
                        [userMessage [PText "describe"; Sample.picture]] ++
                        toolMessages ++ [systemMessage "Be brief."] |} ∧
    length toolMessages = 2 ∧
    length (default [] (msg_tool_calls assistant)) = 2 ∧
    (∀ i r, [Sample.getResult; Sample.putResult] !! i = Some r →
       ∃ m call,
         toolMessages !! i = Some m ∧
         default [] (msg_tool_calls assistant) !! i = Some call ∧
         fn_name (tc_function call) = tr_toolName r ∧
         msg_tool_call_id m =
           Some ("functions." +:+ tr_toolName r +:+ ":" +:+ pretty i) ∧
         tc_id call =
           "functions." +:+ fn_name (tc_function call) +:+ ":" +:+ pretty i ∧
         msg_tool_call_id m = Some (tc_id call)) ∧
    (∀ i j m m' r r',
       [Sample.getResult; Sample.putResult] !! i = Some r →
       [Sample.getResult; Sample.putResult] !! j = Some r' →
       toolMessages !! i = Some m → toolMessages !! j = Some m' →
       tr_toolName r = tr_toolName r' → i ≠ j →
       msg_tool_call_id m ≠ msg_tool_call_id m').
Proof.
  apply (tool_call_id_symmetry (JH:=Reference.json) Sample.greeting
           [TUser [PText "describe"; Sample.picture]] Sample.greeting
           Sample.greetingConverted Sample.onePictureConverted
           Sample.greetingConverted Sample.twoCalls
           [Sample.getResult; Sample.putResult]).
  - reflexivity.
  - reflexivity.
  - reflexivity.
  - repeat constructor.
  - reflexivity.
Defined.

Lemma converted_roles_follow_turns_witness :
  msg_role <$> messages Sample.talkConverted =
  concat (turnRoles <$> Sample.talk).
Proof.
  apply (converted_roles_follow_turns (JH:=Reference.json) Sample.talk
           Sample.talkConverted).
  reflexivity.
Defined.

Lemma converted_images_are_byte_files_witness :
  images Sample.talkConverted = promptByteFiles Sample.talk.
Proof.
  apply (converted_images_are_byte_files (JH:=Reference.json) Sample.talk
           Sample.talkConverted).
  reflexivity.
Defined.

(** ** Further properties of the streaming mapper *)

Section MapperContents.
Context {IS : IdSource} {U : Utils}.

(** What a delta enqueues, and what it leaves in the id variables. *)
Lemma textDelta_enqueued (d : string) (st : Producer) :
  enqueued (textDelta d st) =
    enqueued st ++
    (if truthy (textId st) then [] else [TextStart (generateId (drawn st))]) ++
    [TextDelta (if truthy (textId st) then joinItem (textId st)
                else generateId (drawn st)) d] ∧
  textId (textDelta d st) =
    (if truthy (textId st) then textId st else Some (generateId (drawn st))) ∧
  reasoningId (textDelta d st) = reasoningId st.
Proof.
  unfold textDelta. destruct (truthy (textId st)); simpl; [done|].
  by rewrite <- app_assoc.
Qed.

Lemma reasoningDelta_enqueued (d : string) (st : Producer) :
  enqueued (reasoningDelta d st) =
    enqueued st ++
    (if truthy (reasoningId st) then []
     else [ReasoningStart (generateId (drawn st))]) ++
    [ReasoningDelta (if truthy (reasoningId st) then joinItem (reasoningId st)
                     else generateId (drawn st)) d] ∧
  reasoningId (reasoningDelta d st) =
    (if truthy (reasoningId st) then reasoningId st
     else Some (generateId (drawn st))) ∧
  textId (reasoningDelta d st) = textId st.
Proof.
  unfold reasoningDelta. destruct (truthy (reasoningId st)); simpl; [done|].
  by rewrite <- app_assoc.
Qed.

Lemma textDelta_blocks (d : string) (st : Producer) :
  (∀ n, generateId n ≠ "") →
  BlockInvariant st → BlockInvariant (textDelta d st).
Proof.
  intros Hids [Ht Hr].
  destruct (textDelta_enqueued d st) as (Hq & Hid & Hrid).
  split; rewrite ?Hid, ?Hrid, Hq.
  - destruct (textId st) as [id|].
    + destruct Ht as (Hne & Hs & Hp). rewrite (nonempty_truthy id Hne).
      split; [done|]. unfold textStarts, textPayloads in *.
      rewrite !omap_app, Hs. simpl. split; [done|].
      intros Heq. by apply app_eq_nil in Heq as [_ ?].
    + destruct Ht as [Hs Hp]. simpl. split; [apply Hids|].
      unfold textStarts, textPayloads in *. rewrite !omap_app, Hs, Hp. done.
  - unfold reasoningStarts, reasoningPayloads in *. rewrite !omap_app.
    destruct (truthy (textId st)); simpl; rewrite !app_nil_r; exact Hr.
Qed.

Lemma reasoningDelta_blocks (d : string) (st : Producer) :
  (∀ n, generateId n ≠ "") →
  BlockInvariant st → BlockInvariant (reasoningDelta d st).
Proof.
  intros Hids [Ht Hr].
  destruct (reasoningDelta_enqueued d st) as (Hq & Hid & Htid).
  split; rewrite ?Hid, ?Htid, Hq.
  - unfold textStarts, textPayloads in *. rewrite !omap_app.
    destruct (truthy (reasoningId st)); simpl; rewrite !app_nil_r; exact Ht.
  - destruct (reasoningId st) as [id|].
    + destruct Hr as (Hne & Hs & Hp). rewrite (nonempty_truthy id Hne).
      split; [done|]. unfold reasoningStarts, reasoningPayloads in *.
      rewrite !omap_app, Hs. simpl. split; [done|].
      intros Heq. by apply app_eq_nil in Heq as [_ ?].
    + destruct Hr as [Hs Hp]. simpl. split; [apply Hids|].
      unfold reasoningStarts, reasoningPayloads in *.
      rewrite !omap_app, Hs, Hp. done.
Qed.

Lemma truthy_joinItem (o : option string) :
  (if truthy o then o else None) = (if truthy o then Some (joinItem o) else None).
Proof. by destruct o as [[|]|]. Qed.

(** One chunk: its texts and its reasoning are enqueued as deltas, in
    order; the blocks stay as they should. *)
Lemma onChunk_contents (chunk : Output) (st : Producer) :
  textPayloads (enqueued (onChunk chunk st)) =
    textPayloads (enqueued st) ++ chunkTexts chunk ∧
  reasoningPayloads (enqueued (onChunk chunk st)) =
    reasoningPayloads (enqueued st) ++ chunkReasonings chunk ∧
  ((∀ n, generateId n ≠ "") → BlockInvariant st →
   BlockInvariant (onChunk chunk st)).
Proof.
  unfold onChunk, chunkTexts, chunkReasonings, presentTexts, nonEmpty.
  set (st2 := match tool_calls chunk with Some _ => _ | None => _ end).
  assert (H2 : enqueued st2 = enqueued st ∧ textId st2 = textId st ∧
               reasoningId st2 = reasoningId st).
  { subst st2. by destruct (usage chunk), (tool_calls chunk). }
  destruct H2 as (Hq2 & Ht2 & Hr2).
  assert (Hb2 : BlockInvariant st → BlockInvariant st2).
  { intros [Ht Hr]. split; by rewrite ?Ht2, ?Hr2, Hq2. }
  rewrite <- Hq2. clearbody st2. clear Hq2 Ht2 Hr2.
  set (t1 := response chunk).
  set (r := (firstChoice chunk ≫= delta) ≫= reasoning_content).
  set (t2 := (firstChoice chunk ≫= delta) ≫= content).
  simpl omap. rewrite !truthy_joinItem.
  set (st3 := if truthy t1 then textDelta (joinItem t1) st2 else st2).
  assert (H3 : textPayloads (enqueued st3) =
                 textPayloads (enqueued st2) ++
                 (if truthy t1 then [joinItem t1] else []) ∧
               reasoningPayloads (enqueued st3) = reasoningPayloads (enqueued st2) ∧
               ((∀ n, generateId n ≠ "") → BlockInvariant st2 → BlockInvariant st3)).
  { subst st3. destruct (truthy t1).
    - destruct (textDelta_enqueued (joinItem t1) st2) as (-> & _ & _).
      unfold textPayloads, reasoningPayloads. rewrite !omap_app.
      split; [|split].
      + by destruct (truthy (textId st2)).
      + destruct (truthy (textId st2)); simpl; by rewrite app_nil_r.
      + apply textDelta_blocks.
    - by rewrite app_nil_r. }
  clearbody st3. destruct H3 as (Hp3 & Hrp3 & Hb3).
  set (st4 := if truthy r then reasoningDelta (joinItem r) st3 else st3).
  assert (H4 : textPayloads (enqueued st4) = textPayloads (enqueued st3) ∧
               reasoningPayloads (enqueued st4) =
                 reasoningPayloads (enqueued st3) ++
                 (if truthy r then [joinItem r] else []) ∧
               ((∀ n, generateId n ≠ "") → BlockInvariant st3 → BlockInvariant st4)).
  { subst st4. destruct (truthy r).
    - destruct (reasoningDelta_enqueued (joinItem r) st3) as (-> & _ & _).
      unfold textPayloads, reasoningPayloads. rewrite !omap_app.
      split; [|split].
      + destruct (truthy (reasoningId st3)); simpl; by rewrite app_nil_r.
      + by destruct (truthy (reasoningId st3)).
      + apply reasoningDelta_blocks.
    - by rewrite app_nil_r. }
  clearbody st4. destruct H4 as (Hp4 & Hrp4 & Hb4).
  assert (H5 : ∀ st5, st5 = (if truthy t2 then textDelta (joinItem t2) st4 else st4) →
               textPayloads (enqueued st5) =
                 textPayloads (enqueued st4) ++
                 (if truthy t2 then [joinItem t2] else []) ∧
               reasoningPayloads (enqueued st5) = reasoningPayloads (enqueued st4) ∧
               ((∀ n, generateId n ≠ "") → BlockInvariant st4 → BlockInvariant st5)).
  { intros st5 ->. destruct (truthy t2).
    - destruct (textDelta_enqueued (joinItem t2) st4) as (-> & _ & _).
      unfold textPayloads, reasoningPayloads. rewrite !omap_app.
      split; [|split].
      + by destruct (truthy (textId st4)).
      + destruct (truthy (textId st4)); simpl; by rewrite app_nil_r.
      + apply textDelta_blocks.
    - by rewrite app_nil_r. }
  destruct (H5 _ eq_refl) as (Hp5 & Hrp5 & Hb5).
  split; [|split].
  - rewrite Hp5, Hp4, Hp3, <- app_assoc. f_equal.
    by destruct (truthy t1), (truthy t2).
  - rewrite Hrp5, Hrp4, Hrp3. f_equal. by destruct (truthy r).
  - auto.
Qed.

Lemma loop_contents (chunks : list Output) (st : Producer) :
  let st' := foldl (λ st c, onChunk c st) st chunks in
  textPayloads (enqueued st') =
    textPayloads (enqueued st) ++ concat (chunkTexts <$> chunks) ∧
  reasoningPayloads (enqueued st') =
    reasoningPayloads (enqueued st) ++ concat (chunkReasonings <$> chunks) ∧
  ((∀ n, generateId n ≠ "") → BlockInvariant st → BlockInvariant st').
Proof.
  revert st; induction chunks as [|c chunks IH]; intros st; simpl.
  - by rewrite !app_nil_r.
  - destruct (IH (onChunk c st)) as (Hp & Hr & Hb).
    destruct (onChunk_contents c st) as (Hp1 & Hr1 & Hb1).
    rewrite Hp, Hr, Hp1, Hr1, <- !app_assoc. auto.
Qed.

(** What follows the loop carries no delta and opens no block. *)
Lemma close_tail_contents (st : Producer) :
  ∃ tail,
    enqueued (closeStream st) = enqueued st ++ tail ∧
    textPayloads tail = [] ∧ reasoningPayloads tail = [] ∧
    textStarts tail = [] ∧ reasoningStarts tail = [] ∧
    textEnds tail =
      (if truthy (textId st) then [joinItem (textId st)] else []) ∧
    reasoningEnds tail =
      (if truthy (reasoningId st) then [joinItem (reasoningId st)] else []).
Proof.
  eexists. split; [apply closeStream_parts|].
  set (calls := processPartialToolCalls (partialToolCalls st)).
  assert (Htools : ∀ f : StreamPart → option string,
            (∀ call, f (ToolCallPart call) = None) →
            omap f (if partialToolCalls st is [] then []
                    else ToolCallPart <$> calls) = []).
  { intros f Hf. destruct (partialToolCalls st); [done|].
    induction calls as [|c calls IH]; [done|]. simpl. by rewrite Hf. }
  unfold textPayloads, reasoningPayloads, textStarts, reasoningStarts,
    textEnds, reasoningEnds.
  rewrite !omap_app, !Htools by done.
  destruct (truthy (reasoningId st)), (truthy (textId st)); done.
Qed.

(** X8.  Nothing of the text is lost or reordered: the payloads of the
    text deltas of the mapped stream are the non-empty texts of the chunks
    (the response, then the delta content of the first choice), chunk after
    chunk, and the payloads of its reasoning deltas are the non-empty
    reasoning contents of the chunks. *)
Theorem mapped_text_is_preserved (chunks : list Output) :
  textPayloads (parts (getMappedStream (Data <$> chunks))) =
    concat (chunkTexts <$> chunks) ∧
  reasoningPayloads (parts (getMappedStream (Data <$> chunks))) =
    concat (chunkReasonings <$> chunks).
Proof.
  unfold getMappedStream. rewrite readEvents_data. cbv beta iota delta [parts].
  destruct (loop_contents chunks initialProducer) as (Hp & Hr & _).
  cbv zeta in Hp, Hr.
  destruct (close_tail_contents (foldl (λ st c, onChunk c st) initialProducer chunks))
    as (tail & -> & Htp & Htr & _).
  unfold textPayloads, reasoningPayloads in *.
  rewrite !omap_app, Htp, Htr, !app_nil_r. by rewrite Hp, Hr.
Qed.

(** X9.  With non-empty ids the mapper opens at most one text block and
    at most one reasoning block, a block being opened exactly when some
    chunk carries a text, or a reasoning, of that kind; and every block it
    opens it closes, once and under the same id. *)
Theorem mapped_blocks_open_once (chunks : list Output) :
  (∀ n, generateId n ≠ "") →
  let ps := parts (getMappedStream (Data <$> chunks)) in
  textEnds ps = textStarts ps ∧
  length (textStarts ps) = (if concat (chunkTexts <$> chunks) is [] then 0 else 1) ∧
  reasoningEnds ps = reasoningStarts ps ∧
  length (reasoningStarts ps) =
    (if concat (chunkReasonings <$> chunks) is [] then 0 else 1).
Proof.
  intros Hids. unfold getMappedStream. rewrite readEvents_data.
  cbv beta iota zeta delta [parts].
  destruct (loop_contents chunks initialProducer) as (Hp & Hr & Hb).
  cbv zeta in Hp, Hr, Hb.
  pose proof (loop_invariant chunks) as [Hbody _ _ _].
  set (st := foldl (λ st c, onChunk c st) initialProducer chunks) in *.
  destruct (Hb Hids) as [Ht Hrs]; [by split|].
  destruct (close_tail_contents st) as (tail & -> & _ & _ & Hts & Htrs & Hte & Htre).
  assert (Hnoends : textEnds (enqueued st) = [] ∧ reasoningEnds (enqueued st) = []).
  { clear -Hbody. unfold textEnds, reasoningEnds.
    induction Hbody as [|p q Hp _ [IH1 IH2]]; [done|].
    change (p :: q) with ([p] ++ q). rewrite !omap_app, IH1, IH2.
    by destruct p. }
  destruct Hnoends as [Hne1 Hne2].
  unfold textEnds, reasoningEnds, textStarts, reasoningStarts in *.
  rewrite !omap_app, Hts, Htrs, Hte, Htre, Hne1, Hne2, !app_nil_r. simpl.
  simpl in Hp, Hr. rewrite <- Hp, <- Hr.
  split; [|split; [|split]].
  - destruct (textId st) as [id|].
    + destruct Ht as (Hne & -> & _). by rewrite (nonempty_truthy id Hne).
    + by destruct Ht as [-> _].
  - destruct (textId st) as [id|].
    + destruct Ht as (_ & -> & Hsome).
      unfold textPayloads in *. by destruct (omap _ (enqueued st)).
    + destruct Ht as [-> Hnone]. unfold textPayloads in *. by rewrite Hnone.
  - destruct (reasoningId st) as [id|].
    + destruct Hrs as (Hne & -> & _). by rewrite (nonempty_truthy id Hne).
    + by destruct Hrs as [-> _].
  - destruct (reasoningId st) as [id|].
    + destruct Hrs as (_ & -> & Hsome).
      unfold reasoningPayloads in *. by destruct (omap _ (enqueued st)).
    + destruct Hrs as [-> Hnone]. unfold reasoningPayloads in *. by rewrite Hnone.
Qed.

Lemma readEvents_app (before after : list SseEvent) (st : Producer) :
  readEvents (before ++ after) st =
  match readEvents before st with
  | inl st' => if forallb readOn before then readEvents after st' else inl st'
  | inr st' => inr st'
  end.
Proof.
  revert st; induction before as [|e before IH]; intros st; [done|].
  destruct e as [| |chunk|data]; simpl; try done; rewrite IH;
    by destruct (readEvents before _).
Qed.

(** X10.  The mapper reads nothing past the end-of-stream sentinel, and it
    skips the events that carry no data: the events after the first
    [DONE] can be dropped, and an event without data can be dropped,
    without changing the mapped stream. *)
Theorem sentinel_stops_reading (before after : list SseEvent) :
  getMappedStream (before ++ Done :: after) = getMappedStream before ∧
  getMappedStream (before ++ NoData :: after) = getMappedStream (before ++ after).
Proof.
  unfold getMappedStream. rewrite !readEvents_app. simpl.
  split.
  - destruct (readEvents before initialProducer); [|done].
    by destruct (forallb readOn before).
  - done.
Qed.

(** X11.  A payload that is not JSON aborts the stream where it stands: the
    stream is not closed, and what was enqueued is the starts and deltas
    of the chunks before the payload, a prefix of what these chunks alone
    would give.  No block is closed, no tool call and no finish event is
    emitted, whatever fragments were received and whatever follows. *)
Theorem malformed_payload_aborts (chunks : list Output) (data : string)
    (after : list SseEvent) :
  let stream := getMappedStream ((Data <$> chunks) ++ Malformed data :: after) in
  closed stream = false ∧
  Forall startOrDelta (parts stream) ∧
  parts stream `prefix_of` parts (getMappedStream (Data <$> chunks)).
Proof.
  unfold getMappedStream. rewrite readEvents_app, !readEvents_data.
  assert (Hon : forallb readOn (Data <$> chunks) = true)
    by (induction chunks; [done|by simpl]).
  rewrite Hon. simpl. split; [done|]. split.
  - by destruct (loop_invariant chunks).
  - eexists. apply closeStream_parts.
Qed.

Lemma readEvents_usage (events : list SseEvent) (st st' : Producer) :
  totalTokens (m_usage st) = (inputTokens (m_usage st) + outputTokens (m_usage st))%Z →
  readEvents events st = inl st' →
  totalTokens (m_usage st') = (inputTokens (m_usage st') + outputTokens (m_usage st'))%Z.
Proof.
  revert st; induction events as [|e events IH]; intros st Hst; simpl.
  - by intros [= <-].
  - destruct e as [| |chunk|data]; [by apply IH|by intros [= <-]| |done].
    apply IH. destruct (onChunk_grows chunk st) as (-> & _).
    by destruct (usage chunk).
Qed.

(** X12.  Every finish event of a mapped stream has the reason stop, and a
    usage whose total is the sum of its input and output tokens: zero
    three times when no chunk reported a usage. *)
Theorem mapped_finish_is_stop (events : list SseEvent) (reason : FinishReason)
    (u : Usage) :
  Finish reason u ∈ parts (getMappedStream events) →
  reason = FinishStop ∧
  totalTokens u = (inputTokens u + outputTokens u)%Z.
Proof.
  unfold getMappedStream.
  destruct (readEvents events initialProducer) as [st|st] eqn:Hread;
    cbv beta iota delta [parts].
  - destruct (readEvents_invariant events initialProducer st initial_invariant
                (or_introl Hread)) as [Hbody _ _ _].
    rewrite closeStream_parts, !elem_of_app.
    intros [Hin|[Hin|[Hin|[Hin|Hin]]]].
    + by apply (Forall_forall _ _) with (x := Finish reason u) in Hbody.
    + destruct (partialToolCalls st); [by apply elem_of_nil in Hin|].
      by apply list_elem_of_fmap in Hin as (call & ? & _).
    + destruct (truthy (reasoningId st));
        [by apply list_elem_of_singleton in Hin|by apply elem_of_nil in Hin].
    + destruct (truthy (textId st));
        [by apply list_elem_of_singleton in Hin|by apply elem_of_nil in Hin].
    + apply list_elem_of_singleton in Hin. injection Hin as -> ->.
      split; [done|]. by apply (readEvents_usage events initialProducer).
  - destruct (readEvents_invariant events initialProducer st initial_invariant
                (or_intror Hread)) as [Hbody _ _ _].
    intros Hin. by apply (Forall_forall _ _) with (x := Finish reason u) in Hbody.
Qed.

End MapperContents.

(** ** Further properties of the language model *)

Section RequestProperties.
Context {JH : JsonHost} {IS : IdSource} {U : Utils} {B : Backend}.

(** The requests of the two methods. *)
Lemma doGenerate_requests (options : Options) :
  requests (doGenerate options) =
  match getArgs options, convertToWorkersAIChatMessages (prompt options) with
  | Ok aw, Ok conv =>
      if tooManyImages (images conv) then []
      else [buildRequest aw.1 (messages conv) (head (images conv)) false]
  | _, _ => []
  end.
Proof.
  destruct (getArgs options) as [aw|msg] eqn:Hargs.
  - destruct (convertToWorkersAIChatMessages (prompt options)) as [conv|msg]
      eqn:Hconv.
    + destruct (tooManyImages (images conv)) eqn:Hmany.
      * by rewrite (doGenerate_too_many options aw conv).
      * by apply doGenerate_reaches_backend.
    + unfold doGenerate. by rewrite Hargs, Hconv.
  - unfold doGenerate. by rewrite Hargs.
Qed.

Lemma doStream_requests (options : Options) :
  requests (doStream options) =
  match getArgs options, convertToWorkersAIChatMessages (prompt options) with
  | Ok aw, Ok conv =>
      if tooManyImages (images conv) then []
      else [buildRequest aw.1 (messages conv) (head (images conv))
              (negb (hasTools (arg_tools aw.1) && lastMessageWasUser (messages conv)))]
  | _, _ => []
  end.
Proof.
  destruct (getArgs options) as [aw|msg] eqn:Hargs.
  - destruct (convertToWorkersAIChatMessages (prompt options)) as [conv|msg]
      eqn:Hconv.
    + destruct (tooManyImages (images conv)) eqn:Hmany.
      * by rewrite (doStream_too_many options aw conv).
      * unfold doStream. rewrite Hargs, Hconv. unfold bindRun at 1 2; simpl.
        destruct (hasTools _ && lastMessageWasUser _); simpl.
        -- unfold bindRun.
           rewrite (doGenerate_reaches_backend options aw conv) by done.
           destruct (outcome (doGenerate options)); simpl; by rewrite ?app_nil_r.
        -- rewrite Hmany. unfold bindRun, awaitRun; simpl.
           by destruct (binding_run _).
    + unfold doStream. by rewrite Hargs, Hconv.
  - unfold doStream. by rewrite Hargs.
Qed.


(** X14.  With the JSON response format no tools are sent and the schema
    is: every request of doGenerate and doStream has no [tools] and the
    [response_format] of the schema, whatever tools the caller gave; and
    doStream always streams then (it never falls back on doGenerate). *)
Theorem json_format_sends_no_tools (options : Options) (schema : option json)
    (req : Request) :
  responseFormat options = Some (FormatJson schema) →
  (req ∈ requests (doGenerate options) →
   req_tools req = None ∧
   req_response_format req = Some {| json_schema := schema |} ∧
   req_stream req = false) ∧
  (req ∈ requests (doStream options) →
   req_tools req = None ∧
   req_response_format req = Some {| json_schema := schema |} ∧
   req_stream req = true).
Proof.
  intros Hformat. rewrite doStream_requests, doGenerate_requests.
  unfold getArgs. rewrite Hformat. simpl.
  destruct (convertToWorkersAIChatMessages (prompt options)) as [conv|msg];
    [|split; intros Hin; by apply elem_of_nil in Hin].
  destruct (tooManyImages (images conv));
    [split; intros Hin; by apply elem_of_nil in Hin|].
  split; intros Hin; apply list_elem_of_singleton in Hin; by subst req.
Qed.

(** X15.  The seed of the call never reaches the backend: both methods
    issue the same requests and end the same way whatever the seed is. *)
Theorem seed_is_not_sent (s : option number) (options : Options) :
  doGenerate (withSeed s options) = doGenerate options ∧
  doStream (withSeed s options) = doStream options.
Proof.
  assert (Hgen : doGenerate (withSeed s options) = doGenerate options).
  { unfold doGenerate, getArgs, withSeed; simpl.
    by destruct (responseFormat options) as [[]|]. }
  split; [done|].
  unfold doStream. rewrite Hgen. unfold getArgs, withSeed; simpl.
  by destruct (responseFormat options) as [[]|].
Qed.

(** X16.  The request forwards the call: the model of the instance, the
    converted messages, the sampling settings of the options, and the one
    image of the prompt, if any, as the list of the values of its bytes,
    each below 256. *)
Theorem request_forwards_call (options : Options) (conv : Converted)
    (req : Request) :
  convertToWorkersAIChatMessages (prompt options) = Ok conv →
  req ∈ requests (doGenerate options) ∨ req ∈ requests (doStream options) →
  req_model req = modelId ∧
  req_messages req = messages conv ∧
  req_max_tokens req = maxOutputTokens options ∧
  req_temperature req = temperature options ∧
  req_top_p req = topP options ∧
  req_image req = (λ image, Byte.to_N <$> img_image image) <$> head (images conv) ∧
  length (images conv) ≤ 1 ∧
  ∀ values, req_image req = Some values → Forall (λ v, (v < 256)%N) values.
Proof.
  intros Hconv. rewrite doStream_requests, doGenerate_requests, Hconv.
  destruct (getArgs options) as [aw|msg] eqn:Hargs;
    [|intros [Hin|Hin]; by apply elem_of_nil in Hin].
  destruct (tooManyImages (images conv)) eqn:Hmany;
    [intros [Hin|Hin]; by apply elem_of_nil in Hin|].
  assert (Haw : arg_model aw.1 = modelId ∧
                arg_max_tokens aw.1 = maxOutputTokens options ∧
                arg_temperature aw.1 = temperature options ∧
                arg_top_p aw.1 = topP options).
  { unfold getArgs in Hargs.
    destruct (default FormatText (responseFormat options)); [| |done];
      by injection Hargs as <-. }
  destruct Haw as (Hmodel & Hmax & Htemp & Htop).
  assert (Hfew : length (images conv) ≤ 1).
  { destruct (images conv) as [|? [|? ?]]; simpl; try lia. done. }
  intros Hin.
  assert (Hreq : ∃ stream, req = buildRequest aw.1 (messages conv)
                                   (head (images conv)) stream).
  { destruct Hin as [Hin|Hin]; apply list_elem_of_singleton in Hin;
      by eexists. }
  destruct Hreq as [stream ->]. simpl.
  repeat split; try done.
  intros values Hvalues. destruct (head (images conv)) as [image|]; [|done].
  injection Hvalues as <-. apply Forall_fmap, Forall_true. intros b.
  pose proof (Byte.to_N_bounded b). simpl. lia.
Qed.

(** X17.  The call options are examined before the prompt: a response
    format that is neither text nor JSON makes both methods throw
    [Unsupported type], whatever the prompt is, and it is the only reason
    for which the options are refused; a prompt that does not convert
    makes both methods throw the error of the converter.  No request is
    issued in either case. *)
Theorem call_errors_come_first (options : Options) (msg : string) :
  (getArgs options = Throw msg ↔
   ∃ type, responseFormat options = Some (FormatOther type) ∧
           msg = "Unsupported type: " +:+ type) ∧
  (getArgs options = Throw msg →
   doGenerate options = throw msg ∧ doStream options = throw msg) ∧
  (isOk (getArgs options) = true →
   convertToWorkersAIChatMessages (prompt options) = Throw msg →
   doGenerate options = throw msg ∧ doStream options = throw msg).
Proof.
  split; [|split].
  - unfold getArgs. destruct (responseFormat options) as [[|schema|type]|];
      simpl; split; try done.
    + intros (type & [=] & _).
    + intros (type & [=] & _).
    + intros [= <-]. by eexists.
    + by intros (type' & [= <-] & ->).
    + intros (type & [=] & _).
  - intros Hargs. unfold doGenerate, doStream. by rewrite Hargs.
  - intros Hok Hconv. unfold doGenerate, doStream.
    destruct (getArgs options); [|done]. by rewrite Hconv.
Qed.

End RequestProperties.

Section StreamShape.
Context {JH : JsonHost} {IS : IdSource} {U : Utils} {B : Backend}.

(** What replaying one content part enqueues. *)
Lemma replayPart_new (st : Producer) (part : Content) :
  ∃ new,
    enqueued (replayPart st part) = enqueued st ++ new ∧
    Forall closesNothing new ∧
    toolCallEvents new = contentToolCalls [part] ∧
    textPayloads new = (if part is CText text then [text] else []).
Proof.
  destruct part as [text|text|call]; cbv beta iota delta [replayPart].
  - destruct (truthy (reasoningId st)); simpl; eexists;
      (split; [by rewrite <- ?app_assoc|]); by repeat constructor.
  - destruct (textDelta_enqueued text st) as (-> & _ & _).
    eexists. split; [done|].
    destruct (truthy (textId st)); by repeat constructor.
  - eexists. split; [done|]. by repeat constructor.
Qed.

Lemma replay_new (content : list Content) (st : Producer) :
  ∃ new,
    enqueued (foldl replayPart st content) = enqueued st ++ new ∧
    Forall closesNothing new ∧
    toolCallEvents new = contentToolCalls content ∧
    textPayloads new =
      omap (λ c, if c is CText text then Some text else None) content.
Proof.
  revert st; induction content as [|part content IH]; intros st; simpl.
  - exists []. by rewrite app_nil_r.
  - destruct (IH (replayPart st part)) as (new & -> & Hopen & Htools & Htexts).
    destruct (replayPart_new st part) as (new1 & -> & Hopen1 & Htools1 & Htexts1).
    exists (new1 ++ new). split; [by rewrite <- app_assoc|].
    split; [by apply Forall_app|].
    unfold toolCallEvents, textPayloads, contentToolCalls in *.
    rewrite !omap_app, Htools, Htools1, Htexts, Htexts1.
    by destruct part.
Qed.

Lemma closeBlocks_new (st : Producer) :
  ∃ ends,
    enqueued (closeBlocks st) = enqueued st ++ ends ∧
    Forall (λ p, ¬ isFinish p ∧ ¬ isDelta p) ends ∧
    toolCallEvents ends = [] ∧ textPayloads ends = [].
Proof.
  unfold closeBlocks.
  destruct (truthy (reasoningId st)); simpl;
    destruct (truthy (textId st)); simpl.
  - exists [ReasoningEnd (joinItem (reasoningId st)); TextEnd (joinItem (textId st))].
    split; [by rewrite <- app_assoc|]. split; [|done].
    repeat constructor; intros Hx; exact Hx.
  - exists [ReasoningEnd (joinItem (reasoningId st))].
    split; [done|]. split; [|done]. repeat constructor; intros Hx; exact Hx.
  - exists [TextEnd (joinItem (textId st))].
    split; [done|]. split; [|done]. repeat constructor; intros Hx; exact Hx.
  - exists []. by rewrite app_nil_r.
Qed.

(** The parts of the simulated stream: the stream-start, what the replay
    enqueues, the ends of the open blocks, the finish event. *)
Lemma simulated_parts (warnings : list Warning) (response : GenerateResult) :
  ∃ new ends,
    parts (simulatedStream warnings response) =
      (StreamStart warnings :: new ++ ends) ++
      [Finish (mapWorkersAIFinishReason (OfResult response)) (res_usage response)] ∧
    enqueued (foldl replayPart (enqueue (StreamStart warnings) initialProducer)
                (res_content response)) = StreamStart warnings :: new ∧
    Forall closesNothing new ∧
    toolCallEvents new = contentToolCalls (res_content response) ∧
    textPayloads new =
      omap (λ c, if c is CText text then Some text else None)
        (res_content response) ∧
    Forall (λ p, ¬ isFinish p ∧ ¬ isDelta p) ends ∧
    toolCallEvents ends = [] ∧ textPayloads ends = [].
Proof.
  unfold simulatedStream. cbv zeta. cbv beta iota delta [parts].
  set (st0 := enqueue (StreamStart warnings) initialProducer).
  destruct (replay_new (res_content response) st0)
    as (new & Hq & Hopen & Htools & Htexts).
  destruct (closeBlocks_new (foldl replayPart st0 (res_content response)))
    as (ends & Hq' & Hends & Htools' & Htexts').
  exists new, ends. split; [|by repeat split].
  set (finish := Finish _ _).
  change (enqueued (enqueue finish ?st)) with (enqueued st ++ [finish]).
  by rewrite Hq', Hq.
Qed.

(** X18.  The simulated stream replays the whole result: it begins with
    the stream-start, gives the tool calls of the content in their order
    and the texts of its text parts as text deltas, ends with its one
    finish event, which carries the usage of the result, and is closed. *)
Theorem simulated_stream_replays_result (warnings : list Warning)
    (response : GenerateResult) :
  let stream := simulatedStream warnings response in
  closed stream = true ∧
  head (parts stream) = Some (StreamStart warnings) ∧
  finishOnceLast (parts stream) ∧
  last (parts stream) =
    Some (Finish (mapWorkersAIFinishReason (OfResult response))
            (res_usage response)) ∧
  toolCallEvents (parts stream) = contentToolCalls (res_content response) ∧
  textPayloads (parts stream) =
    omap (λ c, if c is CText text then Some text else None)
      (res_content response).
Proof.
  cbv zeta.
  destruct (simulated_parts warnings response)
    as (new & ends & -> & _ & Hopen & Htools & Htexts & Hends & Htools' & Htexts').
  split; [done|]. split; [done|]. split; [|split; [|split]].
  - apply finishOnceLast_snoc. constructor; [intros Hx; exact Hx|].
    apply Forall_app. split.
    + eapply Forall_impl; [exact Hopen|]. intros [] Hc Hf; first [exact Hf | exact Hc].
    + eapply Forall_impl; [exact Hends|]. by intros ? [? ?].
  - apply last_snoc.
  - unfold toolCallEvents in *.
    change (StreamStart warnings :: new ++ ends) with ([StreamStart warnings] ++ new ++ ends).
    rewrite !omap_app, Htools, Htools'. simpl. by rewrite !app_nil_r.
  - unfold textPayloads in *.
    change (StreamStart warnings :: new ++ ends) with ([StreamStart warnings] ++ new ++ ends).
    rewrite !omap_app, Htexts, Htexts'. simpl. by rewrite !app_nil_r.
Qed.

Lemma text_open_unclosed (q : list StreamPart) (id : string) :
  Forall closesNothing q →
  last (textStarts q) = Some id →
  openAt TextStart TextEnd q (length q) id.
Proof.
  intros Hopen Hlast. apply last_Some_elem_of in Hlast.
  apply list_elem_of_omap in Hlast as (p & Hp & Hid).
  destruct p; try done. injection Hid as ->.
  apply list_elem_of_lookup in Hp as [j Hj].
  exists j. split; [by eapply lookup_lt_Some|]. split; [done|].
  intros k _ Hk. by apply (Forall_lookup_1 _ _ _ _ Hopen Hk).
Qed.

Lemma replay_initial (warnings : list Warning) :
  ReplayInvariant (enqueue (StreamStart warnings) initialProducer).
Proof.
  split; simpl; try done.
  - by repeat constructor.
  - by intros [|i] id d Hi.
Qed.

Lemma replay_quiet (st : Producer) (part : StreamPart) :
  ReplayInvariant st →
  closesNothing part →
  (∀ id, part ≠ TextStart id) → ¬ isDelta part →
  ReplayInvariant (enqueue part st).
Proof.
  intros [Hopen Htext Hquiet Hframed] Hpart Hstart Hdelta. split; simpl.
  - apply Forall_app. by split; [|repeat constructor].
  - rewrite textStarts_snoc.
    destruct part; rewrite ?app_nil_r; try done; by destruct (Hstart id).
  - unfold reasoningPayloads in *. rewrite omap_app, Hquiet.
    destruct part; try done; by destruct Hdelta.
  - intros i id d Hi. apply lookup_snoc_Some in Hi as [[Hlt Hi]|[_ ->]].
    + apply openAt_app; [lia|]. by eapply Hframed.
    + by destruct Hdelta.
Qed.

Lemma textDelta_replay (d : string) (st : Producer) :
  ReplayInvariant st → ReplayInvariant (textDelta d st).
Proof.
  intros [Hopen Htext Hquiet Hframed]. unfold textDelta.
  destruct (truthy (textId st)) eqn:Htruthy; simpl.
  - apply truthy_Some in Htruthy. split; simpl.
    + apply Forall_app. by split; [|repeat constructor].
    + by rewrite textStarts_snoc, app_nil_r.
    + unfold reasoningPayloads in *. by rewrite omap_app, Hquiet.
    + intros i id d' Hi. apply lookup_snoc_Some in Hi as [[Hlt Hi]|[-> Heq]].
      * apply openAt_app; [lia|]. by eapply Hframed.
      * injection Heq as <- _. apply openAt_app; [done|].
        apply text_open_unclosed; [done|]. congruence.
  - split; simpl.
    + rewrite !Forall_app. by repeat split; [|repeat constructor..].
    + by rewrite !textStarts_snoc, app_nil_r, last_snoc.
    + unfold reasoningPayloads in *. by rewrite !omap_app, Hquiet.
    + intros i id d' Hi. apply lookup_snoc_Some in Hi as [[Hlt Hi]|[-> Heq]].
      * apply openAt_app; [lia|].
        apply lookup_snoc_Some in Hi as [[Hlt' Hi]|[_ [=]]].
        apply openAt_app; [lia|]. by eapply Hframed.
      * injection Heq as <- _. apply openAt_app; [done|].
        apply text_open_unclosed.
        -- apply Forall_app. by split; [|repeat constructor].
        -- by rewrite textStarts_snoc, last_snoc.
Qed.

Lemma replay_invariant (content : list Content) (st : Producer) :
  Forall (λ c, ¬ isReasoning c) content →
  ReplayInvariant st → ReplayInvariant (foldl replayPart st content).
Proof.
  intros Hquiet; revert st.
  induction Hquiet as [|part content Hpart _ IH]; intros st Hst; [done|].
  simpl. apply IH. destruct part as [text|text|call]; simpl.
  - by destruct Hpart.
  - by apply textDelta_replay.
  - by apply replay_quiet.
Qed.

(** X19.  The simulated stream of a result without reasoning part is
    framed: its text deltas carry the id of the text block opened before
    them, and its one finish event comes last. *)
Theorem simulated_stream_framed_without_reasoning (warnings : list Warning)
    (response : GenerateResult) :
  Forall (λ c, ¬ isReasoning c) (res_content response) →
  framed (parts (simulatedStream warnings response)).
Proof.
  intros Hquiet.
  destruct (simulated_parts warnings response)
    as (new & ends & -> & Hbody & Hopen & _ & _ & Hends & _ & _).
  pose proof (replay_invariant (res_content response) _ Hquiet
                (replay_initial warnings)) as [_ _ Hnone Hframed].
  rewrite Hbody in Hnone, Hframed.
  split.
  - set (finish := Finish _ _).
    replace ((StreamStart warnings :: new ++ ends) ++ [finish])
      with ((StreamStart warnings :: new) ++ (ends ++ [finish]))
      by (simpl; by rewrite <- app_assoc).
    split; intros i id d Hi.
    + apply lookup_app_Some in Hi as [Hi|[_ Hi]].
      * apply openAt_app; [by apply Nat.lt_le_incl, (lookup_lt_Some _ _ _ Hi)|].
        by eapply Hframed.
      * exfalso. apply lookup_app_Some in Hi as [Hi|[_ Hi]].
        -- by destruct (Forall_lookup_1 _ _ _ _ Hends Hi) as [_ []].
        -- by destruct (_ - _ - _).
    + exfalso. apply lookup_app_Some in Hi as [Hi|[_ Hi]].
      * assert (Hin : d ∈ reasoningPayloads (StreamStart warnings :: new)).
        { apply list_elem_of_omap. exists (ReasoningDelta id d).
          split; [|reflexivity]. apply list_elem_of_lookup. by eexists. }
        rewrite Hnone in Hin. by apply elem_of_nil in Hin.
      * apply lookup_app_Some in Hi as [Hi|[_ Hi]].
        -- by destruct (Forall_lookup_1 _ _ _ _ Hends Hi) as [_ []].
        -- by destruct (_ - _ - _).
  - apply finishOnceLast_snoc. constructor; [intros Hx; exact Hx|].
    apply Forall_app. split.
    + eapply Forall_impl; [exact Hopen|]. intros [] Hc Hf; first [exact Hf | exact Hc].
    + eapply Forall_impl; [exact Hends|]. by intros ? [? ?].
Qed.

(** X20.  The stream doStream returns when it streams from the backend is,
    once closed, framed; and a stream of doStream, streamed or simulated,
    begins with a stream-start carrying the warnings for the penalties of
    the call, which are also the warnings of a result of doGenerate:
    penalties are reported, never refused. *)
Theorem doStream_stream_starts_and_frames (options : Options) :
  (∀ result, outcome (doGenerate options) = Ok result →
     res_warnings result = penaltyWarnings options) ∧
  (∀ stream, outcome (doStream options) = Ok stream →
     head (parts stream) = Some (StreamStart (penaltyWarnings options)) ∧
     (closed stream = true →
      (∀ req, req ∈ requests (doStream options) → req_stream req = true) →
      framed (parts stream))).
Proof.
  assert (Hwarn : ∀ aw, getArgs options = Ok aw → aw.2 = penaltyWarnings options).
  { unfold getArgs. intros aw.
    destruct (default FormatText (responseFormat options)); [| |done];
      by intros [= <-]. }
  split.
  - intros result. unfold doGenerate.
    destruct (getArgs options) as [aw|msg] eqn:Hargs; [|done].
    destruct (convertToWorkersAIChatMessages (prompt options)) as [conv|msg];
      [|done].
    unfold bindRun at 1 2; simpl.
    destruct (tooManyImages (images conv)); [done|].
    unfold bindRun, awaitRun; simpl.
    destruct (binding_run _); simpl; try done.
    intros [= <-]. simpl. by apply Hwarn.
  - intros stream. rewrite doStream_requests. unfold doStream.
    destruct (getArgs options) as [aw|msg] eqn:Hargs; [|done].
    destruct (convertToWorkersAIChatMessages (prompt options)) as [conv|msg]
      eqn:Hconv; [|done].
    rewrite <- (Hwarn aw eq_refl).
    unfold bindRun at 1 2; simpl.
    destruct (hasTools _ && lastMessageWasUser _); simpl.
    + unfold bindRun.
      destruct (outcome (doGenerate options)) as [response|msg] eqn:Hout;
        simpl; [|done].
      intros [= <-].
      destruct (simulated_parts aw.2 response) as (new & ends & -> & _).
      split; [done|]. intros _ Hstream. exfalso.
      destruct (tooManyImages (images conv)) eqn:Hmany.
      * by rewrite (doGenerate_too_many options aw conv Hargs Hconv Hmany) in Hout.
      * by specialize (Hstream _ (list_elem_of_here _ _)).
    + destruct (tooManyImages (images conv)); [done|].
      unfold bindRun, awaitRun; simpl.
      destruct (binding_run _) as [output|events|msg]; simpl; try done.
      intros [= <-]. simpl. split; [done|]. intros Hclosed _.
      by apply streamed_framed.
Qed.

End StreamShape.


(** ** Further properties of the product recommendation workflow *)

Section WorkflowRanking.
Context {WE : WorkflowEnv}.

Import ProductRecommendationWorkflow.

Lemma number_le_trans (a b c : number) :
  number_le a b = true → number_le b c = true → number_le a c = true.
Proof.
  destruct a as [| |x|], b as [| |y|], c as [| |z|]; simpl; try done.
  rewrite !Qle_bool_iff. apply Qle_trans.
Qed.

Lemma emptyRange_keeps_nothing (lo hi : option number) (p : Product) :
  emptyRange lo hi → keepProduct lo hi p = false.
Proof.
  unfold keepProduct, number_ge.
  intros [-> | [-> | (l & h & -> & -> & Hle)]].
  - replace (number_le NaN (price p)) with false by done.
    by rewrite andb_false_r.
  - replace (number_le (price p) NaN) with false by by destruct (price p).
    by rewrite andb_false_r.
  - destruct (number_le l (price p)) eqn:Hlo; [|by rewrite andb_false_r].
    destruct (number_le (price p) h) eqn:Hhi; [|by rewrite andb_false_r].
    by rewrite (number_le_trans _ _ _ Hlo Hhi) in Hle.
Qed.

Lemma filter_nothing {A : Type} (f : A → bool) (l : list A) :
  (∀ x, f x = false) → List.filter f l = [].
Proof. intros Hf. induction l as [|x l IH]; simpl; [done|by rewrite Hf]. Qed.

(** What a completed run read and returned. *)
Lemma run_steps (payload : Params) (out : RecommendationOutput) :
  run payload = Ok out →
  ∃ fetched answer rankedIds,
    fetchProducts (query payload) = Ok fetched ∧
    rankWithAI (query payload)
      (List.filter (keepProduct (minPrice payload) (maxPrice payload)) fetched) =
      Ok answer ∧
    parseIds (responseOrEmpty answer) = Ok rankedIds ∧
    topProducts out =
      take 3 (omap (findProduct
                      (List.filter (keepProduct (minPrice payload) (maxPrice payload))
                         fetched))
                rankedIds).
Proof.
  unfold run.
  destruct (fetchProducts (query payload)) as [fetched|msg]; [|done]; simpl.
  destruct (rankWithAI _ _) as [answer|msg] eqn:Hrank; [|done]; simpl.
  destruct (parseIds _) as [rankedIds|msg] eqn:Hparse; [|done]; simpl.
  intros [= <-]. by exists fetched, answer, rankedIds.
Qed.

Lemma findProduct_named (kept : list Product) (id : number) :
  match findProduct kept id with
  | Some p => named kept id = true ∧ p ∈ kept ∧ number_eq (product_id p) id = true
  | None => named kept id = false
  end.
Proof.
  unfold findProduct, named.
  induction kept as [|q kept IH]; simpl; [done|].
  destruct (number_eq (product_id q) id) eqn:Heq; simpl.
  - split; [done|]. split; [apply list_elem_of_here|done].
  - destruct (List.find _ kept) as [p|]; [|done].
    destruct IH as (Hn & Hin & Hid). split; [done|].
    split; [by apply list_elem_of_further|done].
Qed.

Lemma found_pair_named (kept : list Product) (ids : list number) :
  Forall2 (λ p id, p ∈ kept ∧ findProduct kept id = Some p ∧
                   number_eq (product_id p) id = true)
    (omap (findProduct kept) ids) (List.filter (named kept) ids).
Proof.
  induction ids as [|id ids IH]; simpl; [constructor|].
  pose proof (findProduct_named kept id) as Hfind.
  destruct (findProduct kept id) as [p|] eqn:Hp.
  - destruct Hfind as (-> & Hin & Hid). by constructor.
  - by rewrite Hfind.
Qed.

(** X21.  A price range no price lies in, because a bound is NaN or the
    lower bound exceeds the upper one, is not refused: the run goes on with
    no product kept and recommends nothing, whatever was fetched and
    whatever the ranking says. *)
Theorem empty_price_range_recommends_nothing (payload : Params)
    (out : RecommendationOutput) :
  emptyRange (minPrice payload) (maxPrice payload) →
  run payload = Ok out →
  topProducts out = [] ∧
  ∃ fetched, fetchProducts (query payload) = Ok fetched ∧
             isOk (rankWithAI (query payload) []) = true.
Proof.
  intros Hempty Hrun.
  destruct (run_steps payload out Hrun)
    as (fetched & answer & rankedIds & Hfetch & Hrank & _ & ->).
  rewrite (filter_nothing _ fetched) in *
    by (intros p; by apply emptyRange_keeps_nothing).
  split.
  - replace (omap (findProduct []) rankedIds) with (@nil Product); [done|].
    induction rankedIds as [|id ids IH]; simpl; [done|exact IH].
  - exists fetched. split; [done|]. by rewrite Hrank.
Qed.

(** X22.  The run completes once its three outside steps have, and the
    ranking decides the recommendation: the top products pair up, in
    order, with the first three ranked ids that name a kept product, each
    being the first kept product of that id.  Ids that name no kept
    product are skipped, and an id ranked twice is recommended twice. *)
Theorem top_products_follow_ranking (payload : Params) (fetched : list Product)
    (answer : option string) (rankedIds : list number) :
  let kept :=
    List.filter (keepProduct (minPrice payload) (maxPrice payload)) fetched in
  fetchProducts (query payload) = Ok fetched →
  rankWithAI (query payload) kept = Ok answer →
  parseIds (responseOrEmpty answer) = Ok rankedIds →
  ∃ out,
    run payload = Ok out ∧
    Forall2 (λ p id, p ∈ kept ∧ findProduct kept id = Some p ∧
                     number_eq (product_id p) id = true)
      (topProducts out) (take 3 (List.filter (named kept) rankedIds)).
Proof.
  intros kept Hfetch Hrank Hparse. unfold run.
  rewrite Hfetch; simpl. fold kept. rewrite Hrank; simpl. rewrite Hparse; simpl.
  eexists. split; [done|]. simpl.
  apply Forall2_take, found_pair_named.
Qed.

(** X23.  A model that answers nothing is read as the empty ranking: when
    the response is missing or empty, the text parsed is [[]], and the run
    recommends nothing where that text parses to the empty list. *)
Theorem silent_model_recommends_nothing (payload : Params)
    (fetched : list Product) (answer : option string) :
  fetchProducts (query payload) = Ok fetched →
  rankWithAI (query payload)
    (List.filter (keepProduct (minPrice payload) (maxPrice payload)) fetched) =
    Ok answer →
  answer = None ∨ answer = Some "" →
  parseIds "[]" = Ok [] →
  run payload =
    Ok {| topProducts := [];
          followUpQuestion :=
            "Do you want me to highlight the pros and cons of these top 3 products?" |}.
Proof.
  intros Hfetch Hrank Hsilent Hparse. unfold run.
  rewrite Hfetch; simpl. rewrite Hrank; simpl.
  replace (responseOrEmpty answer) with "[]" by by destruct Hsilent as [-> | ->].
  by rewrite Hparse.
Qed.

End WorkflowRanking.

(** ** Properties of the tools *)

Section ToolProperties.
Context {TH : ToolHost}.

Lemma poll_sound (fuel : nat) (statuses : nat → InstanceStatus) (start n : nat) :
  poll fuel statuses start = Some n →
  start ≤ n ∧ stillRunning (statuses n) = false ∧
  ∀ k, start ≤ k < n → stillRunning (statuses k) = true.
Proof.
  revert start. induction fuel as [|fuel IH]; intros start; simpl; [done|].
  destruct (stillRunning (statuses start)) eqn:Hrun.
  - intros Hpoll. destruct (IH _ Hpoll) as (Hle & Hstop & Hbefore).
    split; [lia|]. split; [done|].
    intros k Hk. destruct (decide (k = start)) as [-> | Hne]; [done|].
    apply Hbefore. lia.
  - intros [= <-]. split; [done|]. split; [done|]. intros k Hk. lia.
Qed.

Lemma poll_complete (fuel : nat) (statuses : nat → InstanceStatus) (start n : nat) :
  start ≤ n → n < start + fuel →
  stillRunning (statuses n) = false →
  (∀ k, start ≤ k < n → stillRunning (statuses k) = true) →
  poll fuel statuses start = Some n.
Proof.
  revert start. induction fuel as [|fuel IH]; intros start Hle Hfuel Hstop Hbefore;
    simpl; [lia|].
  destruct (decide (start = n)) as [-> | Hne].
  - by rewrite Hstop.
  - rewrite Hbefore by lia. apply IH; [lia..|done|].
    intros k Hk. apply Hbefore. lia.
Qed.

(** X24.  The price bounds of the caller never reach the workflow: the
    tool creates one instance, whose parameters carry the bounds under the
    names [minPriceNum] and [maxPriceNum]; the workflow, which reads
    [minPrice] and [maxPrice], finds the query and no bound, and keeps
    every product rated 2 or more, whatever its price. *)
Theorem price_bounds_never_reach_workflow (fuel : nat)
    (input : RecommendationInput) (trace : ToolTrace)
    (result : Result (option RecommendationOutput)) :
  executeRecommendation fuel input = Some (trace, result) →
  ∃ params payload,
    created trace = [params] ∧
    payloadOf params = Some payload ∧
    query payload = in_query input ∧
    minPrice payload = None ∧
    maxPrice payload = None ∧
    ∀ p, ProductRecommendationWorkflow.keepProduct
           (minPrice payload) (maxPrice payload) p =
         number_ge (rating p) (Finite 2).
Proof.
  intros Hrun.
  exists (recommendationParams input),
    {| query := in_query input; minPrice := None; maxPrice := None |}.
  split; [|split; [reflexivity|]].
  - unfold executeRecommendation in Hrun.
    destruct (create _) as [statuses|msg].
    + destruct (poll fuel statuses 0) as [n|]; simpl in Hrun; [|done].
      by injection Hrun as <- _.
    + by injection Hrun as <- _.
  - do 3 (split; [reflexivity|]).
    intros p. unfold ProductRecommendationWorkflow.keepProduct. simpl.
    by rewrite !andb_true_r.
Qed.

(** X25.  The tool returns on the first status that is complete or
    errored, after one wait for every status before it: the output of that
    status when it is complete, and when it is errored an error whose
    message is the same whatever the status holds.  It waits for as long
    as the instance reports another status: on an instance that never
    reports one of the two (one that was terminated, say), no number of
    polls makes it return. *)
Theorem recommendation_polls_until_terminal (input : RecommendationInput)
    (statuses : nat → InstanceStatus) :
  create (recommendationParams input) = Ok statuses →
  (∀ n fuel,
     stillRunning (statuses n) = false →
     (∀ k, k < n → stillRunning (statuses k) = true) →
     n < fuel →
     executeRecommendation fuel input =
       Some ({| created := [recommendationParams input]; scheduled := [];
                waits := n |},
             if String.eqb (status (statuses n)) "complete"
             then Ok (output (statuses n))
             else Throw "Workflow failed: [object Object]")) ∧
  ((∀ k, status (statuses k) ≠ "complete" ∧ status (statuses k) ≠ "errored") →
   ∀ fuel, executeRecommendation fuel input = None).
Proof.
  intros Hcreate. unfold executeRecommendation. rewrite Hcreate. split.
  - intros n fuel Hstop Hbefore Hfuel.
    rewrite (poll_complete fuel statuses 0 n) by
      (first [lia | done | intros k Hk; apply Hbefore; lia]).
    simpl. do 2 f_equal.
    unfold stillRunning in Hstop.
    destruct (String.eqb (status (statuses n)) "complete") eqn:Hc.
    + apply String.eqb_eq in Hc. by rewrite Hc.
    + simpl in Hstop. by destruct (String.eqb (status (statuses n)) "errored").
  - intros Hnever fuel.
    destruct (poll fuel statuses 0) as [n|] eqn:Hpoll; [|done].
    destruct (poll_sound _ _ _ _ Hpoll) as (_ & Hstop & _).
    destruct (Hnever n) as [Hc He]. unfold stillRunning in Hstop.
    apply String.eqb_neq in Hc, He. by rewrite Hc, He in Hstop.
Qed.

(** X26.  The schedule tool throws for a type other than scheduled, delayed
    and cron, before anything is scheduled; for these three it calls
    [agent.schedule] once, with the field of that type (missing or not),
    the callback [executeTask] and the description, and it returns a text
    even when the call throws: the error is reported in the text. *)
Theorem schedule_task_outcomes (when : When) (description : string) :
  (when_type when ∉ scheduleTypes →
   executeSchedule when description =
     ({| created := []; scheduled := []; waits := 0 |},
      Throw "Not a valid schedule input")) ∧
  (when_type when ∈ scheduleTypes →
   ∃ input text,
     executeSchedule when description =
       ({| created := []; scheduled := [(input, "executeTask", description)];
           waits := 0 |}, Ok text) ∧
     input =
       (if String.eqb (when_type when) "scheduled" then AtDate <$> when_date when
        else if String.eqb (when_type when) "delayed"
        then AfterDelay <$> when_delayInSeconds when
        else OnCron <$> when_cron when) ∧
     ∀ error, schedule input "executeTask" description = Some error →
              text = "Error scheduling task: " +:+ error).
Proof.
  unfold executeSchedule, scheduleInput, scheduleTypes.
  rewrite !elem_of_cons, elem_of_nil.
  destruct (String.eqb (when_type when) "scheduled") eqn:Hs;
    [|destruct (String.eqb (when_type when) "delayed") eqn:Hd;
      [|destruct (String.eqb (when_type when) "cron") eqn:Hc]].
  1-3: split;
    [ intros Hnot; exfalso; apply Hnot;
      first [apply String.eqb_eq in Hs; rewrite Hs
            |apply String.eqb_eq in Hd; rewrite Hd
            |apply String.eqb_eq in Hc; rewrite Hc];
      tauto
    | intros _; eexists;
      destruct (schedule _ "executeTask" description) as [error|] eqn:Herr;
      eexists; (split; [reflexivity|]); (split; [done|]);
      intros error' Herr'; congruence ].
  split; [done|].
  apply String.eqb_neq in Hs, Hd, Hc. tauto.
Qed.

End ToolProperties.

(** ** Properties of the AutoRAG model *)

Section AutoRAGProperties.
Context {JH : JsonHost} {IS : IdSource} {U : Utils} {R : AutoRag} {B : Backend}.

Lemma autorag_getArgs (options : Options) (conv : Converted) :
  convertToWorkersAIChatMessages (prompt options) = Ok conv →
  AutoRAG.getArgs options =
    match default FormatText (responseFormat options) with
    | FormatOther type => Throw ("Unsupported type: " +:+ type)
    | _ => Ok (penaltyWarnings options)
    end.
Proof.
  intros Hconv. unfold AutoRAG.getArgs. rewrite Hconv. simpl.
  by destruct (default FormatText (responseFormat options)).
Qed.

Lemma autorag_getArgs_supported (options : Options) (conv : Converted) :
  convertToWorkersAIChatMessages (prompt options) = Ok conv →
  (∀ type, responseFormat options ≠ Some (FormatOther type)) →
  AutoRAG.getArgs options = Ok (penaltyWarnings options).
Proof.
  intros Hconv Hformat. rewrite (autorag_getArgs options conv Hconv).
  destruct (responseFormat options) as [[| |type]|]; simpl; try done.
  by destruct (Hformat type).
Qed.

Lemma autorag_getArgs_ok (options : Options) (warnings : list Warning) :
  AutoRAG.getArgs options = Ok warnings →
  warnings = penaltyWarnings options ∧
  ∃ conv, convertToWorkersAIChatMessages (prompt options) = Ok conv.
Proof.
  unfold AutoRAG.getArgs.
  destruct (convertToWorkersAIChatMessages (prompt options)) as [conv|msg];
    [|done]. simpl.
  destruct (default FormatText (responseFormat options)); intros [=];
    (split; [done|by exists conv]).
Qed.

Lemma searchQuery_bare (messages : list ChatMessage) :
  AutoRAG.searchQuery messages = AutoRAG.searchQuery (bare <$> messages).
Proof.
  unfold AutoRAG.searchQuery. apply join_ext.
  rewrite <- !list_fmap_compose. by apply list_fmap_ext.
Qed.

(** X27.  A call whose prompt converts and whose response format is
    supported is one search: doGenerate and doStream search once, for the
    same query, and succeed exactly when the search does, whatever the
    images, the tools and the settings of the call.  The query is made of
    the roles and the contents of the converted messages: their tool
    calls, tool-call ids and names are not part of it. *)
Theorem autorag_searches_once (options : Options) (conv : Converted) :
  convertToWorkersAIChatMessages (prompt options) = Ok conv →
  (∀ type, responseFormat options ≠ Some (FormatOther type)) →
  let query := AutoRAG.searchQuery (messages conv) in
  queries (AutoRAG.doGenerate options) = [query] ∧
  queries (AutoRAG.doStream options) = [query] ∧
  isOk (found (AutoRAG.doGenerate options)) = isOk (aiSearch query) ∧
  isOk (found (AutoRAG.doStream options)) = isOk (aiSearchStream query) ∧
  query = AutoRAG.searchQuery (bare <$> messages conv).
Proof.
  intros Hconv Hformat query.
  unfold AutoRAG.doGenerate, AutoRAG.doStream.
  rewrite (autorag_getArgs_supported options conv Hconv Hformat), Hconv.
  fold query. simpl.
  do 2 (split; [done|]).
  split; [by destruct (aiSearch query)|].
  split; [by destruct (aiSearchStream query)|].
  apply searchQuery_bare.
Qed.

(** X28.  The prompt is examined before the response format: a prompt that
    does not convert makes doGenerate and doStream throw the error of the
    converter without searching, also when the response format is not
    supported, where WorkersAIChatLanguageModel reports the response
    format; a prompt that converts with such a format makes them throw
    [Unsupported type] without searching. *)
Theorem autorag_prompt_checked_first (options : Options) (type : string) :
  responseFormat options = Some (FormatOther type) →
  match convertToWorkersAIChatMessages (prompt options) with
  | Throw msg =>
      AutoRAG.doGenerate options = {| queries := []; found := Throw msg |} ∧
      AutoRAG.doStream options = {| queries := []; found := Throw msg |}
  | Ok _ =>
      AutoRAG.doGenerate options =
        {| queries := []; found := Throw ("Unsupported type: " +:+ type) |} ∧
      AutoRAG.doStream options =
        {| queries := []; found := Throw ("Unsupported type: " +:+ type) |}
  end ∧
  doGenerate options = throw ("Unsupported type: " +:+ type) ∧
  doStream options = throw ("Unsupported type: " +:+ type).
Proof.
  intros Hformat. split.
  - unfold AutoRAG.doGenerate, AutoRAG.doStream, AutoRAG.getArgs.
    destruct (convertToWorkersAIChatMessages (prompt options)) as [conv|msg];
      simpl; [|done].
    by rewrite Hformat.
  - unfold doStream, doGenerate, getArgs. by rewrite Hformat.
Qed.

(** X29.  A result of doGenerate holds, in this order, one source part per
    file found, with the id, the name and the score of the file, exactly
    one text part, which is the response, and the tool calls of the
    answer; its finish reason is stop also when there are tool calls, its
    usage is that of the answer, and its warnings are those for the
    penalties of the call. *)
Theorem autorag_content_layout (options : Options) (result : RagResult) :
  found (AutoRAG.doGenerate options) = Ok result →
  ∃ conv output,
    convertToWorkersAIChatMessages (prompt options) = Ok conv ∧
    aiSearch (AutoRAG.searchQuery (messages conv)) = Ok output ∧
    rag_content result =
      (sourceOf <$> rag_data output) ++
      RagText (rag_response output) ::
      (RagToolCall <$> processToolCalls (rag_document output)) ∧
    rag_content result !! length (rag_data output) =
      Some (RagText (rag_response output)) ∧
    rag_finishReason result = FinishStop ∧
    rag_usage result = mapWorkersAIUsage (rag_document output) ∧
    rag_warnings result = penaltyWarnings options.
Proof.
  unfold AutoRAG.doGenerate.
  destruct (AutoRAG.getArgs options) as [warnings|msg] eqn:Hargs; [|done].
  destruct (autorag_getArgs_ok options warnings Hargs) as [-> [conv Hconv]].
  rewrite Hconv. simpl.
  destruct (aiSearch _) as [output|msg] eqn:Hsearch; [|done]. simpl.
  intros [= <-]. exists conv, output. simpl.
  do 3 (split; [done|]).
  split; [|done].
  rewrite lookup_app_r by (by rewrite length_fmap).
  by rewrite length_fmap, Nat.sub_diag.
Qed.

(** X30.  A stream of doStream begins with a stream-start carrying the
    warnings for the penalties of the call and goes on with the mapped
    stream of the search; once closed it is framed. *)
Theorem autorag_stream_starts_and_frames (options : Options) (stream : Stream) :
  found (AutoRAG.doStream options) = Ok stream →
  ∃ conv events,
    convertToWorkersAIChatMessages (prompt options) = Ok conv ∧
    aiSearchStream (AutoRAG.searchQuery (messages conv)) = Ok events ∧
    parts stream =
      StreamStart (penaltyWarnings options) :: parts (getMappedStream events) ∧
    closed stream = closed (getMappedStream events) ∧
    (closed stream = true → framed (parts stream)).
Proof.
  unfold AutoRAG.doStream.
  destruct (AutoRAG.getArgs options) as [warnings|msg] eqn:Hargs; [|done].
  destruct (autorag_getArgs_ok options warnings Hargs) as [-> [conv Hconv]].
  rewrite Hconv. simpl.
  destruct (aiSearchStream _) as [events|msg] eqn:Hsearch; [|done]. simpl.
  intros [= <-]. exists conv, events. simpl.
  do 4 (split; [done|]).
  apply streamed_framed.
Qed.

End AutoRAGProperties.

(** ** The further properties on the sample inputs *)

Lemma assistant_tool_calls_listed_witness :
  ∃ m,
    assistantMessage (JH:=Reference.json) Sample.twoCalls = Ok m ∧
    msg_tool_calls m =
      Some [ {| tc_function := {| fn_arguments := Reference.stringify (JObj [("a", JNum 1)]);
                                  fn_name := "get" |};
                tc_id := "functions.get:0" |};
             {| tc_function := {| fn_arguments := "null"; fn_name := "put" |};
                tc_id := "functions.put:1" |} ].
Proof.
  apply (assistant_tool_calls_listed (JH:=Reference.json) Sample.twoCalls).
  repeat constructor.
Defined.

Lemma text_only_assistant_turn_witness :
  assistantMessage (JH:=Reference.json) [PReasoning "hm. "; PText "Hello"] =
    Ok {| msg_role := RAssistant; msg_content := "hm. Hello";
          msg_name := None; msg_tool_call_id := None; msg_tool_calls := None |}.
Proof.
  apply (text_only_assistant_turn (JH:=Reference.json)
           [PReasoning "hm. "; PText "Hello"]).
  repeat constructor.
Defined.

Lemma tool_result_id_is_local_witness :
  ∃ added,
    convertToWorkersAIChatMessages (JH:=Reference.json)
      (Sample.greeting ++ [TTool [Sample.getResult; Sample.putResult]]) =
      Ok {| images := []; messages := [systemMessage "Be brief."] ++ added |} ∧
    length added = 2 ∧
    ∀ i r, [Sample.getResult; Sample.putResult] !! i = Some r →
      ∃ m, added !! i = Some m ∧
        msg_name m = Some (tr_toolName r) ∧
        msg_content m = Reference.stringify (tr_output r) ∧
        msg_tool_call_id m =
          Some ("functions." +:+ tr_toolName r +:+ ":" +:+ pretty i) ∧
        ∀ j, j ≠ i →
          "functions." +:+ tr_toolName r +:+ ":" +:+ pretty j ≠
          "functions." +:+ tr_toolName r +:+ ":" +:+ pretty i.
Proof.
  apply (tool_result_id_is_local (JH:=Reference.json) Sample.greeting
           Sample.greetingConverted [Sample.getResult; Sample.putResult]).
  reflexivity.
Defined.

Lemma mapped_blocks_open_once_witness :
  let ps := parts (getMappedStream (IS:=Reference.ids) (U:=Reference.utils)
                     (Data <$> Sample.busyStream)) in
  textEnds ps = textStarts ps ∧
  length (textStarts ps) = 1 ∧
  reasoningEnds ps = reasoningStarts ps ∧
  length (reasoningStarts ps) = 1.
Proof.
  apply (mapped_blocks_open_once (IS:=Reference.ids) (U:=Reference.utils)
           Sample.busyStream).
  intros n. unfold generateId, Reference.ids. rewrite append_cons. discriminate.
Defined.

Lemma mapped_finish_is_stop_witness :
  FinishStop = FinishStop ∧
  totalTokens {| outputTokens := 4; inputTokens := 3; totalTokens := 7 |} =
    (3 + 4)%Z.
Proof.
  apply (mapped_finish_is_stop (IS:=Reference.ids) (U:=Reference.utils)
           (Data <$> Sample.busyStream) FinishStop
           {| outputTokens := 4; inputTokens := 3; totalTokens := 7 |}).
  apply (list_elem_of_lookup_2 _ 7). vm_compute. reflexivity.
Defined.

Lemma json_format_sends_no_tools_witness :
  req_tools (Sample.jsonRequest true) = None ∧
  req_response_format (Sample.jsonRequest true) =
    Some {| json_schema := Some (JObj []) |} ∧
  req_stream (Sample.jsonRequest true) = true.
Proof.
  destruct (json_format_sends_no_tools (JH:=Reference.json) (IS:=Reference.ids)
              (U:=Reference.utils)
              (B:=Reference.backend (ReplyOutput Sample.fullOutput))
              Sample.jsonQuestion (Some (JObj [])) (Sample.jsonRequest true))
    as [_ Hstream].
  - reflexivity.
  - apply Hstream. apply (list_elem_of_lookup_2 _ 0). vm_compute. reflexivity.
Defined.

Lemma request_forwards_call_witness :
  req_model Sample.onePictureRequest = "@cf/meta/llama-3.3-70b-instruct-fp8-fast" ∧
  req_messages Sample.onePictureRequest =
    [userMessage [PText "describe"; Sample.picture]] ∧
  req_max_tokens Sample.onePictureRequest = None ∧
  req_temperature Sample.onePictureRequest = None ∧
  req_top_p Sample.onePictureRequest = None ∧
  req_image Sample.onePictureRequest = Some [137%N; 80%N] ∧
  1 ≤ 1 ∧
  ∀ values, req_image Sample.onePictureRequest = Some values →
            Forall (λ v, (v < 256)%N) values.
Proof.
  apply (request_forwards_call (JH:=Reference.json) (IS:=Reference.ids)
           (U:=Reference.utils)
           (B:=Reference.backend (ReplyOutput Sample.fullOutput))
           Sample.onePicture Sample.onePictureConverted Sample.onePictureRequest).
  - reflexivity.
  - left. apply (list_elem_of_lookup_2 _ 0). vm_compute. reflexivity.
Defined.

Lemma simulated_stream_framed_without_reasoning_witness :
  framed (parts (simulatedStream (IS:=Reference.ids) (U:=Reference.utils) []
                   Sample.plainResult)).
Proof.
  apply (simulated_stream_framed_without_reasoning (IS:=Reference.ids)
           (U:=Reference.utils) [] Sample.plainResult).
  apply Forall_cons. split; [intros Hx; exact Hx|].
  apply Forall_singleton. intros Hx; exact Hx.
Defined.


Lemma empty_price_range_recommends_nothing_witness :
  topProducts
    {| topProducts := [];
       followUpQuestion :=
         "Do you want me to highlight the pros and cons of these top 3 products?" |} = [] ∧
  ∃ fetched,
    fetchProducts (WorkflowEnv:=Reference.workflowEnv Sample.shirts Sample.shirtRanking)
      "shirt" = Ok fetched ∧
    isOk (rankWithAI (WorkflowEnv:=Reference.workflowEnv Sample.shirts Sample.shirtRanking)
            "shirt" []) = true.
Proof.
  apply (empty_price_range_recommends_nothing
           (WE:=Reference.workflowEnv Sample.shirts Sample.shirtRanking)
           {| query := "shirt"; minPrice := Some (Finite 50);
              maxPrice := Some (Finite 10) |}).
  - right; right. exists (Finite 50), (Finite 10). by vm_compute.
  - reflexivity.
Defined.

Lemma top_products_follow_ranking_witness :
  ∃ out,
    ProductRecommendationWorkflow.run
      (WE:=Reference.workflowEnv Sample.shirts Sample.shirtRanking)
      Sample.shirtQuery = Ok out ∧
    Forall2 (λ p id,
               p ∈ [Sample.product 1 "Blue shirt" 20 (9 # 2);
                    Sample.product 4 "Red shirt" 25 (39 # 10);
                    Sample.product 5 "Plaid shirt" 40 4] ∧
               ProductRecommendationWorkflow.findProduct
                 [Sample.product 1 "Blue shirt" 20 (9 # 2);
                  Sample.product 4 "Red shirt" 25 (39 # 10);
                  Sample.product 5 "Plaid shirt" 40 4] id = Some p ∧
               number_eq (product_id p) id = true)
      (topProducts out) [Finite 4; Finite 1; Finite 5].
Proof.
  apply (top_products_follow_ranking
           (WE:=Reference.workflowEnv Sample.shirts Sample.shirtRanking)
           Sample.shirtQuery Sample.shirts Sample.shirtRanking
           [Finite 4; Finite 1; Finite 9; Finite 5; Finite 2; Finite 3]).
  - reflexivity.
  - reflexivity.
  - reflexivity.
Defined.

Lemma silent_model_recommends_nothing_witness :
  ProductRecommendationWorkflow.run
    (WE:=Reference.workflowEnv Sample.shirts (Some "")) Sample.shirtQuery =
    Ok {| topProducts := [];
          followUpQuestion :=
            "Do you want me to highlight the pros and cons of these top 3 products?" |}.
Proof.
  apply (silent_model_recommends_nothing
           (WE:=Reference.workflowEnv Sample.shirts (Some ""))
           Sample.shirtQuery Sample.shirts (Some "")).
  - reflexivity.
  - reflexivity.
  - by right.
  - reflexivity.
Defined.

Lemma price_bounds_never_reach_workflow_witness :
  ∃ params payload,
    [ [ ("query", VString "shirt"); ("minPriceNum", VNumber (Finite 10));
        ("maxPriceNum", VNumber (Finite 1000)) ] ] = [params] ∧
    payloadOf params = Some payload ∧
    query payload = "shirt" ∧
    minPrice payload = None ∧
    maxPrice payload = None ∧
    ∀ p, ProductRecommendationWorkflow.keepProduct
           (minPrice payload) (maxPrice payload) p =
         number_ge (rating p) (Finite 2).
Proof.
  apply (price_bounds_never_reach_workflow
           (TH:=Reference.toolHost Sample.numbers Sample.completing None
                  Sample.printCron)
           5 Sample.cheapShirts
           {| created := [ [ ("query", VString "shirt");
                             ("minPriceNum", VNumber (Finite 10));
                             ("maxPriceNum", VNumber (Finite 1000)) ] ];
              scheduled := []; waits := 2 |}
           (Ok (Some Sample.shirtAdvice))).
  reflexivity.
Defined.

Lemma recommendation_polls_until_terminal_witness :
  executeRecommendation
    (TH:=Reference.toolHost Sample.numbers Sample.completing None Sample.printCron)
    5 Sample.cheapShirts =
    Some ({| created := [ [ ("query", VString "shirt");
                            ("minPriceNum", VNumber (Finite 10));
                            ("maxPriceNum", VNumber (Finite 1000)) ] ];
             scheduled := []; waits := 2 |},
          Ok (Some Sample.shirtAdvice)) ∧
  ∀ fuel,
    executeRecommendation
      (TH:=Reference.toolHost Sample.numbers Sample.terminated None Sample.printCron)
      fuel Sample.cheapShirts = None.
Proof.
  split.
  - apply (proj1 (recommendation_polls_until_terminal
                    (TH:=Reference.toolHost Sample.numbers Sample.completing None
                           Sample.printCron)
                    Sample.cheapShirts Sample.completing eq_refl) 2 5).
    + reflexivity.
    + intros [|[|k]] Hk; [reflexivity..|lia].
    + lia.
  - apply (proj2 (recommendation_polls_until_terminal
                    (TH:=Reference.toolHost Sample.numbers Sample.terminated None
                           Sample.printCron)
                    Sample.cheapShirts Sample.terminated eq_refl)).
    intros k. split; discriminate.
Defined.

Lemma autorag_searches_once_witness :
  let query := "user: compare" +:+ LF +:+ LF in
  queries (AutoRAG.doGenerate (JH:=Reference.json) (U:=Reference.utils)
             (R:=Reference.autoRag Sample.ragOutput []) Sample.twoPictures) =
    [query] ∧
  queries (AutoRAG.doStream (JH:=Reference.json) (IS:=Reference.ids)
             (U:=Reference.utils) (R:=Reference.autoRag Sample.ragOutput [])
             Sample.twoPictures) = [query] ∧
  isOk (found (AutoRAG.doGenerate (JH:=Reference.json) (U:=Reference.utils)
                 (R:=Reference.autoRag Sample.ragOutput []) Sample.twoPictures)) =
    true ∧
  isOk (found (AutoRAG.doStream (JH:=Reference.json) (IS:=Reference.ids)
                 (U:=Reference.utils) (R:=Reference.autoRag Sample.ragOutput [])
                 Sample.twoPictures)) = true ∧
  query = AutoRAG.searchQuery (bare <$> messages Sample.twoPicturesConverted).
Proof.
  apply (autorag_searches_once (JH:=Reference.json) (IS:=Reference.ids)
           (U:=Reference.utils) (R:=Reference.autoRag Sample.ragOutput [])
           Sample.twoPictures Sample.twoPicturesConverted).
  - reflexivity.
  - intros type. discriminate.
Defined.


Lemma autorag_prompt_checked_first_witness :
  (AutoRAG.doGenerate (JH:=Reference.json) (U:=Reference.utils)
     (R:=Reference.autoRag Sample.ragOutput []) Sample.xmlCall =
     {| queries := []; found := Throw "Unsupported part type: file" |} ∧
   AutoRAG.doStream (JH:=Reference.json) (IS:=Reference.ids) (U:=Reference.utils)
     (R:=Reference.autoRag Sample.ragOutput []) Sample.xmlCall =
     {| queries := []; found := Throw "Unsupported part type: file" |}) ∧
  doGenerate (JH:=Reference.json) (U:=Reference.utils)
    (B:=Reference.backend (ReplyOutput Sample.fullOutput)) Sample.xmlCall =
    throw "Unsupported type: xml" ∧
  doStream (JH:=Reference.json) (IS:=Reference.ids) (U:=Reference.utils)
    (B:=Reference.backend (ReplyOutput Sample.fullOutput)) Sample.xmlCall =
    throw "Unsupported type: xml".
Proof.
  apply (autorag_prompt_checked_first (JH:=Reference.json) (IS:=Reference.ids)
           (U:=Reference.utils) (R:=Reference.autoRag Sample.ragOutput [])
           (B:=Reference.backend (ReplyOutput Sample.fullOutput))
           Sample.xmlCall "xml").
  reflexivity.
Defined.

Lemma autorag_content_layout_witness :
  ∃ conv output,
    convertToWorkersAIChatMessages (JH:=Reference.json) (prompt Sample.question) =
      Ok conv ∧
    aiSearch (AutoRag:=Reference.autoRag Sample.ragOutput [])
      (AutoRAG.searchQuery (messages conv)) = Ok output ∧
    [ RagSource "f1" "shirts.md" (Finite (9 # 10));
      RagSource "f2" "sizes.md" (Finite (1 # 2));
      RagText "Hello";
      RagToolCall {| toolCallId := "call-1"; toolName := "get";
                     input := JArr [JNum 1; JNum 2] |} ] =
      (sourceOf <$> rag_data output) ++
      RagText (rag_response output) ::
      (RagToolCall <$> processToolCalls (Utils:=Reference.utils) (rag_document output)) ∧
    [ RagSource "f1" "shirts.md" (Finite (9 # 10));
      RagSource "f2" "sizes.md" (Finite (1 # 2));
      RagText "Hello";
      RagToolCall {| toolCallId := "call-1"; toolName := "get";
                     input := JArr [JNum 1; JNum 2] |} ]
      !! length (rag_data output) = Some (RagText (rag_response output)) ∧
    FinishStop = FinishStop ∧
    {| outputTokens := 4; inputTokens := 3; totalTokens := 7 |} =
      mapWorkersAIUsage (rag_document output) ∧
    [] = penaltyWarnings Sample.question.
Proof.
  apply (autorag_content_layout (JH:=Reference.json) (U:=Reference.utils)
           (R:=Reference.autoRag Sample.ragOutput []) Sample.question
           {| rag_finishReason := FinishStop;
              rag_content :=
                [ RagSource "f1" "shirts.md" (Finite (9 # 10));
                  RagSource "f2" "sizes.md" (Finite (1 # 2));
                  RagText "Hello";
                  RagToolCall {| toolCallId := "call-1"; toolName := "get";
                                 input := JArr [JNum 1; JNum 2] |} ];
              rag_usage := {| outputTokens := 4; inputTokens := 3; totalTokens := 7 |};
              rag_warnings := [] |}).
  reflexivity.
Defined.

Lemma autorag_stream_starts_and_frames_witness :
  ∃ conv events,
    convertToWorkersAIChatMessages (JH:=Reference.json) (prompt Sample.question) =
      Ok conv ∧
    aiSearchStream (AutoRag:=Reference.autoRag Sample.ragOutput
                               (Data <$> [Sample.textChunk "Hello"]))
      (AutoRAG.searchQuery (messages conv)) = Ok events ∧
    [ StreamStart []; TextStart "id-0"; TextDelta "id-0" "Hello"; TextEnd "id-0";
      Finish FinishStop {| outputTokens := 0; inputTokens := 0; totalTokens := 0 |} ] =
      StreamStart (penaltyWarnings Sample.question) ::
      parts (getMappedStream (IS:=Reference.ids) (U:=Reference.utils) events) ∧
    true = closed (getMappedStream (IS:=Reference.ids) (U:=Reference.utils) events) ∧
    (true = true →
     framed
       [ StreamStart []; TextStart "id-0"; TextDelta "id-0" "Hello"; TextEnd "id-0";
         Finish FinishStop {| outputTokens := 0; inputTokens := 0; totalTokens := 0 |} ]).
Proof.
  apply (autorag_stream_starts_and_frames (JH:=Reference.json) (IS:=Reference.ids)
           (U:=Reference.utils)
           (R:=Reference.autoRag Sample.ragOutput
                 (Data <$> [Sample.textChunk "Hello"]))
           Sample.question
           {| parts :=
                [ StreamStart []; TextStart "id-0"; TextDelta "id-0" "Hello";
                  TextEnd "id-0";
                  Finish FinishStop
                    {| outputTokens := 0; inputTokens := 0; totalTokens := 0 |} ];
              closed := true |}).
  reflexivity.
Defined.


Lemma call_errors_come_first_witness :
  doGenerate (JH:=Reference.json) (U:=Reference.utils)
    (B:=Reference.backend (ReplyOutput Sample.fullOutput)) Sample.xmlCall =
    throw "Unsupported type: xml" ∧
  doStream (JH:=Reference.json) (IS:=Reference.ids) (U:=Reference.utils)
    (B:=Reference.backend (ReplyOutput Sample.fullOutput)) Sample.xmlCall =
    throw "Unsupported type: xml".
Proof.
  destruct (call_errors_come_first (JH:=Reference.json) (IS:=Reference.ids)
              (U:=Reference.utils)
              (B:=Reference.backend (ReplyOutput Sample.fullOutput))
              Sample.xmlCall "Unsupported type: xml") as (Hformat & Hthrow & _).
  apply Hthrow, Hformat. exists "xml". split; reflexivity.
Defined.

Lemma doStream_stream_starts_and_frames_witness :
  head [ StreamStart []; TextStart "id-0"; TextDelta "id-0" "Hello"; TextEnd "id-0";
         Finish FinishStop {| outputTokens := 0; inputTokens := 0; totalTokens := 0 |} ] =
    Some (StreamStart []) ∧
  framed
    [ StreamStart []; TextStart "id-0"; TextDelta "id-0" "Hello"; TextEnd "id-0";
      Finish FinishStop {| outputTokens := 0; inputTokens := 0; totalTokens := 0 |} ].
Proof.
  destruct (proj2 (doStream_stream_starts_and_frames (JH:=Reference.json)
                     (IS:=Reference.ids) (U:=Reference.utils)
                     (B:=Reference.backend
                           (ReplyStream (Data <$> [Sample.textChunk "Hello"])))
                     Sample.onePicture)
              {| parts :=
                   [ StreamStart []; TextStart "id-0"; TextDelta "id-0" "Hello";
                     TextEnd "id-0";
                     Finish FinishStop
                       {| outputTokens := 0; inputTokens := 0; totalTokens := 0 |} ];
                 closed := true |}) as [Hhead Hframed]; [vm_compute; reflexivity|].
  split; [exact Hhead|].
  apply Hframed; [reflexivity|].
  intros req Hreq. vm_compute in Hreq. apply list_elem_of_singleton in Hreq. by rewrite Hreq.
Defined.

Lemma schedule_task_outcomes_witness :
  executeSchedule
    (TH:=Reference.toolHost Sample.numbers Sample.completing None Sample.printCron)
    {| when_type := "no-schedule"; when_date := None;
       when_delayInSeconds := None; when_cron := None |} "water the plants" =
    ({| created := []; scheduled := []; waits := 0 |},
     Throw "Not a valid schedule input") ∧
  ∃ text,
    executeSchedule
      (TH:=Reference.toolHost Sample.numbers Sample.completing (Some "Error: full")
             Sample.printCron)
      {| when_type := "cron"; when_date := None;
         when_delayInSeconds := None; when_cron := Some "0 8 * * *" |}
      "water the plants" =
      ({| created := [];
          scheduled := [(Some (OnCron "0 8 * * *"), "executeTask", "water the plants")];
          waits := 0 |}, Ok text) ∧
    text = "Error scheduling task: Error: full".
Proof.
  split.
  - apply (proj1 (schedule_task_outcomes
                    (TH:=Reference.toolHost Sample.numbers Sample.completing None
                           Sample.printCron)
                    {| when_type := "no-schedule"; when_date := None;
                       when_delayInSeconds := None; when_cron := None |}
                    "water the plants")).
    unfold scheduleTypes. rewrite !not_elem_of_cons.
    repeat split; [discriminate..|apply not_elem_of_nil].
  - destruct (proj2 (schedule_task_outcomes
                       (TH:=Reference.toolHost Sample.numbers Sample.completing
                              (Some "Error: full") Sample.printCron)
                       {| when_type := "cron"; when_date := None;
                          when_delayInSeconds := None;
                          when_cron := Some "0 8 * * *" |}
                       "water the plants"))
      as (input & text & Hrun & -> & Herror).
    + unfold scheduleTypes. rewrite !elem_of_cons. tauto.
    + exists text. split; [exact Hrun|]. by apply Herror.
Defined.
